(** * ytdlp_services.py: stream selection and retrieval engine

    A shallow embedding of [YouTubeStreamExtractor]
    (android/src/main/python/ytdlp_services.py) and the properties of its
    selection policy, retry loop, status probe and unified orchestrator.

    Modelling conventions.
    - Python [str] is [string]; the text is ASCII (code points below 128),
      which is what quality tokens, codec identifiers and the provider's
      messages are made of.
    - Python [int] is [Z].  Python [float] (bitrates, the retry delay) is
      [Q]: finite values compared and subtracted exactly; NaN and rounding
      are outside the model.
    - A dict key of a provider descriptor is a [field]: missing, present
      with [None], or present with a value of the provider's documented
      type.
    - Exceptions, diagnostics, the provider and the sleeps are explicit:
      a computation returns a value or raises, and leaves a trace of
      events.  The f-strings of the source are kept as lists of literal
      and interpolated parts.
    - The state threaded through a computation is the memo table that
      [functools.lru_cache] keeps for [_parse_quality].
    - The two workers of the unified call share nothing but that table;
      they are run one after the other, and whether the wait for a
      worker runs out is an input of the model.
    - [PerformanceMonitor] is a record of its two attributes; the value
      of the clock is an input of each call, and the lines it prints are
      the result next to the new state. *)

From Stdlib Require Import QArith Qabs Lqa.
From Stdlib Require Import Ascii String DecimalString DecimalPos.
From Stdlib Require SpecFloat.
From stdpp Require Import gmap strings list fin_maps.

Local Open Scope Z_scope.

(** ** Python built-ins used by the module *)

Module Py.

Local Open Scope string_scope.

Definition code (c : ascii) : N := N_of_ascii c.

Definition between (lo hi : N) (c : ascii) : bool :=
  ((lo <=? code c) && (code c <=? hi))%N.

(** [str.lower] on ASCII text. *)
Definition lower_char (c : ascii) : ascii :=
  if between 65 90 c then ascii_of_N (code c + 32) else c.

Fixpoint lower (s : string) : string :=
  match s with
  | EmptyString => EmptyString
  | String c s' => String (lower_char c) (lower s')
  end.

(** [str.isspace] on one ASCII character: TAB LF VT FF CR, FS GS RS US
    and the space. *)
Definition isspace (c : ascii) : bool :=
  between 9 13 c || between 28 31 c || (code c =? 32)%N.

(** The narrower whitespace of [int()] on ASCII text: TAB LF VT FF CR
    and the space. *)
Definition isspace_c (c : ascii) : bool :=
  between 9 13 c || (code c =? 32)%N.

Fixpoint lstrip_by (sp : ascii -> bool) (s : string) : string :=
  match s with
  | EmptyString => EmptyString
  | String c s' => if sp c then lstrip_by sp s' else s
  end.

Fixpoint rstrip_by (sp : ascii -> bool) (s : string) : string :=
  match s with
  | EmptyString => EmptyString
  | String c s' =>
      match rstrip_by sp s' with
      | EmptyString => if sp c then EmptyString else String c EmptyString
      | r => String c r
      end
  end.

(** [s.strip()] *)
Definition strip (s : string) : string := rstrip_by isspace (lstrip_by isspace s).

(** [s.endswith(suffix)] *)
Fixpoint endswith (s suffix : string) : bool :=
  String.eqb s suffix
  || match s with
     | EmptyString => false
     | String _ s' => endswith s' suffix
     end.

(** [s[:-1]] *)
Fixpoint drop_last (s : string) : string :=
  match s with
  | EmptyString => EmptyString
  | String c EmptyString => EmptyString
  | String c s' => String c (drop_last s')
  end.

(** [needle in hay] on strings. *)
Fixpoint contains (needle hay : string) : bool :=
  String.prefix needle hay
  || match hay with
     | EmptyString => false
     | String _ hay' => contains needle hay'
     end.

Definition is_digit (c : ascii) : bool := between 48 57 c.

Definition digit_value (c : ascii) : Z := Z.of_N (code c) - 48.

Fixpoint all_digits (s : string) : bool :=
  match s with
  | EmptyString => true
  | String c s' => is_digit c && all_digits s'
  end.

(** [s.isdigit()] *)
Definition isdigit (s : string) : bool :=
  match s with
  | EmptyString => false
  | _ => all_digits s
  end.

(** The digits of an [int()] literal: single underscores are allowed
    between digits only. *)
Fixpoint int_digits (acc : Z) (after_underscore : bool) (s : string) : option Z :=
  match s with
  | EmptyString => if after_underscore then None else Some acc
  | String c s' =>
      if is_digit c then int_digits (10 * acc + digit_value c) false s'
      else if Ascii.eqb c "_" then
             if after_underscore then None else int_digits acc true s'
           else None
  end.

Fixpoint count_digits (s : string) : nat :=
  match s with
  | EmptyString => O
  | String c s' => if is_digit c then S (count_digits s') else count_digits s'
  end.

(** The interpreter's default bound on the digits of a decimal literal
    ([sys.get_int_max_str_digits()]). *)
Definition int_max_str_digits : nat := 4300.

(** [int(s)] for a string [s] in base 10; [None] is [ValueError]. *)
Definition int (s : string) : option Z :=
  let s := rstrip_by isspace_c (lstrip_by isspace_c s) in
  let '(sign, body) :=
    match s with
    | String "+" r => (1, r)
    | String "-" r => (-1, r)
    | _ => (1, s)
    end in
  match body with
  | EmptyString => None
  | String c r =>
      if is_digit c then
        if (int_max_str_digits <? count_digits body)%nat then None
        else option_map (Z.mul sign) (int_digits (digit_value c) false r)
      else None
  end.

(** [str(n)] for an integer. *)
Definition str_int (n : Z) : string := NilZero.string_of_int (Z.to_int n).

(** Python [float] is IEEE 754 binary64.  [float_of_int n] is [float(n)];
    [float_of q] is the double nearest to the rational [q], which is [q]
    itself when [q] is a double and is how a decimal literal is read
    otherwise; [float_value] is the rational that a finite double
    denotes. *)
Definition float_prec : Z := 53.

Definition float_emax : Z := 1024.

Definition float_of_int (n : Z) : SpecFloat.spec_float :=
  SpecFloat.binary_normalize float_prec float_emax n 0 false.

Definition float_of (q : Q) : SpecFloat.spec_float :=
  if (Qnum q =? 0)%Z then SpecFloat.S754_zero false
  else SpecFloat.SFdiv float_prec float_emax (float_of_int (Qnum q))
         (float_of_int (Z.pos (Qden q))).

Definition float_value (x : SpecFloat.spec_float) : Q :=
  match x with
  | SpecFloat.S754_finite s m e => (inject_Z (SpecFloat.cond_Zopp s (Z.pos m)) * Qpower 2 e)%Q
  | _ => 0%Q
  end.

(** [a - b] on numbers of which one is a [float]: the difference rounded
    to the nearest double, ties to even. *)
Definition float_sub (a b : Q) : Q :=
  float_value (SpecFloat.SFsub float_prec float_emax (float_of a) (float_of b)).

End Py.

(** ** Data model *)

(** One key of a provider dict: absent, present with [None], or present
    with a value. *)
Inductive field (A : Type) : Type :=
| Missing
| Null
| Has (a : A).
Arguments Missing {A}.
Arguments Null {A}.
Arguments Has {A} a.

(** [d.get(key)] *)
Definition get {A} (f : field A) : option A :=
  match f with
  | Has a => Some a
  | _ => None
  end.

(** [d.get(key, default)] *)
Definition get_or {A} (f : field A) (default : A) : option A :=
  match f with
  | Missing => Some default
  | Null => None
  | Has a => Some a
  end.

(** Truth value of an optional [str], [int] or [float]. *)
Definition truthy_str (v : option string) : bool :=
  match v with
  | Some s => negb (String.eqb s EmptyString)
  | None => false
  end.

Definition truthy_int (v : option Z) : bool :=
  match v with
  | Some n => negb (n =? 0)%Z
  | None => false
  end.

Definition truthy_float (v : option Q) : bool :=
  match v with
  | Some q => negb (Qeq_bool q 0)
  | None => false
  end.

(** A raw format descriptor of the provider (one entry of [info['formats']]). *)
Record RawFormat : Type := {
  vcodec : field string;
  acodec : field string;
  url : field string;
  ext : field string;
  height : field Z;
  width : field Z;
  tbr : field Q;
  filesize : field Z;
  format_note : field string;
  format_id : field string;
  resolution : field string
}.

(** The provider's result for one video. *)
Record Info : Type := {
  duration : field Z;
  formats : field (list RawFormat)
}.

(** The [StreamInfo] dataclass.  The annotations of a dataclass are not
    enforced: [s_url] holds whatever the descriptor held. *)
Record StreamInfo : Type := {
  s_url : option string;
  s_ext : option string;
  s_resolution : option string;
  s_height : option Z;
  s_width : option Z;
  s_bitrate : option Q;
  s_codec : option string;
  s_filesize : option Z;
  s_format_note : option string;
  s_format_id : option string
}.

(** ** Diagnostics, exceptions and the computation monad *)

(** A formatted string: the literal and the interpolated parts of an
    f-string, in order. *)
Inductive part : Type :=
| Lit (s : string)
| Str (s : string)
| Repr (s : string)
| Int (n : Z)
| Float (q : Q)
| PyNone
| Codecs (s : gset (option string)).

Definition message : Type := list part.

Definition opt {A} (f : A -> part) (v : option A) : part :=
  match v with
  | Some a => f a
  | None => PyNone
  end.

Inductive exn_class : Type :=
| DownloadError
| ValueError
| TypeError
| AttributeError
| KeyError
| OtherException.

(** An exception object; [str_of e] is [str(e)]. *)
Record exn : Type := Exn { class_of : exn_class; str_of : message }.

Inductive severity : Type := DEBUG | WARNING | ERROR.

Inductive event : Type :=
| Print (sev : severity) (m : message)
| ExtractInfo (video_id : string) (flat : bool)
| Sleep (seconds : Q)
| Close.

Inductive outcome (A : Type) : Type :=
| Return (a : A)
| Raise (e : exn).
Arguments Return {A} a.
Arguments Raise {A} e.

(** The memo table of [_parse_quality], most recently used first. *)
Definition cache : Type := list (string * Z).

Definition M (A : Type) : Type := cache -> outcome A * cache * list event.

Definition ret {A} (a : A) : M A := fun c => (Return a, c, []).

Definition raise {A} (e : exn) : M A := fun c => (Raise e, c, []).

Definition bind {A B} (m : M A) (k : A -> M B) : M B := fun c =>
  match m c with
  | (Return a, c', t) => let '(r, c'', t') := k a c' in (r, c'', t ++ t')
  | (Raise e, c', t) => (Raise e, c', t)
  end.

Definition emit (e : event) : M unit := fun c => (Return tt, c, [e]).

(** [try: body except ... as e: handler e]; a handler re-raises what its
    clauses do not catch. *)
Definition try_except {A} (body : M A) (handler : exn -> M A) : M A := fun c =>
  match body c with
  | (Raise e, c', t) => let '(r, c'', t') := handler e c' in (r, c'', t ++ t')
  | r => r
  end.

Declare Scope M_scope.
Delimit Scope M_scope with M.
Notation "x ← m ; k" := (bind m (fun x => k))
  (at level 20, m at level 100, k at level 200, only parsing) : M_scope.
Notation "m ;; k" := (bind m (fun _ => k))
  (at level 100, k at level 200, only parsing, right associativity) : M_scope.
Local Open Scope M_scope.

Definition value_of {A} (r : outcome A * cache * list event) : outcome A := r.1.1.
Definition trace_of {A} (r : outcome A * cache * list event) : list event := r.2.

(** The extractor object: the attributes set by [__init__]. *)
Record extractor : Type := {
  max_retries : Z;
  retry_delay : Q;
  debug : bool
}.

(** [create_optimized_extractor] *)
Definition create_optimized_extractor (debug : bool) : extractor :=
  {| max_retries := 3; retry_delay := 1 # 2; debug := debug |}.

Definition _log_warning (m : message) : M unit := emit (Print WARNING m).

Definition _log_error (m : message) : M unit := emit (Print ERROR m).

Definition _log_debug (self : extractor) (m : message) : M unit :=
  if debug self then emit (Print DEBUG m) else ret tt.

(** ** Quality normalisation *)

Definition k_formats : gmap string Z :=
  <["2k" := 1440]> (<["4k" := 2160]> (<["8k" := 4320]> (<["1k" := 1080]> ∅))).

Definition aliases : gmap string Z :=
  <["hd" := 720]> (<["high" := 720]>
  (<["fhd" := 1080]> (<["full hd" := 1080]> (<["fullhd" := 1080]>
  (<["qhd" := 1440]> (<["quad hd" := 1440]> (<["quadhd" := 1440]>
  (<["uhd" := 2160]> (<["ultra hd" := 2160]> (<["ultrahd" := 2160]> ∅)))))))))).

(** [int(s)] as a computation: [ValueError] on a malformed literal. *)
Definition int_ (s : string) : M Z :=
  match Py.int s with
  | Some n => ret n
  | None => raise (Exn ValueError [Lit "invalid literal for int() with base 10: "; Repr s])
  end.

(** The body of [_parse_quality], without its memo table. *)
Definition _parse_quality_body (quality_str : string) : M Z :=
  try_except
    (if String.eqb quality_str EmptyString then ret 0
     else
       let quality_lower := Py.strip (Py.lower quality_str) in
       if Py.endswith quality_lower "p" then int_ (Py.drop_last quality_lower)
       else
         match k_formats !! quality_lower with
         | Some h => ret h
         | None =>
             if Py.isdigit quality_lower then int_ quality_lower
             else ret (default 0 (aliases !! quality_lower))
         end)
    (fun e =>
       match class_of e with
       | ValueError | AttributeError =>
           _log_warning ([Lit "Unable to parse quality: "; Str quality_str; Lit " - "] ++ str_of e);;
           ret 0
       | _ => raise e
       end).

Fixpoint cache_lookup (key : string) (c : cache) : option Z :=
  match c with
  | [] => None
  | (k, v) :: c' => if String.eqb k key then Some v else cache_lookup key c'
  end.

Fixpoint cache_remove (key : string) (c : cache) : cache :=
  match c with
  | [] => []
  | (k, v) :: c' => if String.eqb k key then c' else (k, v) :: cache_remove key c'
  end.

(** [functools.lru_cache(maxsize)] around a one-argument method: a hit
    returns the stored value and makes the key the most recent one; a
    miss runs the body, stores its value and evicts the least recent
    entry when the table is over its size; a raising body stores nothing. *)
Definition lru_cache (maxsize : nat) (body : string -> M Z) (key : string) : M Z := fun c =>
  match cache_lookup key c with
  | Some v => (Return v, (key, v) :: cache_remove key c, [])
  | None =>
      match body key c with
      | (Return v, c', t) => (Return v, take maxsize ((key, v) :: c'), t)
      | r => r
      end
  end.

Definition _parse_quality (quality_str : string) : M Z :=
  lru_cache 128 _parse_quality_body quality_str.

(** ** The provider *)

(** What one call of [extract_info(video_id, download=False)] does: it
    returns a result ([None] here stands for a falsy one: [None] or an
    empty dict) or raises an exception with a message. *)
Inductive provider_result : Type :=
| Returns (info : option Info)
| Throws (cls : exn_class) (msg : string).

(** ** Status probe *)

Record status_result : Type := {
  available : bool;
  status : string;
  error : option string
}.

(** The ordered table of [check_status]. *)
Definition status_map : list (string * string) :=
  [("Private video", "private"); ("Video unavailable", "unavailable");
   ("age-restricted", "age_restricted"); ("removed", "removed")]%string.

(** [next((v for k, v in table.items() if k in error_msg), default)] *)
Fixpoint next_status (table : list (string * string)) (error_msg default : string) : string :=
  match table with
  | [] => default
  | (k, v) :: table' =>
      if Py.contains k error_msg then v else next_status table' error_msg default
  end.

(** [check_status]; [probe] is what its one flat extraction does.  The
    provider call is the only statement of the [try] body that raises. *)
Definition check_status (self : extractor) (probe : provider_result) (video_id : string)
  : M status_result :=
  _log_debug self [Lit "Checking status for video: "; Str video_id];;
  emit (ExtractInfo video_id true);;
  match probe with
  | Returns (Some _) =>
      _log_debug self [Lit "Video is available"];;
      ret {| available := true; status := "available"; error := None |}
  | Returns None =>
      _log_warning [Lit "Video information not available"];;
      ret {| available := false; status := "unavailable";
              error := Some "Video information not available"%string |}
  | Throws DownloadError msg =>
      let error_msg := msg in
      _log_error [Lit "Video unavailable: "; Str error_msg];;
      let status := next_status status_map error_msg "error" in
      ret {| available := false; status := status; error := Some error_msg |}
  | Throws _ msg =>
      let error_msg := ("Unexpected error: " +:+ msg)%string in
      _log_error [Str error_msg];;
      ret {| available := false; status := "error"; error := Some error_msg |}
  end.

(** ** Retrying fetch *)

(** [time.sleep(seconds)]: a negative length is a [ValueError]. *)
Definition sleep (seconds : Q) : M unit :=
  if Qle_bool 0 seconds then emit (Sleep seconds)
  else raise (Exn ValueError [Lit "sleep length must be non-negative"]).

(** [raise last_error]: raising [None] is a [TypeError]. *)
Definition raise_object {A} (last_error : option exn) : M A :=
  match last_error with
  | Some e => raise e
  | None => raise (Exn TypeError [Lit "exceptions must derive from BaseException"])
  end.

Definition str_object (last_error : option exn) : message :=
  match last_error with
  | Some e => str_of e
  | None => [PyNone]
  end.

(** The [for attempt in range(self.max_retries)] loop of
    [_get_ytdlp_info] from iteration [attempt] on, with [remaining]
    iterations to go, followed by the statements after the loop.
    [provider k] is what the call made in iteration [k] does. *)
Fixpoint _get_ytdlp_info_from (self : extractor) (provider : nat -> provider_result)
    (video_id : string) (remaining attempt : nat) (last_error : option exn) : M Info :=
  match remaining with
  | O =>
      _log_error ([Lit "All "; Int (max_retries self); Lit " attempts failed. Last error: "]
                  ++ str_object last_error);;
      raise_object last_error
  | S remaining' =>
      _log_debug self [Lit "Attempt "; Int (Z.of_nat attempt + 1); Lit "/";
                       Int (max_retries self); Lit " to extract info for: "; Str video_id];;
      emit (ExtractInfo video_id false);;
      match provider attempt with
      | Returns (Some info) =>
          _log_debug self [Lit "Successfully extracted video information"];;
          ret info
      | Returns None =>
          _get_ytdlp_info_from self provider video_id remaining' (S attempt) last_error
      | Throws DownloadError msg =>
          let e := Exn DownloadError [Str msg] in
          _log_warning [Lit "Attempt "; Int (Z.of_nat attempt + 1); Lit " failed: "; Str msg];;
          emit Close;;
          (if Z.of_nat attempt <? max_retries self - 1 then
             _log_debug self [Lit "Retrying in "; Float (retry_delay self); Lit " seconds..."];;
             sleep (retry_delay self)
           else ret tt);;
          _get_ytdlp_info_from self provider video_id remaining' (S attempt) (Some e)
      | Throws cls msg =>
          emit Close;;
          raise (Exn cls [Str msg])
      end
  end.

Definition _get_ytdlp_info (self : extractor) (provider : nat -> provider_result)
    (video_id : string) : M Info :=
  _get_ytdlp_info_from self provider video_id (Z.to_nat (max_retries self)) 0 None.

(** ** Selection primitives *)

(** [a < b] on floats. *)
Definition Qltb (a b : Q) : bool := negb (Qle_bool b a).

Section MinMax.
Context {A K : Type} (ltb : K -> K -> bool) (key : A -> K).

(** [min] keeps its current choice unless a later key is strictly
    smaller, [max] unless a later key is strictly greater. *)
Fixpoint min_from (best : A) (l : list A) : A :=
  match l with
  | [] => best
  | x :: l' => if ltb (key x) (key best) then min_from x l' else min_from best l'
  end.

Fixpoint max_from (best : A) (l : list A) : A :=
  match l with
  | [] => best
  | x :: l' => if ltb (key best) (key x) then max_from x l' else max_from best l'
  end.

(** [min(l, key=key)] and [max(l, key=key)] *)
Definition py_min (l : list A) : M A :=
  match l with
  | [] => raise (Exn ValueError [Lit "min() arg is an empty sequence"])
  | x :: l' => ret (min_from x l')
  end.

Definition py_max (l : list A) : M A :=
  match l with
  | [] => raise (Exn ValueError [Lit "max() arg is an empty sequence"])
  | x :: l' => ret (max_from x l')
  end.
End MinMax.

(** [x.bitrate or 0] and [x.height or 0] *)
Definition bitrate_or_0 (x : StreamInfo) : Q :=
  if truthy_float (s_bitrate x) then default 0%Q (s_bitrate x) else 0%Q.

Definition height_or_0 (x : StreamInfo) : Z :=
  if truthy_int (s_height x) then default 0 (s_height x) else 0.

(** [s.height == target_height] *)
Definition height_is (target_height : Z) (s : StreamInfo) : bool :=
  match s_height s with
  | Some h => (h =? target_height)%Z
  | None => false
  end.

(** [abs((x.height or 0) - target_height)] *)
Definition height_distance (target_height : Z) (x : StreamInfo) : Z :=
  Z.abs (height_or_0 x - target_height).

(** [abs((x.bitrate or 0) - bitrate)]: the subtraction is the one of
    floating-point numbers, [abs] is exact. *)
Definition bitrate_distance (bitrate : Z) (x : StreamInfo) : Q :=
  Qabs (Py.float_sub (bitrate_or_0 x) (inject_Z bitrate)).

(** [f"{n}"] for an optional integer. *)
Definition format_int (n : option Z) : string :=
  match n with
  | Some n => Py.str_int n
  | None => "None"
  end.

(** The resolution label of a video stream: the provider's when it is
    truthy, else derived from the height and the width. *)
Definition resolution_of (fmt : RawFormat) (height width : option Z) : option string :=
  let resolution := get (resolution fmt) in
  if negb (truthy_str resolution) then
    if truthy_int height && truthy_int width then
      Some (format_int width +:+ "x" +:+ format_int height)%string
    else if truthy_int height then Some (format_int height +:+ "p")%string
    else resolution
  else resolution.

(** [for x in l: ...] where an iteration appends one item or continues. *)
Fixpoint collect {A B} (body : A -> M (option B)) (l : list A) : M (list B) :=
  match l with
  | [] => ret []
  | x :: l' =>
      r ← body x;
      rest ← collect body l';
      ret (match r with Some b => b :: rest | None => rest end)
  end.

(** Iterating [info['formats']]. *)
Definition iter_formats (f : field (list RawFormat)) : M (list RawFormat) :=
  match f with
  | Has l => ret l
  | Null => raise (Exn TypeError [Lit "'NoneType' object is not iterable"])
  | Missing => raise (Exn KeyError [Repr "formats"])
  end.

(** ** Single-stream video retrieval *)

(** One iteration of the format loop of [get_video_streams]: [None] is
    [continue]. *)
Definition get_video_streams_entry (fmt : RawFormat) : option StreamInfo :=
  let vcodec := get (vcodec fmt) in
  if negb (truthy_str vcodec) || bool_decide (vcodec = Some "none"%string) then None
  else
    let height := get_or (height fmt) 0 in
    let width := get_or (width fmt) 0 in
    let url := get_or (url fmt) EmptyString in
    if negb (truthy_str url) || Py.contains "manifest" (default EmptyString url) then None
    else
      Some {| s_url := url;
              s_ext := get_or (ext fmt) "unknown"%string;
              s_resolution := resolution_of fmt height width;
              s_height := height;
              s_width := width;
              s_bitrate := get (tbr fmt);
              s_codec := vcodec;
              s_filesize := get (filesize fmt);
              s_format_note := get (format_note fmt);
              s_format_id := get (format_id fmt) |}.

(** The selection at the end of [get_video_streams] (from
    [if not video_streams] on). *)
Definition get_video_streams_select (self : extractor) (quality : string)
    (target_height : Z) (video_streams : list StreamInfo) : M (list StreamInfo) :=
  match video_streams with
  | [] => raise (Exn ValueError [Lit "No video streams available for this video"])
  | _ =>
      let exact_matches := List.filter (height_is target_height) video_streams in
      match exact_matches with
      | _ :: _ =>
          best_stream ← py_max Qltb bitrate_or_0 exact_matches;
          _log_debug self [Lit "Found exact match for "; Str quality; Lit ": ";
                           opt Str (s_resolution best_stream)];;
          ret [best_stream]
      | [] =>
          best_stream ← py_min Z.ltb (height_distance target_height) video_streams;
          let closest_quality :=
            if truthy_int (s_height best_stream)
            then (format_int (s_height best_stream) +:+ "p")%string
            else "unknown"%string in
          _log_warning [Lit "Requested quality "; Str quality;
                        Lit " not available. Using closest: "; Str closest_quality];;
          ret [best_stream]
      end
  end.

Definition get_video_streams (self : extractor) (provider : nat -> provider_result)
    (video_id quality : string) : M (list StreamInfo) :=
  try_except
    (_log_debug self [Lit "Getting video streams for: "; Str video_id;
                      Lit ", quality: "; Str quality];;
     info ← _get_ytdlp_info self provider video_id;
     match formats info with
     | Missing => raise (Exn ValueError [Lit "No video streams found for the given video ID"])
     | _ =>
         target_height ← _parse_quality quality;
         fmts ← iter_formats (formats info);
         get_video_streams_select self quality target_height
           (omap get_video_streams_entry fmts)
     end)
    (fun e =>
       match class_of e with
       | DownloadError =>
           _log_error (Lit "Failed to get video streams: " :: str_of e);;
           raise e
       | _ =>
           _log_error (Lit "Unexpected error getting video streams: " :: str_of e);;
           raise (Exn ValueError (Lit "Error getting video streams: " :: str_of e))
       end).

(** ** Single-stream audio retrieval *)

(** One iteration of the format loop of [get_audio_streams]. *)
Definition get_audio_streams_entry (fmt : RawFormat) : option StreamInfo :=
  let acodec := get (acodec fmt) in
  if negb (truthy_str acodec) || bool_decide (acodec = Some "none"%string) then None
  else
    let current_bitrate := get_or (tbr fmt) 0%Q in
    if negb (truthy_float current_bitrate) || Qle_bool (default 0%Q current_bitrate) 0 then None
    else
      let url := get_or (url fmt) EmptyString in
      if negb (truthy_str url) then None
      else
        Some {| s_url := url;
                s_ext := get_or (ext fmt) "unknown"%string;
                s_resolution := None;
                s_height := None;
                s_width := None;
                s_bitrate := current_bitrate;
                s_codec := acodec;
                s_filesize := get (filesize fmt);
                s_format_note := get (format_note fmt);
                s_format_id := get (format_id fmt) |}.

(** [(x.codec or '').lower()] *)
Definition codec_lower_of (x : StreamInfo) : string :=
  Py.lower (if truthy_str (s_codec x) then default EmptyString (s_codec x) else EmptyString).

(** The [codec_matches] table of [get_audio_streams]. *)
Definition codec_matches : gmap string (StreamInfo -> bool) :=
  <["aac"%string := fun x => Py.contains "mp4a" (codec_lower_of x)]>
  (<["mp4a"%string := fun x => Py.contains "mp4a" (codec_lower_of x)]>
  (<["opus"%string := fun x => Py.contains "opus" (codec_lower_of x)]> ∅)).

(** The predicate [get_audio_streams] filters with for a truthy [codec]. *)
Definition get_audio_streams_filter (codec : string) : StreamInfo -> bool :=
  let codec_lower := Py.lower codec in
  match codec_matches !! codec_lower with
  | Some filter_func => filter_func
  | None => fun s => Py.contains codec_lower (codec_lower_of s)
  end.

(** [best_match.bitrate != bitrate] *)
Definition bitrate_differs (best_match : StreamInfo) (bitrate : Z) : bool :=
  match s_bitrate best_match with
  | Some q => negb (Qeq_bool q (inject_Z bitrate))
  | None => true
  end.

(** The codec filter of [get_audio_streams] with its fallback (from
    [if codec] to the line before the bitrate match). *)
Definition get_audio_streams_filtered (self : extractor) (codec : option string)
    (audio_streams : list StreamInfo) : M (list StreamInfo) :=
  if truthy_str codec then
    let filtered_streams :=
      List.filter (get_audio_streams_filter (default EmptyString codec)) audio_streams in
    match filtered_streams with
    | _ :: _ =>
        _log_debug self [Lit "Found "; Int (Z.of_nat (length filtered_streams));
                         Lit " streams with codec '"; opt Str codec; Lit "'"];;
        ret filtered_streams
    | [] =>
        _log_warning [Lit "No streams found with codec '"; opt Str codec;
                      Lit "', using best available"];;
        ret audio_streams
    end
  else ret audio_streams.

(** The closest bitrate match that ends [get_audio_streams]. *)
Definition get_audio_streams_closest (bitrate : Z) (audio_streams : list StreamInfo)
  : M (list StreamInfo) :=
  best_match ← py_min Qltb (bitrate_distance bitrate) audio_streams;
  (if bitrate_differs best_match bitrate then
     _log_warning [Lit "Requested bitrate "; Int bitrate;
                   Lit "kbps not available. Using: ";
                   opt Float (s_bitrate best_match); Lit "kbps"]
   else ret tt);;
  ret [best_match].

(** [get_audio_streams] from [if not audio_streams] on. *)
Definition get_audio_streams_select (self : extractor) (bitrate : Z)
    (codec : option string) (audio_streams : list StreamInfo) : M (list StreamInfo) :=
  match audio_streams with
  | [] => raise (Exn ValueError [Lit "No audio streams available for this video"])
  | _ =>
      audio_streams ← get_audio_streams_filtered self codec audio_streams;
      get_audio_streams_closest bitrate audio_streams
  end.

Definition get_audio_streams (self : extractor) (provider : nat -> provider_result)
    (video_id : string) (bitrate : Z) (codec : option string) : M (list StreamInfo) :=
  try_except
    (let codec_info := if truthy_str codec then [Lit ", codec: "; opt Str codec] else [] in
     _log_debug self ([Lit "Getting audio streams for: "; Str video_id;
                       Lit ", bitrate: "; Int bitrate; Lit "kbps"] ++ codec_info);;
     info ← _get_ytdlp_info self provider video_id;
     match formats info with
     | Missing => raise (Exn ValueError [Lit "No audio streams found for the given video ID"])
     | _ =>
         fmts ← iter_formats (formats info);
         get_audio_streams_select self bitrate codec (omap get_audio_streams_entry fmts)
     end)
    (fun e =>
       match class_of e with
       | DownloadError =>
           _log_error (Lit "Failed to get audio streams: " :: str_of e);;
           raise e
       | _ =>
           _log_error (Lit "Unexpected error getting audio streams: " :: str_of e);;
           raise (Exn ValueError (Lit "Error getting audio streams: " :: str_of e))
       end).

(** ** Unified retrieval *)

Inductive stream_type : Type := Video | Audio.

#[global] Instance stream_type_eq_dec : EqDecision stream_type.
Proof. solve_decision. Defined.

(** The key of a branch in [futures] and [result], and its
    [capitalize()]. *)
Definition key_of (t : stream_type) : string :=
  match t with Video => "video" | Audio => "audio" end.

Definition capitalize (t : stream_type) : string :=
  match t with Video => "Video" | Audio => "Audio" end.

(** The [result] dict of [get_unified_streams]; a branch that was not
    requested has no key. *)
Record unified_result : Type := {
  r_duration : option Z;
  r_video : option (list StreamInfo);
  r_audio : option (list StreamInfo)
}.

(** [v.lower()] on the value of [fmt.get(key, '')]. *)
Definition lower_ (v : option string) : M string :=
  match v with
  | Some s => ret (Py.lower s)
  | None => raise (Exn AttributeError [Lit "'NoneType' object has no attribute 'lower'"])
  end.

(** [fmt['url']] *)
Definition subscript_url (fmt : RawFormat) : M (option string) :=
  match url fmt with
  | Missing => raise (Exn KeyError [Repr "url"])
  | f => ret (get f)
  end.

(** [fmt.get('tbr', 0) > 0] *)
Definition gt_zero (v : option Q) : M bool :=
  match v with
  | Some q => ret (Qltb 0 q)
  | None =>
      raise (Exn TypeError
               [Lit "'>' not supported between instances of 'NoneType' and 'int'"])
  end.

(** One iteration of the pre-filter loop: whether the descriptor is
    appended to [video_formats] and to [audio_formats]. *)
Definition prefilter_entry (include_video include_audio : bool) (fmt : RawFormat)
  : M (bool * bool) :=
  let vcodec := get (vcodec fmt) in
  let acodec := get (acodec fmt) in
  let url := get_or (url fmt) EmptyString in
  if negb (truthy_str url) then ret (false, false)
  else
    let is_video :=
      include_video && truthy_str vcodec && negb (bool_decide (vcodec = Some "none"%string))
      && negb (Py.contains "manifest" (default EmptyString url))
      && Py.contains "videoplayback" (default EmptyString url) in
    is_audio ←
      (if include_audio && truthy_str acodec
          && negb (bool_decide (acodec = Some "none"%string))
       then gt_zero (get_or (tbr fmt) 0%Q)
       else ret false);
    ret (is_video, is_audio).

Fixpoint prefilter (include_video include_audio : bool) (formats : list RawFormat)
  : M (list RawFormat * list RawFormat) :=
  match formats with
  | [] => ret ([], [])
  | fmt :: formats' =>
      picked ← prefilter_entry include_video include_audio fmt;
      rest ← prefilter include_video include_audio formats';
      ret (if picked.1 then fmt :: rest.1 else rest.1,
            if picked.2 then fmt :: rest.2 else rest.2)
  end.

(** [codec_match] of the video worker. *)
Definition video_codec_match (codec_lower vcodec_lower : string) : bool :=
  Py.contains codec_lower vcodec_lower
  || (bool_decide (codec_lower ∈ ["h264"; "avc"]%string) && Py.contains "avc1" vcodec_lower)
  || (String.eqb codec_lower "vp9"
      && (Py.contains "vp9" vcodec_lower || Py.contains "vp09" vcodec_lower))
  || (bool_decide (codec_lower ∈ ["av1"; "av01"]%string)
      && (Py.contains "av01" vcodec_lower || Py.contains "av1" vcodec_lower)).

(** [codec_match] of the audio worker. *)
Definition audio_codec_match (codec_lower acodec_lower : string) : bool :=
  Py.contains codec_lower acodec_lower
  || (String.eqb codec_lower "aac" && Py.contains "mp4a" acodec_lower)
  || (String.eqb codec_lower "mp4a" && Py.contains "mp4a" acodec_lower)
  || (String.eqb codec_lower "opus" && Py.contains "opus" acodec_lower).

(** One iteration of the loop of [process_video_streams]. *)
Definition process_video_streams_entry (video_codec : option string) (fmt : RawFormat)
  : M (option StreamInfo) :=
  let height := get_or (height fmt) 0 in
  let width := get_or (width fmt) 0 in
  let vcodec := get_or (vcodec fmt) EmptyString in
  codec_match ←
    (if truthy_str video_codec then
       codec_lower ← lower_ video_codec;
       vcodec_lower ← lower_ vcodec;
       ret (video_codec_match codec_lower vcodec_lower)
     else ret true);
  if negb codec_match then ret None
  else
    url ← subscript_url fmt;
    ret (Some {| s_url := url;
                  s_ext := get_or (ext fmt) "unknown"%string;
                  s_resolution := resolution_of fmt height width;
                  s_height := height;
                  s_width := width;
                  s_bitrate := get (tbr fmt);
                  s_codec := vcodec;
                  s_filesize := get (filesize fmt);
                  s_format_note := get (format_note fmt);
                  s_format_id := get (format_id fmt) |}).

(** The video worker from [if not video_streams] on. *)
Definition process_video_streams_select (self : extractor) (video_codec : option string)
    (video_formats : list RawFormat) (target_height : Z)
    (video_streams : list StreamInfo) : M (list StreamInfo) :=
  match video_streams with
  | [] =>
      let available_codecs : gset (option string) :=
        list_to_set (map (fun fmt => get_or (vcodec fmt) EmptyString) video_formats) in
      raise (Exn ValueError [Lit "No video streams available with codec '";
                             opt Str video_codec; Lit "'. Available: ";
                             Codecs available_codecs])
  | _ =>
      let exact_matches := List.filter (height_is target_height) video_streams in
      best_video ←
        match exact_matches with
        | _ :: _ =>
            best_video ← py_max Qltb bitrate_or_0 exact_matches;
            _log_debug self [Lit "Video worker: Exact match found: ";
                             opt Str (s_resolution best_video)];;
            ret best_video
        | [] =>
            best_video ← py_min Z.ltb (height_distance target_height) video_streams;
            _log_debug self [Lit "Video worker: Closest match: ";
                             opt Str (s_resolution best_video)];;
            ret best_video
        end;
      ret [best_video]
  end.

Definition process_video_streams (self : extractor) (video_formats : list RawFormat)
    (video_quality : string) (video_codec : option string) : M (list StreamInfo) :=
  try_except
    (_log_debug self [Lit "Video worker: Processing video streams"];;
     match video_formats with
     | [] => raise (Exn ValueError [Lit "No video formats available"])
     | _ =>
         target_height ← _parse_quality video_quality;
         video_streams ← collect (process_video_streams_entry video_codec) video_formats;
         process_video_streams_select self video_codec video_formats target_height
           video_streams
     end)
    (fun e =>
       _log_error (Lit "Video worker error: " :: str_of e);;
       raise e).

(** One iteration of the loop of [process_audio_streams]. *)
Definition process_audio_streams_entry (audio_codec : option string) (fmt : RawFormat)
  : M (option StreamInfo) :=
  let current_bitrate := get_or (tbr fmt) 0%Q in
  let acodec := get_or (acodec fmt) EmptyString in
  codec_match ←
    (if truthy_str audio_codec then
       codec_lower ← lower_ audio_codec;
       acodec_lower ← lower_ acodec;
       ret (audio_codec_match codec_lower acodec_lower)
     else ret true);
  if negb codec_match then ret None
  else
    url ← subscript_url fmt;
    ret (Some {| s_url := url;
                  s_ext := get_or (ext fmt) "unknown"%string;
                  s_resolution := None;
                  s_height := None;
                  s_width := None;
                  s_bitrate := current_bitrate;
                  s_codec := acodec;
                  s_filesize := get (filesize fmt);
                  s_format_note := get (format_note fmt);
                  s_format_id := get (format_id fmt) |}).

(** The audio worker from [if not audio_streams] on. *)
Definition process_audio_streams_select (self : extractor) (audio_codec : option string)
    (audio_formats : list RawFormat) (audio_bitrate : Z)
    (audio_streams : list StreamInfo) : M (list StreamInfo) :=
  match audio_streams with
  | [] =>
      let available_codecs : gset (option string) :=
        list_to_set (map (fun fmt => get_or (acodec fmt) EmptyString) audio_formats) in
      raise (Exn ValueError [Lit "No audio streams available with codec '";
                             opt Str audio_codec; Lit "'. Available: ";
                             Codecs available_codecs])
  | _ =>
      best_audio ← py_min Qltb (bitrate_distance audio_bitrate) audio_streams;
      _log_debug self [Lit "Audio worker: Best match: "; opt Float (s_bitrate best_audio);
                       Lit "kbps ("; opt Str (s_codec best_audio); Lit ")"];;
      ret [best_audio]
  end.

Definition process_audio_streams (self : extractor) (audio_formats : list RawFormat)
    (audio_bitrate : Z) (audio_codec : option string) : M (list StreamInfo) :=
  try_except
    (_log_debug self [Lit "Audio worker: Processing audio streams"];;
     match audio_formats with
     | [] => raise (Exn ValueError [Lit "No audio formats available"])
     | _ =>
         audio_streams ← collect (process_audio_streams_entry audio_codec) audio_formats;
         process_audio_streams_select self audio_codec audio_formats audio_bitrate
           audio_streams
     end)
    (fun e =>
       _log_error (Lit "Audio worker error: " :: str_of e);;
       raise e).

(** The test that makes a failed branch fatal. *)
Definition other_not_requested (t : stream_type) (include_video include_audio : bool) : bool :=
  (bool_decide (t = Video) && negb include_audio)
  || (bool_decide (t = Audio) && negb include_video).

(** One iteration of the result loop: [future.result(timeout=20)] and
    its two handlers.  [timed_out] tells whether the wait ran out; the
    events of a worker are placed where its result is taken, and a
    worker that is not waited for to its end leaves none. *)
Definition await_worker (self : extractor) (include_video include_audio : bool)
    (t : stream_type) (timed_out : bool) (worker : M (list StreamInfo))
  : M (list StreamInfo) :=
  _log_debug self [Lit "Waiting for "; Str (key_of t); Lit " worker..."];;
  if timed_out then
    _log_error [Str (capitalize t); Lit " worker timed out"];;
    if other_not_requested t include_video include_audio then
      raise (Exn ValueError [Str (capitalize t); Lit " stream processing timed out"])
    else
      _log_warning [Str (capitalize t); Lit " worker timed out, continuing..."];;
      ret []
  else
    try_except
      (streams ← worker;
       _log_debug self [Str (capitalize t); Lit " worker completed successfully"];;
       ret streams)
      (fun e =>
         _log_error (Str (capitalize t) :: Lit " worker failed: " :: str_of e);;
         if other_not_requested t include_video include_audio then raise e
         else
           _log_warning (Str (capitalize t) :: Lit " streams not available: " :: str_of e);;
           ret []).

(** [not result.get(key)] *)
Definition branch_empty (r : option (list StreamInfo)) : bool :=
  match r with
  | Some (_ :: _) => false
  | _ => true
  end.

(** [len(result.get(key, []))] *)
Definition branch_count (r : option (list StreamInfo)) : Z :=
  Z.of_nat (length (default [] r)).

(** [get_unified_streams] from the thread pool on: the two workers are
    submitted, their results are taken in the order video, audio, and the
    merged result is validated. *)
Definition get_unified_streams_results (self : extractor)
    (include_video include_audio : bool) (timed_out : stream_type -> bool)
    (duration : option Z) (video_worker audio_worker : M (list StreamInfo))
  : M unified_result :=
  (if include_video then _log_debug self [Lit "Submitted optimized video worker"]
   else ret tt);;
  (if include_audio then _log_debug self [Lit "Submitted optimized audio worker"]
   else ret tt);;
  video ←
    (if include_video then
       streams ← await_worker self include_video include_audio Video (timed_out Video)
                   video_worker;
       ret (Some streams)
     else ret None);
  audio ←
    (if include_audio then
       streams ← await_worker self include_video include_audio Audio (timed_out Audio)
                   audio_worker;
       ret (Some streams)
     else ret None);
  (if include_video && include_audio && branch_empty video && branch_empty audio
   then raise (Exn ValueError [Lit "Failed to get both video and audio streams"])
   else ret tt);;
  _log_debug self [Lit "Unified streams completed. Video: "; Int (branch_count video);
                   Lit ", Audio: "; Int (branch_count audio)];;
  ret {| r_duration := duration; r_video := video; r_audio := audio |}.

Definition get_unified_streams (self : extractor) (provider : nat -> provider_result)
    (timed_out : stream_type -> bool) (video_id : string) (audio_bitrate : Z)
    (video_quality : string) (audio_codec video_codec : option string)
    (include_video include_audio : bool) : M unified_result :=
  if negb include_video && negb include_audio then
    raise (Exn ValueError [Lit "At least one of include_video or include_audio must be True"])
  else
    try_except
      (let codec_info :=
         (if truthy_str audio_codec then [Lit ", audio_codec: "; opt Str audio_codec] else [])
         ++ (if truthy_str video_codec then [Lit ", video_codec: "; opt Str video_codec]
             else []) in
       _log_debug self ([Lit "Getting unified streams for: "; Str video_id;
                         Lit ", video_quality: "; Str video_quality;
                         Lit ", audio_bitrate: "; Int audio_bitrate; Lit "kbps"]
                        ++ codec_info);;
       info ← _get_ytdlp_info self provider video_id;
       let duration := get_or (duration info) 0 in
       match get_or (formats info) [] with
       | None | Some [] => raise (Exn ValueError [Lit "No formats available for this video"])
       | Some formats =>
           candidates ← prefilter include_video include_audio formats;
           let video_formats := candidates.1 in
           let audio_formats := candidates.2 in
           get_unified_streams_results self include_video include_audio timed_out duration
             (process_video_streams self video_formats video_quality video_codec)
             (process_audio_streams self audio_formats audio_bitrate audio_codec)
       end)
      (fun e =>
         match class_of e with
         | DownloadError =>
             _log_error (Lit "Failed to get unified streams: " :: str_of e);;
             raise e
         | _ =>
             _log_error (Lit "Unexpected error getting unified streams: " :: str_of e);;
             raise (Exn ValueError (Lit "Error getting unified streams: " :: str_of e))
         end).

(** ** Performance monitor *)

Module PerformanceMonitor.

(** A line printed behind the prefix [YTDLP_FLUTTER_PERF: ]: the start
    of an operation, or its completion with the measured duration. *)
Inductive line : Type :=
| Starting (operation_name : string)
| Completed (operation_name : string) (duration : Q).

Record t : Type := {
  start_time : option Q;
  operation_name : string
}.

(** [PerformanceMonitor()] *)
Definition __init__ : t := {| start_time := None; operation_name := EmptyString |}.

(** [start]; [now] is the value of [time.time()]. *)
Definition start (self : t) (operation_name : string) (now : Q) : t * list line :=
  ({| start_time := Some now; operation_name := operation_name |}, [Starting operation_name]).

(** [end]; [now] is the value of [time.time()] when the start time is
    truthy, the only case in which the clock is read. *)
Definition end_ (self : t) (now : Q) : t * list line :=
  if truthy_float (start_time self) then
    let duration := Py.float_sub now (default 0%Q (start_time self)) in
    ({| start_time := None; operation_name := operation_name self |},
     [Completed (operation_name self) duration])
  else (self, []).

End PerformanceMonitor.

(** * Notions of the specification *)

(** [x] is the first best element of [l]: it beats everything before it
    ([before x y]) and nothing after it beats it ([after x y]). *)
Definition first_best {A} (before after : A -> A -> Prop) (l : list A) (x : A) : Prop :=
  ∃ pre post, l = pre ++ x :: post ∧ Forall (before x) pre ∧ Forall (after x) post.

(** Missing bitrate and missing height are treated as 0. *)
Definition bitrate_key (s : StreamInfo) : Q := default 0%Q (s_bitrate s).

Definition height_key (s : StreamInfo) : Z := default 0 (s_height s).

(** [best] is the candidate of [l] with height [target] and maximal
    bitrate, the first such in encounter order. *)
Definition best_exact_match (target : Z) (l : list StreamInfo) (best : StreamInfo) : Prop :=
  ∃ pre post,
    l = pre ++ best :: post ∧ s_height best = Some target ∧
    (∀ y, y ∈ pre -> s_height y = Some target -> (bitrate_key y < bitrate_key best)%Q) ∧
    (∀ y, y ∈ post -> s_height y = Some target -> (bitrate_key y <= bitrate_key best)%Q).

(** [best] is the candidate of [l] minimising [|height - target|], the
    first such in encounter order. *)
Definition closest_height (target : Z) (l : list StreamInfo) (best : StreamInfo) : Prop :=
  first_best
    (fun m y => Z.abs (height_key m - target) < Z.abs (height_key y - target))
    (fun m y => Z.abs (height_key m - target) <= Z.abs (height_key y - target))
    l best.



(** [best] minimises the exact [|bitrate - target|] among the
    candidates of [l]. *)
Definition exactly_closest_bitrate (target : Z) (l : list StreamInfo) (best : StreamInfo)
  : Prop :=
  best ∈ l
  ∧ ∀ y, y ∈ l ->
         (Qabs (bitrate_key best - inject_Z target) <= Qabs (bitrate_key y - inject_Z target))%Q.

(** A candidate of which only the height and the bitrate are known. *)
Definition candidate (height : option Z) (bitrate : option Q) : StreamInfo :=
  {| s_url := Some "https://example.com/videoplayback"%string; s_ext := Some "mp4"%string;
     s_resolution := None; s_height := height; s_width := None; s_bitrate := bitrate;
     s_codec := Some "avc1"%string; s_filesize := None; s_format_note := None;
     s_format_id := None |}.


(** A descriptor with the given keys and no other. *)
Definition descriptor (vcodec acodec url : field string) (height : field Z) (tbr : field Q)
  : RawFormat :=
  {| vcodec := vcodec; acodec := acodec; url := url; ext := Missing; height := height;
     width := Missing; tbr := tbr; filesize := Missing; format_note := Missing;
     format_id := Missing; resolution := Missing |}.

(** A provider that answers every call with the given formats. *)
Definition serving (formats : list RawFormat) : nat -> provider_result :=
  fun _ => Returns (Some {| duration := Has 60; formats := Has formats |}).

(** The codec-matching rule: a table of aliases pairs the filter tokens
    of a row with the substrings that identify the codec. *)
Definition video_aliases : list (list string * list string) :=
  [(["h264"; "avc"], ["avc1"]); (["vp9"], ["vp9"; "vp09"]);
   (["av1"; "av01"], ["av01"; "av1"])]%string.

Definition audio_aliases : list (list string * list string) :=
  [(["aac"; "mp4a"], ["mp4a"]); (["opus"], ["opus"])]%string.

(** A codec passes a filter token when, case-insensitively, the token is
    a substring of the codec or a row of the table relates them. *)
Definition codec_rule (table : list (list string * list string)) (token codec : string)
  : Prop :=
  Py.contains (Py.lower token) (Py.lower codec) = true
  ∨ ∃ names needles,
      (names, needles) ∈ table ∧ Py.lower token ∈ names
      ∧ ∃ needle, needle ∈ needles ∧ Py.contains needle (Py.lower codec) = true.

(** An audio stream of which only the codec, the bitrate and the URL are
    known. *)
Definition audio_stream (codec : string) (bitrate : Q) (url : string) : StreamInfo :=
  {| s_url := Some url; s_ext := Some "unknown"%string; s_resolution := None;
     s_height := None; s_width := None; s_bitrate := Some bitrate; s_codec := Some codec;
     s_filesize := None; s_format_note := None; s_format_id := None |}.

(** Whether the branch other than [t] was requested. *)
Definition other_requested (t : stream_type) (include_video include_audio : bool) : bool :=
  match t with
  | Video => include_audio
  | Audio => include_video
  end.

(** A branch fails when its wait runs out or its worker raises. *)
Definition branch_fails (timed_out : bool) (worker : M (list StreamInfo)) (c : cache) : Prop :=
  timed_out = true ∨ ∃ e, value_of (worker c) = Raise e.

(** What a branch contributes when the other branch was requested too:
    the streams of its worker, or the empty list when it fails; and the
    memo table it leaves. *)
Definition recorded (timed_out : bool) (worker : M (list StreamInfo)) (c : cache)
  : list StreamInfo * cache :=
  if timed_out then ([], c)
  else
    match worker c with
    | (Return streams, c', _) => (streams, c')
    | (Raise _, c', _) => ([], c')
    end.

(** Two descriptors, video-only and audio-only, both directly playable. *)
Definition two_formats : list RawFormat :=
  [descriptor (Has "avc1.640028") (Has "none") (Has "https://example.com/videoplayback?v")
     (Has 1080) (Has 4000%Q);
   descriptor (Has "none") (Has "opus") (Has "https://example.com/videoplayback?a")
     Missing (Has 128%Q)]%string.

(** The number of provider calls and the sleeps of a run, in order. *)
Definition provider_calls (t : list event) : nat :=
  length (List.filter (fun e => match e with ExtractInfo _ _ => true | _ => false end) t).

Definition sleeps (t : list event) : list Q :=
  omap (fun e => match e with Sleep d => Some d | _ => None end) t.

(** No sleep is the last thing the loop does with the provider: after
    every sleep of the run there is another provider call. *)
Definition sleep_then_attempt (t : list event) : Prop :=
  ∀ t1 d t2, t = t1 ++ Sleep d :: t2 -> (1 <= provider_calls t2)%nat.

(** The recursive reading of [sleep_then_attempt]. *)
Fixpoint sleep_then_attempt_rec (t : list event) : Prop :=
  match t with
  | [] => True
  | Sleep _ :: t' => (1 <= provider_calls t')%nat ∧ sleep_then_attempt_rec t'
  | _ :: t' => sleep_then_attempt_rec t'
  end.




Definition null_bitrate_audio : RawFormat :=
  descriptor (Has "none"%string) (Has "opus"%string)
    (Has "https://example.com/videoplayback?a"%string) Missing Null.

(** A computation started with the memo table [c] returns [a]. *)
Definition returns {A} (m : M A) (c : cache) (a : A) : Prop :=
  ∃ c' t, m c = (Return a, c', t).


(** The memo table is well formed: its keys are distinct, it holds at
    most [maxsize] entries, and every entry holds the height that the
    body of [_parse_quality] computes for its key. *)
Definition cache_wf (maxsize : nat) (c : cache) : Prop :=
  NoDup c.*1 ∧ (length c <= maxsize)%nat
  ∧ ∀ k v, cache_lookup k c = Some v -> value_of (_parse_quality_body k []) = Return v.

(** A computation started with the memo table [c] raises [e]. *)
Definition raises {A} (m : M A) (c : cache) (e : exn) : Prop :=
  ∃ c' t, m c = (Raise e, c', t).

(** What the outer handler of a public stream operation makes of an
    exception: a download error is raised again as it is, anything else
    becomes a [ValueError] whose message is the operation's prefix
    followed by the message of the original. *)
Definition rethrown (prefix : string) (e : exn) : exn :=
  match class_of e with
  | DownloadError => e
  | _ => Exn ValueError (Lit prefix :: str_of e)
  end.

(** The weight of a trace under a weighting of the events, and a bound
    on the weight of every run of a computation. *)
Definition weight (w : event -> nat) (t : list event) : nat := sum_list (w <$> t).

Definition bounded {A} (w : event -> nat) (n : nat) (m : M A) : Prop :=
  ∀ c, (weight w (trace_of (m c)) <= n)%nat.

(** The weightings that count the provider calls and the debug prints. *)
Definition is_provider_call (e : event) : nat :=
  match e with ExtractInfo _ _ => 1 | _ => 0 end.

Definition is_debug_print (e : event) : nat :=
  match e with Print DEBUG _ => 1 | _ => 0 end.

(** The codec of a stream names a codec: it is set, not empty and not
    the provider's marker ["none"]. *)
Definition real_codec (s : StreamInfo) : Prop :=
  ∃ codec, s_codec s = Some codec ∧ codec ≠ EmptyString ∧ codec ≠ "none"%string.

Definition positive_bitrate (s : StreamInfo) : Prop :=
  ∃ q, s_bitrate s = Some q ∧ (0 < q)%Q.

(** The number of streams in a branch of a unified result. *)
Definition branch_length (r : option (list StreamInfo)) : nat := length (default [] r).

(** The memo table that a run leaves, and a property of the table that
    a computation maintains. *)
Definition cache_of {A} (r : outcome A * cache * list event) : cache := r.1.2.

Definition preserves {A} (P : cache -> Prop) (m : M A) : Prop :=
  ∀ c, P c -> P (cache_of (m c)).

(** Error lines, and computations that print none when they return. *)
Definition is_error_print (e : event) : nat :=
  match e with Print ERROR _ => 1 | _ => 0 end.

Definition quiet_return {A} (m : M A) : Prop :=
  ∀ c a c' t, m c = (Return a, c', t) -> weight is_error_print t = 0%nat.

(** A use of a performance monitor: a sequence of calls of [start] and
    [end], each with the value of the clock at the call; the lines it
    prints; and the check that every completion line comes directly
    after the start line of the same operation, with the duration
    between the two calls. *)
Inductive monitor_call : Type :=
| CallStart (operation_name : string) (now : Q)
| CallEnd (now : Q).

Fixpoint monitor_run (self : PerformanceMonitor.t) (calls : list monitor_call)
  : PerformanceMonitor.t * list PerformanceMonitor.line :=
  match calls with
  | [] => (self, [])
  | call :: calls' =>
      let '(self', out) :=
        match call with
        | CallStart operation_name now => PerformanceMonitor.start self operation_name now
        | CallEnd now => PerformanceMonitor.end_ self now
        end in
      let '(self'', out') := monitor_run self' calls' in
      (self'', out ++ out')
  end.

Fixpoint completions_follow_starts (previous : option PerformanceMonitor.line)
    (out : list PerformanceMonitor.line) : bool :=
  match out with
  | [] => true
  | PerformanceMonitor.Starting name :: out' =>
      completions_follow_starts (Some (PerformanceMonitor.Starting name)) out'
  | PerformanceMonitor.Completed name duration :: out' =>
      match previous with
      | Some (PerformanceMonitor.Starting name') => String.eqb name name'
      | _ => false
      end
      && completions_follow_starts (Some (PerformanceMonitor.Completed name duration)) out'
  end.

(** The descriptors that the pre-filter of the unified call keeps as
    video candidates. *)
Definition video_candidate (fmt : RawFormat) : bool :=
  truthy_str (get_or (url fmt) EmptyString)
  && (truthy_str (get (vcodec fmt))
      && negb (bool_decide (get (vcodec fmt) = Some "none"%string))
      && negb (Py.contains "manifest" (default EmptyString (get_or (url fmt) EmptyString)))
      && Py.contains "videoplayback" (default EmptyString (get_or (url fmt) EmptyString))).

(** A computation started with the memo table [c] returns [a] and
    leaves the table [c']. *)
Definition runs {A} (m : M A) (c : cache) (a : A) (c' : cache) : Prop :=
  ∃ t, m c = (Return a, c', t).

(** The descriptors that the pre-filter of the unified call keeps as
    audio candidates, when their average bitrate is not null. *)
Definition audio_candidate (fmt : RawFormat) : bool :=
  truthy_str (get_or (url fmt) EmptyString)
  && (truthy_str (get (acodec fmt))
      && negb (bool_decide (get (acodec fmt) = Some "none"%string))
      && Qltb 0 (default 0%Q (get_or (tbr fmt) 0%Q))).

(** Two computations that differ in what they print and in the text of
    the exception they raise, at most: started with the same memo table
    they return the same value, or raise exceptions of the same class,
    and leave the same table. *)
Definition similar {A} (m1 m2 : M A) : Prop :=
  ∀ c,
    match m1 c, m2 c with
    | (Return a, c1, _), (Return b, c2, _) => a = b ∧ c1 = c2
    | (Raise e1, c1, _), (Raise e2, c2, _) => class_of e1 = class_of e2 ∧ c1 = c2
    | _, _ => False
    end.

(** * Properties *)

(** ** The built-ins and the quality table on samples *)

Example int_samples :
  Py.int "-5" = Some (-5) /\ Py.int "+5" = Some 5 /\ Py.int " 5 " = Some 5 /\
  Py.int "1_0" = Some 10 /\ Py.int "_1" = None /\ Py.int "1_" = None /\
  Py.int "1__0" = None /\ Py.int "- 5" = None /\ Py.int EmptyString = None /\
  Py.int "007" = Some 7 /\ Py.int "+" = None /\ Py.int "720" = Some 720.
Proof. repeat split; reflexivity. Qed.

Example str_samples :
  Py.strip (Py.lower "  720P ") = "720p" /\ Py.endswith "720p" "p" = true /\
  Py.drop_last "720p" = "720" /\ Py.contains "avc1" "avc1.640028" = true /\
  Py.contains "vp9" "avc1" = false /\ Py.isdigit EmptyString = false /\
  Py.str_int 1080 = "1080" /\ Py.str_int (-5) = "-5" /\ Py.str_int 0 = "0".
Proof. repeat split; reflexivity. Qed.

Example parse_quality_samples :
  value_of (_parse_quality "1080p" []) = Return 1080 /\
  value_of (_parse_quality " 4K " []) = Return 2160 /\
  value_of (_parse_quality "Full HD" []) = Return 1080 /\
  value_of (_parse_quality "480" []) = Return 480 /\
  value_of (_parse_quality "best" []) = Return 0 /\
  _parse_quality "xp" [] =
    (Return 0, [("xp", 0)],
     [Print WARNING [Lit "Unable to parse quality: "; Str "xp"; Lit " - ";
                     Lit "invalid literal for int() with base 10: "; Repr "x"]]) /\
  _parse_quality "xp" [("xp", 0)] = (Return 0, [("xp", 0)], []).
Proof. repeat split; vm_compute; reflexivity. Qed.

(** ** The element chosen by [min] and [max] *)

Section MinMaxFacts.
Context {A K : Type} (ltb : K -> K -> bool) (key : A -> K).
Hypothesis ltb_asym : ∀ a b, ltb a b = true -> ltb b a = false.
Hypothesis ltb_negtrans : ∀ a b c, ltb a b = false -> ltb b c = false -> ltb a c = false.

Lemma ltb_le_trans a b c : ltb a b = true -> ltb c b = false -> ltb a c = true.
Proof.
  intros Hab Hcb. destruct (ltb a c) eqn:Hac; [done|].
  by rewrite (ltb_negtrans _ _ _ Hac Hcb) in Hab.
Qed.

Lemma ltb_trans a b c : ltb a b = true -> ltb b c = true -> ltb a c = true.
Proof. intros Hab Hbc. eapply ltb_le_trans; [exact Hab|]. by apply ltb_asym. Qed.

Lemma min_from_first best l :
  first_best (fun m y => ltb (key m) (key y) = true) (fun m y => ltb (key y) (key m) = false)
    (best :: l) (min_from ltb key best l).
Proof.
  revert best. induction l as [|x l IH]; intros best; simpl.
  - exists [], []. by repeat split.
  - destruct (ltb (key x) (key best)) eqn:Hx.
    + destruct (IH x) as (pre & post & Heq & Hpre & Hpost).
      exists (best :: pre), post. split; [by rewrite Heq|]. split; [|done].
      constructor; [|done].
      destruct pre as [|p pre]; simpl in Heq; injection Heq as Hhd Htl.
      * by rewrite <- Hhd.
      * inversion_clear Hpre. subst p. by eapply ltb_trans.
    + destruct (IH best) as (pre & post & Heq & Hpre & Hpost).
      destruct pre as [|p pre]; simpl in Heq; injection Heq as Hhd Htl.
      * rewrite <- Hhd in Hpost |- *. exists [], (x :: l).
        split; [done|]. split; [constructor|]. constructor; [done|]. by rewrite Htl.
      * exists (best :: x :: pre), post. subst p. split; [simpl; by do 2 f_equal|].
        inversion_clear Hpre. split; [|done]. repeat constructor; [done| |done].
        by eapply ltb_le_trans.
Qed.
End MinMaxFacts.

Lemma max_from_flip {A K} (ltb : K -> K -> bool) (key : A -> K) best l :
  max_from ltb key best l = min_from (fun a b => ltb b a) key best l.
Proof. revert best. induction l as [|x l IH]; intros best; simpl; [done|]. by rewrite !IH. Qed.

Lemma max_from_first {A K} (ltb : K -> K -> bool) (key : A -> K)
    (Hasym : ∀ a b, ltb a b = true -> ltb b a = false)
    (Hneg : ∀ a b c, ltb a b = false -> ltb b c = false -> ltb a c = false) best l :
  first_best (fun m y => ltb (key y) (key m) = true) (fun m y => ltb (key m) (key y) = false)
    (best :: l) (max_from ltb key best l).
Proof.
  rewrite max_from_flip.
  apply (min_from_first (fun a b => ltb b a) key); eauto.
Qed.

Lemma Qltb_lt a b : Qltb a b = true <-> (a < b)%Q.
Proof.
  unfold Qltb. rewrite negb_true_iff, <- not_true_iff_false, Qle_bool_iff.
  split; [apply Qnot_le_lt | apply Qlt_not_le].
Qed.

Lemma Qltb_ge a b : Qltb a b = false <-> (b <= a)%Q.
Proof. unfold Qltb. by rewrite negb_false_iff, Qle_bool_iff. Qed.

Lemma Qltb_asym a b : Qltb a b = true -> Qltb b a = false.
Proof. rewrite Qltb_lt, Qltb_ge. apply Qlt_le_weak. Qed.

Lemma Qltb_negtrans a b c : Qltb a b = false -> Qltb b c = false -> Qltb a c = false.
Proof. rewrite !Qltb_ge. intros ??. by eapply Qle_trans. Qed.

Lemma Zltb_asym a b : (a <? b) = true -> (b <? a) = false.
Proof. lia. Qed.

Lemma Zltb_negtrans a b c : (a <? b) = false -> (b <? c) = false -> (a <? c) = false.
Proof. lia. Qed.

(** ** Video selection *)

Ltac run :=
  unfold value_of, trace_of, bind, ret, raise, emit, try_except, _log_debug, _log_warning,
    _log_error, py_min, py_max; simpl.

Lemma bitrate_or_0_key s : (bitrate_or_0 s == bitrate_key s)%Q.
Proof.
  unfold bitrate_or_0, bitrate_key, truthy_float.
  destruct (s_bitrate s) as [q|]; simpl; [|reflexivity].
  destruct (Qeq_bool q 0) eqn:Hq; simpl; [|reflexivity].
  symmetry. by apply Qeq_bool_iff.
Qed.

Lemma height_or_0_key s : height_or_0 s = height_key s.
Proof.
  unfold height_or_0, height_key, truthy_int.
  destruct (s_height s) as [h|]; simpl; [|done].
  destruct (Z.eqb_spec h 0); simpl; congruence.
Qed.

Lemma height_is_true target s : height_is target s = true <-> s_height s = Some target.
Proof.
  unfold height_is. destruct (s_height s) as [h|]; [|done].
  rewrite Z.eqb_eq. split; congruence.
Qed.

Lemma filter_split {A} (P : A -> bool) l pre' x post' :
  List.filter P l = pre' ++ x :: post' ->
  ∃ pre post, l = pre ++ x :: post ∧ List.filter P pre = pre' ∧ List.filter P post = post'.
Proof.
  revert pre'. induction l as [|a l IH]; intros pre' Heq; simpl in Heq.
  - by destruct pre'.
  - destruct (P a) eqn:Ha.
    + destruct pre' as [|p pre']; simpl in Heq; injection Heq as -> Htl.
      * exists [], l. by repeat split.
      * destruct (IH _ Htl) as (pre & post & -> & <- & <-).
        exists (p :: pre), post. simpl. by rewrite Ha.
    + destruct (IH _ Heq) as (pre & post & -> & <- & <-).
      exists (a :: pre), post. simpl. by rewrite Ha.
Qed.

Lemma max_bitrate_exact target l e exact :
  List.filter (height_is target) l = e :: exact ->
  best_exact_match target l (max_from Qltb bitrate_or_0 e exact).
Proof.
  intros Hf.
  destruct (max_from_first Qltb bitrate_or_0 Qltb_asym Qltb_negtrans e exact)
    as (pre' & post' & Heq & Hpre & Hpost).
  rewrite <- Hf in Heq.
  destruct (filter_split _ _ _ _ _ Heq) as (pre & post & -> & <- & <-).
  exists pre, post. split; [done|]. split.
  - apply height_is_true.
    assert (Hin : In (max_from Qltb bitrate_or_0 e exact) (List.filter (height_is target)
              (pre ++ max_from Qltb bitrate_or_0 e exact :: post))).
    { rewrite Heq. apply in_or_app. right. by left. }
    by apply filter_In in Hin as [_ ?].
  - rewrite Forall_forall in Hpre, Hpost. split; intros y Hy Hh.
    + assert (Hy' : y ∈ List.filter (height_is target) pre).
      { apply list_elem_of_In, filter_In. split; [by apply list_elem_of_In|].
        by apply height_is_true. }
      apply Hpre, Qltb_lt in Hy'. by rewrite !bitrate_or_0_key in Hy'.
    + assert (Hy' : y ∈ List.filter (height_is target) post).
      { apply list_elem_of_In, filter_In. split; [by apply list_elem_of_In|].
        by apply height_is_true. }
      apply Hpost, Qltb_ge in Hy'. by rewrite !bitrate_or_0_key in Hy'.
Qed.

Lemma min_height_closest target s l :
  closest_height target (s :: l) (min_from Z.ltb (height_distance target) s l).
Proof.
  destruct (min_from_first Z.ltb (height_distance target) Zltb_asym Zltb_negtrans s l)
    as (pre & post & Heq & Hpre & Hpost).
  exists pre, post. split; [done|].
  unfold height_distance in Hpre, Hpost.
  split; (eapply Forall_impl; [eassumption|]); intros y; cbv beta;
    rewrite !height_or_0_key; [rewrite Z.ltb_lt | rewrite Z.ltb_ge]; done.
Qed.

Lemma no_exact_match target (l : list StreamInfo) :
  List.filter (height_is target) l = [] -> ∀ s, s ∈ l -> s_height s ≠ Some target.
Proof.
  intros Hf s Hs Hh.
  assert (Hin : In s (List.filter (height_is target) l)).
  { apply filter_In. split; [by apply list_elem_of_In|]. by apply height_is_true. }
  by rewrite Hf in Hin.
Qed.

Lemma some_exact_match target (l : list StreamInfo) e exact :
  List.filter (height_is target) l = e :: exact -> ∃ s, s ∈ l ∧ s_height s = Some target.
Proof.
  intros Hf. exists e.
  assert (Hin : In e (List.filter (height_is target) l)) by (rewrite Hf; by left).
  apply filter_In in Hin as [Hin Hh]. split; [by apply list_elem_of_In|].
  by apply height_is_true.
Qed.

(** C1.  On a non-empty candidate list both video selections (the end of
    [get_video_streams] and of the unified video worker) return exactly
    one entry, the same one: when some candidate has the target height,
    the exact-height candidate of maximal bitrate (missing bitrate as 0),
    first in encounter order on ties; otherwise the candidate minimising
    [|height - target|] (missing height as 0), first in encounter order on
    ties.  For the heights and bitrates (720, 2000), (1080, 4000),
    (1080, 3000) and the quality 1080p the entry (1080, 4000) is returned. *)
Theorem video_selection_policy :
  (∀ self quality video_codec video_formats target video_streams c,
     video_streams ≠ [] ->
     ∃ best,
       value_of (get_video_streams_select self quality target video_streams c)
         = Return [best] ∧
       value_of (process_video_streams_select self video_codec video_formats target
                   video_streams c) = Return [best] ∧
       ((∃ s, s ∈ video_streams ∧ s_height s = Some target) ->
        best_exact_match target video_streams best) ∧
       ((∀ s, s ∈ video_streams -> s_height s ≠ Some target) ->
        closest_height target video_streams best)) ∧
  (∀ self video_codec video_formats,
     let candidates := [candidate (Some 720) (Some 2000%Q);
                        candidate (Some 1080) (Some 4000%Q);
                        candidate (Some 1080) (Some 3000%Q)] in
     value_of ((target_height ← _parse_quality "1080p";
                get_video_streams_select self "1080p" target_height candidates) [])
       = Return [candidate (Some 1080) (Some 4000%Q)] ∧
     value_of ((target_height ← _parse_quality "1080p";
                process_video_streams_select self video_codec video_formats target_height
                  candidates) [])
       = Return [candidate (Some 1080) (Some 4000%Q)]).
Proof.
  split.
  - intros self quality video_codec video_formats target video_streams c Hne.
    destruct video_streams as [|s l]; [done|].
    unfold get_video_streams_select, process_video_streams_select.
    destruct (List.filter (height_is target) (s :: l)) as [|e exact] eqn:Hf.
    + exists (min_from Z.ltb (height_distance target) s l).
      split; [by run; destruct (debug self)|]. split; [by run; destruct (debug self)|].
      split.
      * intros (s' & Hin & Hh). by destruct (no_exact_match _ _ Hf s' Hin).
      * intros _. apply min_height_closest.
    + exists (max_from Qltb bitrate_or_0 e exact).
      split; [by run; destruct (debug self)|]. split; [by run; destruct (debug self)|].
      split.
      * intros _. by apply max_bitrate_exact.
      * intros Hno. destruct (some_exact_match _ _ _ _ Hf) as (s' & Hin & Hh).
        by destruct (Hno s' Hin).
  - intros [mr rd dbg] video_codec video_formats. split; destruct dbg; vm_compute; reflexivity.
Qed.

(** The policy at the three candidates of the scenario. *)
Lemma video_selection_policy_witness :
  ∃ best,
    value_of (get_video_streams_select (create_optimized_extractor false) "1080p" 1080
                [candidate (Some 720) (Some 2000%Q); candidate (Some 1080) (Some 4000%Q);
                 candidate (Some 1080) (Some 3000%Q)] []) = Return [best] ∧
    best_exact_match 1080
      [candidate (Some 720) (Some 2000%Q); candidate (Some 1080) (Some 4000%Q);
       candidate (Some 1080) (Some 3000%Q)] best.
Proof.
  destruct (proj1 video_selection_policy (create_optimized_extractor false) "1080p"%string
              None [] 1080
              [candidate (Some 720) (Some 2000%Q); candidate (Some 1080) (Some 4000%Q);
               candidate (Some 1080) (Some 3000%Q)] [])
    as (best & Hv & _ & Hexact & _); [discriminate|].
  exists best. split; [exact Hv|].
  apply Hexact. exists (candidate (Some 1080) (Some 4000%Q)).
  split; [|reflexivity]. apply list_elem_of_In. right. left. reflexivity.
Defined.

(** ** Audio selection *)









(** ** Quality normalisation *)

(** [_parse_quality] never raises: the body returns on every token. *)
Lemma _parse_quality_body_returns quality_str c :
  ∃ n t, _parse_quality_body quality_str c = (Return n, c, t).
Proof.
  unfold _parse_quality_body, try_except, int_.
  destruct (String.eqb quality_str EmptyString); [by eexists _, _|].
  destruct (Py.endswith _ "p").
  { destruct (Py.int _); by eexists _, _. }
  destruct (k_formats !! _); [by eexists _, _|].
  destruct (Py.isdigit _); [|by eexists _, _].
  destruct (Py.int _); by eexists _, _.
Qed.

Lemma _parse_quality_returns quality_str c :
  ∃ n c' t, _parse_quality quality_str c = (Return n, c', t).
Proof.
  unfold _parse_quality, lru_cache.
  destruct (cache_lookup quality_str c); [by eexists _, _, _|].
  destruct (_parse_quality_body_returns quality_str c) as (n & t & ->).
  by eexists _, _, _.
Qed.

Lemma digit_not_space c : Py.is_digit c = true -> Py.isspace_c c = false.
Proof. by destruct c as [[] [] [] [] [] [] [] []]. Qed.

Lemma digit_value_nonneg c : Py.is_digit c = true -> 0 <= Py.digit_value c.
Proof. by destruct c as [[] [] [] [] [] [] [] []]. Qed.

Lemma int_digits_nonneg s acc after_underscore m :
  0 <= acc -> Py.int_digits acc after_underscore s = Some m -> 0 <= m.
Proof.
  revert acc after_underscore. induction s as [|c s IH]; intros acc u Hacc; simpl.
  - destruct u; [done|]. by intros [= <-].
  - destruct (Py.is_digit c) eqn:Hc.
    + apply IH. pose proof (digit_value_nonneg c Hc). lia.
    + destruct (Ascii.eqb c "_"); [|done]. destruct u; [done|]. by apply IH.
Qed.

Lemma rstrip_digits s : Py.all_digits s = true -> Py.rstrip_by Py.isspace_c s = s.
Proof.
  induction s as [|c s IH]; [done|]. simpl.
  intros [Hc Hs]%andb_true_iff. rewrite (IH Hs).
  destruct s; [|done]. by rewrite (digit_not_space c Hc).
Qed.

(** [int] of a string of digits is not negative. *)
Lemma int_digits_only_nonneg s m : Py.isdigit s = true -> Py.int s = Some m -> 0 <= m.
Proof.
  destruct s as [|c r]; [done|]. unfold Py.isdigit. intros Hall.
  pose proof Hall as Hall'. simpl in Hall'. apply andb_true_iff in Hall' as [Hc Hr].
  unfold Py.int. cbn [Py.lstrip_by]. rewrite (digit_not_space c Hc), (rstrip_digits _ Hall).
  assert (Hsign : match String c r with
                  | String "+" r0 => (1, r0)
                  | String "-" r0 => (-1, r0)
                  | _ => (1, String c r)
                  end = (1, String c r)).
  { by destruct c as [[] [] [] [] [] [] [] []]. }
  rewrite Hsign, Hc. destruct (_ <? _)%nat; [done|].
  destruct (Py.int_digits (Py.digit_value c) false r) as [d|] eqn:Hd; [|done].
  intros [= <-]. apply int_digits_nonneg in Hd; [lia|by apply digit_value_nonneg].
Qed.

Lemma k_formats_nonneg : map_Forall (fun _ h => 0 <= h) k_formats.
Proof. unfold k_formats. repeat apply map_Forall_insert_2; try lia. apply map_Forall_empty. Qed.

Lemma aliases_nonneg : map_Forall (fun _ h => 0 <= h) aliases.
Proof. unfold aliases. repeat apply map_Forall_insert_2; try lia. apply map_Forall_empty. Qed.

(** The normalised height is negative only for a token that ends in p. *)
Lemma _parse_quality_body_nonneg quality_str c n c' t :
  _parse_quality_body quality_str c = (Return n, c', t) ->
  Py.endswith (Py.strip (Py.lower quality_str)) "p" = false -> 0 <= n.
Proof.
  unfold _parse_quality_body, try_except, int_. intros Hrun Hp. rewrite Hp in Hrun.
  destruct (String.eqb quality_str EmptyString); [by injection Hrun as <- _ _|].
  destruct (k_formats !! _) as [h|] eqn:Hk.
  { injection Hrun as <- _ _. by apply (k_formats_nonneg _ _ Hk). }
  destruct (Py.isdigit _) eqn:Hd.
  - destruct (Py.int _) as [m|] eqn:Hm; injection Hrun as <- _ _; [|done].
    by eapply int_digits_only_nonneg.
  - injection Hrun as <- _ _.
    destruct (aliases !! _) as [h|] eqn:Ha; [|done]. by apply (aliases_nonneg _ _ Ha).
Qed.

(** C3, at the token -5p.  The prefix is handed to [int], which accepts
    a sign: the normalised height is -5. *)
Theorem parse_quality_negative_prefix :
  _parse_quality "-5p" [] = (Return (-5), [("-5p"%string, -5)], [])
  ∧ ¬ (0 <= -5).
Proof. split; [vm_compute; reflexivity | lia]. Qed.

(** ** Codec matching *)

Lemma codec_rule_alias table token codec names needles needle :
  (names, needles) ∈ table -> Py.lower token ∈ names -> needle ∈ needles ->
  Py.contains needle (Py.lower codec) = true -> codec_rule table token codec.
Proof. intros. right. exists names, needles. eauto. Qed.

Ltac in_list := repeat first [apply list_elem_of_here | apply list_elem_of_further].

Ltac split_in H :=
  repeat (apply elem_of_cons in H as [H|H]); [..|by apply elem_of_nil in H].

Lemma video_codec_match_rule token codec :
  video_codec_match (Py.lower token) (Py.lower codec) = true
  <-> codec_rule video_aliases token codec.
Proof.
  unfold video_codec_match.
  rewrite !orb_true_iff, !andb_true_iff, !orb_true_iff, !bool_decide_eq_true, String.eqb_eq.
  split.
  - intros [[[?|[? ?]]|[Hname [?|?]]]|[? [?|?]]]; [by left|..].
    + by eapply (codec_rule_alias _ _ _ ["h264"; "avc"]%string _ "avc1"); [in_list| |in_list|].
    + eapply (codec_rule_alias _ _ _ ["vp9"]%string _ "vp9"); [in_list| |in_list|done].
      rewrite Hname. in_list.
    + eapply (codec_rule_alias _ _ _ ["vp9"]%string _ "vp09"); [in_list| |in_list|done].
      rewrite Hname. in_list.
    + by eapply (codec_rule_alias _ _ _ ["av1"; "av01"]%string _ "av01"); [in_list| |in_list|].
    + by eapply (codec_rule_alias _ _ _ ["av1"; "av01"]%string _ "av1"); [in_list| |in_list|].
  - intros [?|(names & needles & Hrow & Hname & needle & Hneedle & Hin)]; [tauto|].
    unfold video_aliases in Hrow. split_in Hrow; injection Hrow as -> ->.
    + split_in Hneedle; subst needle; tauto.
    + apply list_elem_of_singleton in Hname. split_in Hneedle; subst needle; tauto.
    + split_in Hneedle; subst needle; tauto.
Qed.


(** C4, at the filter token aac and a candidate whose codec is aac.  The
    token is a plain substring of the codec, so the rule and the unified
    audio worker accept the candidate; the table lookup of
    [get_audio_streams] replaces the substring test by the test for mp4a
    and rejects it, and the call returns the other stream. *)
Theorem single_stream_filter_skips_substring :
  codec_rule audio_aliases "aac" "aac"
  ∧ audio_codec_match (Py.lower "aac") (Py.lower "aac") = true
  ∧ get_audio_streams_filter "aac" (audio_stream "aac" 192 "https://example.com/a") = false
  ∧ value_of (get_audio_streams (create_optimized_extractor false)
                (serving [descriptor Missing (Has "aac") (Has "https://example.com/a")
                            Missing (Has 192%Q);
                          descriptor Missing (Has "mp4a.40.2") (Has "https://example.com/b")
                            Missing (Has 64%Q)])%string
                "id" 192 (Some "aac"%string) [])
    = Return [audio_stream "mp4a.40.2" 64 "https://example.com/b"].
Proof.
  split; [by left|]. repeat split; vm_compute; reflexivity.
Qed.

(** ** A codec filter that excludes every candidate *)

Lemma collect_cons {A B} (body : A -> M (option B)) x l :
  collect body (x :: l) =
  (r ← body x; rest ← collect body l;
   ret (match r with Some b => b :: rest | None => rest end)).
Proof. reflexivity. Qed.

#[local] Arguments collect : simpl never.



(** What awaiting a worker yields: its streams; or, when the wait runs
    out or the worker raises, an error if the other branch was not
    requested and the empty list if it was. *)
Lemma await_worker_run self include_video include_audio t timed_out worker c :
  ∃ tr,
    await_worker self include_video include_audio t timed_out worker c =
    if timed_out then
      (if other_not_requested t include_video include_audio
       then Raise (Exn ValueError [Str (capitalize t); Lit " stream processing timed out"])
       else Return [], c, tr)
    else
      match worker c with
      | (Return streams, c', _) => (Return streams, c', tr)
      | (Raise e, c', _) =>
          (if other_not_requested t include_video include_audio then Raise e else Return [],
           c', tr)
      end.
Proof.
  unfold await_worker, try_except, _log_debug, _log_warning, _log_error.
  destruct timed_out.
  - destruct (other_not_requested t include_video include_audio), (debug self);
      by eexists.
  - unfold bind at 1. unfold bind at 1.
    destruct (debug self); unfold emit at 1, ret at 1; cbv beta iota zeta;
      destruct (worker c) as [[[streams|e] c'] tr];
      destruct (other_not_requested t include_video include_audio); by eexists.
Qed.



(** ** The unified orchestrator *)

Lemma other_not_requested_spec t include_video include_audio :
  other_not_requested t include_video include_audio
  = negb (other_requested t include_video include_audio).
Proof. by destruct t, include_video, include_audio. Qed.

Lemma await_worker_fails self include_video include_audio t timed_out worker c :
  branch_fails timed_out worker c ->
  (other_requested t include_video include_audio = false ->
   ∃ e, value_of (await_worker self include_video include_audio t timed_out worker c)
        = Raise e) ∧
  (other_requested t include_video include_audio = true ->
   value_of (await_worker self include_video include_audio t timed_out worker c)
   = Return []).
Proof.
  intros Hfail.
  destruct (await_worker_run self include_video include_audio t timed_out worker c)
    as (tr & ->).
  rewrite other_not_requested_spec. unfold value_of.
  destruct Hfail as [->|[e He]].
  - split; intros ->; simpl; eauto.
  - unfold value_of in He. destruct timed_out.
    + split; intros ->; simpl; eauto.
    + destruct (worker c) as [[r c'] t0]. simpl in He. subst r.
      split; intros ->; simpl; eauto.
Qed.

Ltac unfold_results :=
  unfold get_unified_streams_results, await_worker, try_except, bind, ret, raise, emit,
    _log_debug, _log_warning, _log_error, value_of, recorded in *.

Lemma results_video_fatal self timed_out duration vw aw c :
  branch_fails (timed_out Video) vw c ->
  ∃ e, value_of (get_unified_streams_results self true false timed_out duration vw aw c)
       = Raise e.
Proof.
  intros [Ht|[e He]]; unfold_results; simpl.
  - rewrite Ht. destruct (debug self); simpl; eauto.
  - destruct (debug self); simpl; (destruct (timed_out Video); simpl; [eauto|]);
      destruct (vw c) as [[r c'] tr]; simpl in He; subst r; simpl; eauto.
Qed.

Lemma results_audio_fatal self timed_out duration vw aw c :
  branch_fails (timed_out Audio) aw c ->
  ∃ e, value_of (get_unified_streams_results self false true timed_out duration vw aw c)
       = Raise e.
Proof.
  intros [Ht|[e He]]; unfold_results; simpl.
  - rewrite Ht. destruct (debug self); simpl; eauto.
  - destruct (debug self); simpl; (destruct (timed_out Audio); simpl; [eauto|]);
      destruct (aw c) as [[r c'] tr]; simpl in He; subst r; simpl; eauto.
Qed.

Lemma results_both self timed_out duration vw aw c :
  let video := recorded (timed_out Video) vw c in
  let audio := recorded (timed_out Audio) aw video.2 in
  value_of (get_unified_streams_results self true true timed_out duration vw aw c) =
  match video.1, audio.1 with
  | [], [] => Raise (Exn ValueError [Lit "Failed to get both video and audio streams"])
  | _, _ => Return {| r_duration := duration; r_video := Some video.1;
                      r_audio := Some audio.1 |}
  end.
Proof.
  unfold_results; simpl.
  destruct (debug self); simpl;
    (destruct (timed_out Video); simpl; [|destruct (vw c) as [[[vs|e] c1] tv]; simpl]);
    (destruct (timed_out Audio); simpl; [|destruct (aw _) as [[[aus|e'] c2] ta]; simpl]);
    try destruct vs; try destruct aus; reflexivity.
Qed.

(** C6.  A branch that times out or raises is fatal exactly when the
    other branch was not requested, and is otherwise recorded as the
    empty list; requested alone, a failing branch fails the call;
    requested together, the call fails when both recorded lists are
    empty and returns both lists when one of them is populated.  A call
    for both branches whose audio wait runs out, or whose audio worker
    raises, returns the video stream and the empty audio list. *)
Theorem unified_partial_failure_policy :
  (∀ self include_video include_audio t timed_out worker c,
     branch_fails timed_out worker c ->
     ((∃ e, value_of (await_worker self include_video include_audio t timed_out worker c)
            = Raise e)
      <-> other_requested t include_video include_audio = false) ∧
     (other_requested t include_video include_audio = true ->
      value_of (await_worker self include_video include_audio t timed_out worker c)
      = Return [])) ∧
  (∀ self timed_out duration vw aw c,
     (branch_fails (timed_out Video) vw c ->
      ∃ e, value_of (get_unified_streams_results self true false timed_out duration vw aw c)
           = Raise e) ∧
     (branch_fails (timed_out Audio) aw c ->
      ∃ e, value_of (get_unified_streams_results self false true timed_out duration vw aw c)
           = Raise e)) ∧
  (∀ self timed_out duration vw aw c,
     let video := recorded (timed_out Video) vw c in
     let audio := recorded (timed_out Audio) aw video.2 in
     value_of (get_unified_streams_results self true true timed_out duration vw aw c) =
     match video.1, audio.1 with
     | [], [] => Raise (Exn ValueError [Lit "Failed to get both video and audio streams"])
     | _, _ => Return {| r_duration := duration; r_video := Some video.1;
                         r_audio := Some audio.1 |}
     end) ∧
  (∀ debug,
     let self := create_optimized_extractor debug in
     (∃ v, value_of (get_unified_streams self (serving two_formats)
                       (fun t => bool_decide (t = Audio)) "id" 192 "1080p" None None
                       true true [])
           = Return {| r_duration := Some 60; r_video := Some [v]; r_audio := Some [] |}) ∧
     (∃ v, value_of (get_unified_streams self (serving two_formats) (fun _ => false)
                       "id" 192 "1080p" (Some "aac"%string) None true true [])
           = Return {| r_duration := Some 60; r_video := Some [v]; r_audio := Some [] |}) ∧
     (∃ e, value_of (get_unified_streams self (serving two_formats)
                       (fun t => bool_decide (t = Audio)) "id" 192 "1080p" None None
                       false true [])
           = Raise e) ∧
     (∃ e, value_of (get_unified_streams self (serving two_formats) (fun _ => true)
                       "id" 192 "1080p" None None true true [])
           = Raise e)).
Proof.
  split; [|split; [|split]].
  - intros self include_video include_audio t timed_out worker c Hfail.
    destruct (await_worker_fails self include_video include_audio t timed_out worker c Hfail)
      as [Hfatal Hempty].
    split; [|done]. split; [|done].
    intros [e He]. destruct (other_requested t include_video include_audio); [|done].
    rewrite Hempty in He; done.
  - intros self timed_out duration vw aw c. split.
    + apply results_video_fatal.
    + apply results_audio_fatal.
  - apply results_both.
  - intros debug. destruct debug; repeat split; vm_compute; eexists; reflexivity.
Qed.

(** The rule at an audio wait that runs out next to a requested video
    branch. *)
Lemma unified_partial_failure_policy_witness :
  branch_fails true (ret []) [] ∧
  value_of (await_worker (create_optimized_extractor false) true true Audio true (ret []) [])
  = Return [].
Proof.
  split; [left; reflexivity|].
  apply (proj2 (proj1 unified_partial_failure_policy (create_optimized_extractor false)
                  true true Audio true (ret []) [] (or_introl eq_refl))).
  reflexivity.
Defined.

(** ** The retrying fetch *)

Ltac unfold_fetch :=
  unfold sleep, _log_debug, _log_warning, _log_error, raise_object, bind, ret, raise, emit,
    value_of, trace_of in *.

(** At most [remaining] provider calls are made. *)
Lemma fetch_calls_bounded self provider video_id remaining attempt last_error c :
  (provider_calls (trace_of (_get_ytdlp_info_from self provider video_id remaining attempt
                               last_error c)) <= remaining)%nat.
Proof.
  revert attempt last_error c.
  induction remaining as [|n IH]; intros attempt last_error c; simpl.
  - unfold_fetch. by destruct last_error.
  - unfold_fetch. unfold provider_calls in *.
    destruct (provider attempt) as [[info|]|[] msg]; destruct (debug self); simpl;
      try (destruct (Z.of_nat attempt <? max_retries self - 1); simpl);
      try (destruct (Qle_bool 0 (retry_delay self)); simpl);
      try lia;
      match goal with
      | |- context [_get_ytdlp_info_from self provider video_id n ?a ?l ?c0] =>
          specialize (IH a l c0);
          destruct (_get_ytdlp_info_from self provider video_id n a l c0) as [[r c'] t]
      end; simpl in *; lia.
Qed.

(** Every sleep lasts [retry_delay]. *)
Lemma fetch_sleeps_fixed self provider video_id remaining attempt last_error c :
  Forall (fun d => d = retry_delay self)
    (sleeps (trace_of (_get_ytdlp_info_from self provider video_id remaining attempt
                         last_error c))).
Proof.
  revert attempt last_error c.
  induction remaining as [|n IH]; intros attempt last_error c; simpl.
  - unfold_fetch. destruct last_error; constructor.
  - unfold_fetch. unfold sleeps in *.
    destruct (provider attempt) as [[info|]|[] msg]; destruct (debug self); simpl;
      try (destruct (Z.of_nat attempt <? max_retries self - 1); simpl);
      try (destruct (Qle_bool 0 (retry_delay self)); simpl);
      try (by repeat constructor);
      match goal with
      | |- context [_get_ytdlp_info_from self provider video_id n ?a ?l ?c0] =>
          specialize (IH a l c0);
          destruct (_get_ytdlp_info_from self provider video_id n a l c0) as [[r c'] t]
      end; simpl in *; by repeat constructor.
Qed.

(** The first non-empty result is returned; an exception that is not a
    download error is raised at once, after one call. *)
Lemma fetch_first_outcome self provider video_id n attempt last_error c :
  (∀ info, provider attempt = Returns (Some info) ->
     value_of (_get_ytdlp_info_from self provider video_id (S n) attempt last_error c)
     = Return info) ∧
  (∀ cls msg, provider attempt = Throws cls msg -> cls ≠ DownloadError ->
     value_of (_get_ytdlp_info_from self provider video_id (S n) attempt last_error c)
     = Raise (Exn cls [Str msg]) ∧
     provider_calls (trace_of (_get_ytdlp_info_from self provider video_id (S n) attempt
                                 last_error c)) = 1%nat).
Proof.
  split.
  - intros info Hp. simpl. rewrite Hp. unfold_fetch. by destruct (debug self).
  - intros cls msg Hp Hcls. simpl. rewrite Hp. unfold_fetch.
    by destruct cls, (debug self).
Qed.

(** A sleep of a non-negative length is one [Sleep] event. *)
Lemma sleep_nonneg (seconds : Q) :
  (0 <= seconds)%Q -> sleep seconds = emit (Sleep seconds).
Proof. intros H. unfold sleep. by rewrite (proj2 (Qle_bool_iff 0 seconds) H). Qed.

(** A sleep of a negative length raises and leaves no event. *)
Lemma sleep_negative (seconds : Q) :
  (seconds < 0)%Q ->
  sleep seconds = raise (Exn ValueError [Lit "sleep length must be non-negative"]).
Proof.
  intros H. unfold sleep. destruct (Qle_bool 0 seconds) eqn:Hle; [|done].
  apply Qle_bool_iff in Hle. exfalso. exact (Qlt_not_le _ _ H Hle).
Qed.

(** With a non-negative delay, an attempt that ends in a download error
    hands the error to the next iteration. *)
Lemma fetch_step_download_error self provider video_id m attempt last_error c msg :
  (0 <= retry_delay self)%Q ->
  provider attempt = Throws DownloadError msg ->
  value_of (_get_ytdlp_info_from self provider video_id (S m) attempt last_error c)
  = value_of (_get_ytdlp_info_from self provider video_id m (S attempt)
                (Some (Exn DownloadError [Str msg])) c).
Proof.
  intros Hdelay Hp. cbn [_get_ytdlp_info_from]. rewrite Hp, (sleep_nonneg _ Hdelay).
  generalize (_get_ytdlp_info_from self provider video_id m (S attempt)
                (Some (Exn DownloadError [Str msg]))).
  intros rest. unfold_fetch.
  destruct (debug self), (Z.of_nat attempt <? max_retries self - 1);
    simpl; by destruct (rest c) as [[r c'] t].
Qed.

(** With a non-negative delay, when every remaining attempt ends in a
    download error, the error of the last attempt is raised. *)
Lemma fetch_exhausted_by_download_errors self provider video_id n attempt last_error c
    (msg : nat -> string) :
  (0 <= retry_delay self)%Q ->
  (∀ k, (k <= n)%nat -> provider (attempt + k)%nat = Throws DownloadError (msg k)) ->
  value_of (_get_ytdlp_info_from self provider video_id (S n) attempt last_error c)
  = Raise (Exn DownloadError [Str (msg n)]).
Proof.
  intros Hdelay. revert attempt last_error c msg.
  induction n as [|n IH]; intros attempt last_error c msg Hall;
    pose proof (Hall 0%nat (Nat.le_0_l _)) as H0; rewrite Nat.add_0_r in H0;
    rewrite (fetch_step_download_error _ _ _ _ _ _ _ _ Hdelay H0).
  - reflexivity.
  - apply (IH (S attempt) _ c (fun k => msg (S k))).
    intros k Hk. rewrite <- (Hall (S k)) by lia. f_equal. lia.
Qed.

(** With a negative delay, a download error in an attempt that is not
    the last ends the loop: the sleep raises a [ValueError] inside the
    handler, after one call. *)
Lemma fetch_negative_delay_from self provider video_id m attempt last_error c msg :
  (retry_delay self < 0)%Q ->
  (Z.of_nat attempt < max_retries self - 1)%Z ->
  provider attempt = Throws DownloadError msg ->
  let r := _get_ytdlp_info_from self provider video_id (S m) attempt last_error c in
  value_of r = Raise (Exn ValueError [Lit "sleep length must be non-negative"])
  ∧ provider_calls (trace_of r) = 1%nat
  ∧ sleeps (trace_of r) = [].
Proof.
  intros Hdelay Hlt Hp. cbn zeta. cbn [_get_ytdlp_info_from].
  rewrite Hp, (sleep_negative _ Hdelay), (proj2 (Z.ltb_lt _ _) Hlt).
  generalize (_get_ytdlp_info_from self provider video_id m (S attempt)
                (Some (Exn DownloadError [Str msg]))).
  intros rest. unfold_fetch. by destruct (debug self).
Qed.

(** C7, at a provider whose three answers are all empty.  No download
    error was captured when the loop ends, so [raise last_error] raises
    [None]: the call fails with a [TypeError], after three calls and no
    sleep. *)
Theorem fetch_exhausted_without_error :
  let r := _get_ytdlp_info (create_optimized_extractor false) (fun _ => Returns None)
             "id" [] in
  value_of r = Raise (Exn TypeError [Lit "exceptions must derive from BaseException"])
  ∧ class_of (Exn TypeError [Lit "exceptions must derive from BaseException"]) ≠ DownloadError
  ∧ provider_calls (trace_of r) = 3%nat
  ∧ sleeps (trace_of r) = [].
Proof. vm_compute. repeat split. discriminate. Qed.

(** ** The status probe *)

(** C9.  For a provider download error [check_status] returns, and its
    result is unavailable with the error message and the status of the
    first row of the table whose key occurs in the message, [error] when
    none does; a message that contains "Private video" gives the status
    private.  Any other exception gives the status [error] and the
    exception's message behind the prefix "Unexpected error: ".  No
    outcome of the provider makes [check_status] raise. *)
Theorem check_status_classifies :
  (∀ self msg video_id c,
     value_of (check_status self (Throws DownloadError msg) video_id c)
     = Return {| available := false;
                 status :=
                   (if Py.contains "Private video" msg then "private"
                    else if Py.contains "Video unavailable" msg then "unavailable"
                    else if Py.contains "age-restricted" msg then "age_restricted"
                    else if Py.contains "removed" msg then "removed"
                    else "error")%string;
                 error := Some msg |}) ∧
  (∀ self msg video_id c,
     Py.contains "Private video" msg = true ->
     value_of (check_status self (Throws DownloadError msg) video_id c)
     = Return {| available := false; status := "private"; error := Some msg |}) ∧
  (∀ self cls msg video_id c,
     cls ≠ DownloadError ->
     value_of (check_status self (Throws cls msg) video_id c)
     = Return {| available := false; status := "error";
                 error := Some ("Unexpected error: " +:+ msg)%string |}) ∧
  (∀ self probe video_id c,
     ∃ r, value_of (check_status self probe video_id c) = Return r).
Proof.
  assert (Hdl : ∀ self msg video_id c,
            value_of (check_status self (Throws DownloadError msg) video_id c)
            = Return {| available := false;
                        status := next_status status_map msg "error";
                        error := Some msg |}).
  { intros self msg video_id c. unfold check_status. run. by destruct (debug self). }
  split; [|split; [|split]].
  - intros self msg video_id c. rewrite Hdl. reflexivity.
  - intros self msg video_id c Hp. rewrite Hdl. simpl. by rewrite Hp.
  - intros self cls msg video_id c Hcls. unfold check_status. run.
    by destruct cls, (debug self).
  - intros self probe video_id c. unfold check_status. run.
    destruct probe as [[info|]|[] msg], (debug self); by eexists.
Qed.

(** The probe at a private video. *)
Lemma check_status_classifies_witness :
  Py.contains "Private video"
    "ERROR: [youtube] dQw4w9WgXcQ: Private video. Sign in if you've been granted access"
  = true ∧
  value_of (check_status (create_optimized_extractor false)
              (Throws DownloadError
                 "ERROR: [youtube] dQw4w9WgXcQ: Private video. Sign in if you've been granted access")
              "dQw4w9WgXcQ" [])
  = Return {| available := false; status := "private";
              error := Some "ERROR: [youtube] dQw4w9WgXcQ: Private video. Sign in if you've been granted access"%string |}.
Proof.
  split; [reflexivity|].
  apply (proj1 (proj2 check_status_classifies)). reflexivity.
Defined.

(** ** The pre-filter of the unified call *)

(** C10, at one audio descriptor whose average bitrate is present and
    null.  [get_audio_streams] skips it; the pre-filter of the unified
    call compares [None] with 0, which is a [TypeError], and the whole
    call fails. *)
Theorem unified_prefilter_null_bitrate :
  value_of (prefilter false true [null_bitrate_audio] [])
  = Raise (Exn TypeError
             [Lit "'>' not supported between instances of 'NoneType' and 'int'"])
  ∧ value_of (get_unified_streams (create_optimized_extractor false)
                (serving [null_bitrate_audio]) (fun _ => false) "id" 192 "1080p" None None
                false true [])
    = Raise (Exn ValueError
               [Lit "Error getting unified streams: ";
                Lit "'>' not supported between instances of 'NoneType' and 'int'"])
  ∧ get_audio_streams_entry null_bitrate_audio = None.
Proof. repeat split; vm_compute; reflexivity. Qed.

(** ** Reasoning on returned values *)

Lemma value_of_returns {A} (m : M A) c a : value_of (m c) = Return a <-> returns m c a.
Proof.
  unfold value_of, returns. destruct (m c) as [[r c'] t]; simpl. split.
  - intros ->. eauto.
  - by intros (c'' & t' & [= -> _ _]).
Qed.

Lemma returns_ret {A} (a b : A) c : returns (ret a) c b -> a = b.
Proof. by intros (c' & t & [= -> _ _]). Qed.

Lemma returns_raise {A} e c (b : A) : returns (raise e) c b -> False.
Proof. by intros (c' & t & [=]). Qed.

Lemma returns_bind {A B} (m : M A) (k : A -> M B) c b :
  returns (bind m k) c b -> ∃ a c', returns m c a ∧ returns (k a) c' b.
Proof.
  unfold returns, bind. destruct (m c) as [[[a|e] c1] t1]; [|by intros (? & ? & [=])].
  destruct (k a c1) as [[r c2] t2] eqn:Hk. intros (c' & t & [= -> _ _]).
  exists a, c1. split; eauto.
Qed.

Lemma returns_try_except {A} (body : M A) handler c b :
  returns (try_except body handler) c b ->
  returns body c b ∨ ∃ e c', returns (handler e) c' b.
Proof.
  unfold returns, try_except. destruct (body c) as [[[a|e] c1] t1].
  - intros (c' & t & [= -> _ _]). left. eauto.
  - destruct (handler e c1) as [[r c2] t2] eqn:Hh. intros (c' & t & [= -> _ _]).
    right. exists e, c1. eauto.
Qed.

Lemma returns_log_then_raise {A} m e c (b : A) : returns (_log_error m;; raise e) c b -> False.
Proof. by intros (c' & t & [=]). Qed.

Lemma returns_collect {A B} (body : A -> M (option B)) l c out :
  returns (collect body l) c out ->
  ∀ b, b ∈ out -> ∃ x c', x ∈ l ∧ returns (body x) c' (Some b).
Proof.
  revert c out. induction l as [|x l IH]; intros c out Hr b Hb.
  - apply returns_ret in Hr. subst out. by apply elem_of_nil in Hb.
  - rewrite collect_cons in Hr.
    apply returns_bind in Hr as (r & c1 & Hx & Hr).
    apply returns_bind in Hr as (rest & c2 & Hrest & Hr).
    apply returns_ret in Hr. subst out.
    destruct r as [b'|].
    + apply elem_of_cons in Hb as [->|Hb].
      * exists x, c. split; [by left|done].
      * destruct (IH _ _ Hrest b Hb) as (x' & c' & Hin & Hx'). exists x', c'.
        split; [by right|done].
    + destruct (IH _ _ Hrest b Hb) as (x' & c' & Hin & Hx'). exists x', c'.
      split; [by right|done].
Qed.

Lemma min_from_in {A K} (ltb : K -> K -> bool) (key : A -> K) x l :
  min_from ltb key x l ∈ x :: l.
Proof.
  revert x. induction l as [|y l IH]; intros x; simpl; [by left|].
  destruct (ltb (key y) (key x)).
  - right. apply IH.
  - specialize (IH x). apply elem_of_cons in IH as [->|IH]; [by left|by do 2 right].
Qed.

Lemma max_from_in {A K} (ltb : K -> K -> bool) (key : A -> K) x l :
  max_from ltb key x l ∈ x :: l.
Proof. rewrite max_from_flip. apply min_from_in. Qed.

Lemma returns_py_min {A K} (ltb : K -> K -> bool) (key : A -> K) l c x :
  returns (py_min ltb key l) c x -> x ∈ l.
Proof.
  destruct l as [|y l]; [by intros ?%returns_raise|].
  intros <-%returns_ret. apply min_from_in.
Qed.

Lemma returns_py_max {A K} (ltb : K -> K -> bool) (key : A -> K) l c x :
  returns (py_max ltb key l) c x -> x ∈ l.
Proof.
  destruct l as [|y l]; [by intros ?%returns_raise|].
  intros <-%returns_ret. apply max_from_in.
Qed.

(** ** The URL of a returned stream *)

Lemma in_filter {A} (P : A -> bool) x l : x ∈ List.filter P l -> x ∈ l.
Proof. rewrite !list_elem_of_In, filter_In. tauto. Qed.





Lemma truthy_str_nonempty v : truthy_str v = true -> ∃ u, v = Some u ∧ u ≠ EmptyString.
Proof.
  destruct v as [u|]; [|done]. simpl. rewrite negb_true_iff. intros Hu%String.eqb_neq.
  eauto.
Qed.



Lemma elem_of_omap_entry {A B} (f : A -> option B) (l : list A) b :
  b ∈ omap f l -> ∃ a, a ∈ l ∧ f a = Some b.
Proof. rewrite list_elem_of_omap. naive_solver. Qed.







(** An awaited branch yields the streams of its worker or the empty list. *)
Lemma await_worker_returns self include_video include_audio t timed_out worker c streams :
  returns (await_worker self include_video include_audio t timed_out worker) c streams ->
  streams = [] ∨ returns worker c streams.
Proof.
  intros (c' & tr & Hrun).
  destruct (await_worker_run self include_video include_audio t timed_out worker c)
    as (tr' & Heq).
  rewrite Heq in Hrun. destruct timed_out.
  - destruct (other_not_requested _ _ _); [done|]. injection Hrun as <- _ _. by left.
  - unfold returns. destruct (worker c) as [[[ws|e] c1] t1].
    + injection Hrun as <- _ _. right. eauto.
    + destruct (other_not_requested _ _ _); [done|]. injection Hrun as <- _ _. by left.
Qed.

Lemma get_unified_streams_results_returns self include_video include_audio timed_out
    duration vw aw c r :
  returns (get_unified_streams_results self include_video include_audio timed_out duration
             vw aw) c r ->
  (∀ streams, r_video r = Some streams -> streams = [] ∨ ∃ c', returns vw c' streams)
  ∧ (∀ streams, r_audio r = Some streams -> streams = [] ∨ ∃ c', returns aw c' streams).
Proof.
  unfold get_unified_streams_results.
  intros (u1 & c1 & _ & Hr)%returns_bind.
  apply returns_bind in Hr as (u2 & c2 & _ & Hr).
  apply returns_bind in Hr as (video & c3 & Hvideo & Hr).
  apply returns_bind in Hr as (audio & c4 & Haudio & Hr).
  apply returns_bind in Hr as (u3 & c5 & _ & Hr).
  apply returns_bind in Hr as (u4 & c6 & _ & Hret).
  apply returns_ret in Hret. subst r. simpl. split.
  - intros streams ->. destruct include_video.
    + apply returns_bind in Hvideo as (streams' & c7 & Hawait & Hret).
      apply returns_ret in Hret. injection Hret as ->.
      apply await_worker_returns in Hawait as [->|?]; eauto.
    + by apply returns_ret in Hvideo.
  - intros streams ->. destruct include_audio.
    + apply returns_bind in Haudio as (streams' & c7 & Hawait & Hret).
      apply returns_ret in Hret. injection Hret as ->.
      apply await_worker_returns in Hawait as [->|?]; eauto.
    + by apply returns_ret in Haudio.
Qed.


Lemma returns_outer_handler {A} prefix1 prefix2 prefix3 e c (b : A) :
  returns (match class_of e with
           | DownloadError => _log_error (prefix1 :: str_of e);; raise e
           | _ => _log_error (prefix2 :: str_of e);;
                  raise (Exn ValueError (prefix3 :: str_of e))
           end) c b -> False.
Proof. destruct (class_of e); apply returns_log_then_raise. Qed.



(** * Further properties *)

(** ** The memo table of [_parse_quality] *)

Lemma _parse_quality_body_pure quality_str c :
  ∃ n t, _parse_quality_body quality_str c = (Return n, c, t)
         ∧ _parse_quality_body quality_str [] = (Return n, [], t).
Proof.
  unfold _parse_quality_body, try_except, int_.
  destruct (String.eqb quality_str EmptyString); [by eexists _, _|].
  destruct (Py.endswith _ "p").
  { destruct (Py.int _); by eexists _, _. }
  destruct (k_formats !! _); [by eexists _, _|].
  destruct (Py.isdigit _); [|by eexists _, _].
  destruct (Py.int _); by eexists _, _.
Qed.

Lemma cache_lookup_None key (c : cache) : cache_lookup key c = None <-> key ∉ c.*1.
Proof.
  induction c as [|[k v] c IH]; simpl.
  - split; [intros _; apply not_elem_of_nil|done].
  - destruct (String.eqb_spec k key) as [->|Hne].
    + split; [done|]. intros Hnot. destruct Hnot. by left.
    + rewrite IH, not_elem_of_cons. naive_solver.
Qed.

Lemma cache_lookup_remove_ne key k (c : cache) :
  k ≠ key -> cache_lookup k (cache_remove key c) = cache_lookup k c.
Proof.
  intros Hne. induction c as [|[k' v] c IH]; simpl; [done|].
  destruct (String.eqb_spec k' key) as [->|Hk'].
  - by destruct (String.eqb_spec key k).
  - simpl. by rewrite IH.
Qed.

Lemma cache_remove_keys key (c : cache) k : k ∈ (cache_remove key c).*1 -> k ∈ c.*1.
Proof.
  induction c as [|[k' v] c IH]; simpl; [done|].
  destruct (String.eqb k' key); [by right|].
  simpl. rewrite !elem_of_cons. naive_solver.
Qed.

Lemma cache_remove_NoDup key (c : cache) :
  NoDup c.*1 -> NoDup (cache_remove key c).*1 ∧ key ∉ (cache_remove key c).*1.
Proof.
  induction c as [|[k v] c IH]; simpl.
  - intros _. split; [constructor|apply not_elem_of_nil].
  - intros [Hk Hc]%NoDup_cons. destruct (String.eqb_spec k key) as [->|Hne].
    + by split.
    + destruct (IH Hc) as [Hnd Hnot]. simpl. split.
      * apply NoDup_cons. split; [|done]. intros Hin. by apply cache_remove_keys in Hin.
      * rewrite not_elem_of_cons. by split.
Qed.

Lemma cache_remove_length key (c : cache) v :
  cache_lookup key c = Some v -> S (length (cache_remove key c)) = length c.
Proof.
  induction c as [|[k v'] c IH]; simpl; [done|].
  destruct (String.eqb k key); [done|]. intros Hl. simpl. by rewrite IH.
Qed.

Lemma cache_lookup_take n k v (c : cache) :
  cache_lookup k (take n c) = Some v -> cache_lookup k c = Some v.
Proof.
  revert n. induction c as [|[k' v'] c IH]; intros [|n]; simpl; try done.
  destruct (String.eqb k' k); [done|]. apply IH.
Qed.

Lemma _parse_quality_memo quality_str c :
  cache_wf 128 c ->
  ∃ v c' t,
    _parse_quality quality_str c = (Return v, c', t)
    ∧ value_of (_parse_quality_body quality_str []) = Return v
    ∧ cache_wf 128 c'
    ∧ cache_lookup quality_str c' = Some v.
Proof.
  intros (Hnd & Hlen & Hval). unfold _parse_quality, lru_cache.
  destruct (cache_lookup quality_str c) as [v|] eqn:Hl.
  - exists v, ((quality_str, v) :: cache_remove quality_str c), [].
    split; [done|]. split; [by apply Hval|].
    destruct (cache_remove_NoDup quality_str c Hnd) as [Hnd' Hnot].
    split; [|by simpl; rewrite String.eqb_refl].
    split; [by apply NoDup_cons|]. split.
    + simpl. rewrite (cache_remove_length _ _ _ Hl). done.
    + intros k v'. simpl. destruct (String.eqb_spec quality_str k) as [<-|Hne].
      * intros [= <-]. by apply Hval.
      * rewrite cache_lookup_remove_ne by done. apply Hval.
  - destruct (_parse_quality_body_pure quality_str c) as (v & t & -> & Hpure).
    exists v, (take 128 ((quality_str, v) :: c)), t.
    split; [done|]. split; [by unfold value_of; rewrite Hpure|].
    split; [|by simpl; rewrite String.eqb_refl].
    apply cache_lookup_None in Hl.
    split; [|split].
    + rewrite fmap_take. eapply sublist_NoDup; [|apply sublist_take].
      by apply NoDup_cons.
    + rewrite length_take. lia.
    + intros k v' Hk. apply cache_lookup_take in Hk. simpl in Hk.
      destruct (String.eqb_spec quality_str k) as [<-|Hne].
      * injection Hk as <-. by unfold value_of; rewrite Hpure.
      * by apply Hval.
Qed.

(** X1.  The memo table is transparent and stays well formed: started
    with a well-formed table of at most [maxsize = 128] entries,
    [_parse_quality] returns the height that its body computes, and
    leaves a well-formed table in which the token is stored. *)
Theorem parse_quality_memo_invariant quality_str c :
  cache_wf 128 c ->
  ∃ v c' t,
    _parse_quality quality_str c = (Return v, c', t)
    ∧ value_of (_parse_quality_body quality_str []) = Return v
    ∧ cache_wf 128 c'
    ∧ cache_lookup quality_str c' = Some v.
Proof. apply _parse_quality_memo. Qed.

(** The invariant at the empty table and the token 720p. *)
Lemma parse_quality_memo_invariant_witness :
  cache_wf 128 [] ∧
  ∃ v c' t, _parse_quality "720p" [] = (Return v, c', t) ∧ cache_wf 128 c'.
Proof.
  assert (Hwf : cache_wf 128 []).
  { split; [constructor|]. split; [simpl; lia|]. intros k v Hk. discriminate Hk. }
  split; [exact Hwf|].
  destruct (parse_quality_memo_invariant "720p" [] Hwf) as (v & c' & t & Hrun & _ & Hwf' & _).
  exists v, c', t. split; [exact Hrun | exact Hwf'].
Defined.

(** X2.  A token is normalised once: whatever the table holds, a second
    call with the same token returns the value of the first and prints
    nothing, so the warning for an unparseable token is not repeated. *)
Theorem parse_quality_second_call_silent quality_str c :
  ∃ v c1 t c2,
    _parse_quality quality_str c = (Return v, c1, t)
    ∧ _parse_quality quality_str c1 = (Return v, c2, []).
Proof.
  unfold _parse_quality, lru_cache.
  destruct (cache_lookup quality_str c) as [v|] eqn:Hl.
  - exists v. eexists _, _, _. split; [done|]. simpl. by rewrite String.eqb_refl.
  - destruct (_parse_quality_body_pure quality_str c) as (v & t & -> & _).
    exists v. eexists _, _, _. split; [done|]. simpl. by rewrite String.eqb_refl.
Qed.

(** ** The retry loop as a whole *)

Lemma fetch_sleeps_counted self provider video_id remaining attempt last_error c :
  (length (sleeps (trace_of (_get_ytdlp_info_from self provider video_id remaining attempt
                               last_error c)))
   <= Z.to_nat (max_retries self - 1 - Z.of_nat attempt))%nat.
Proof.
  revert attempt last_error c.
  induction remaining as [|n IH]; intros attempt last_error c; simpl.
  - unfold_fetch. destruct last_error; simpl; lia.
  - unfold_fetch. unfold sleeps, omap in *.
    destruct (provider attempt) as [[info|]|[] msg]; destruct (debug self); simpl;
      try (destruct (Z.ltb_spec (Z.of_nat attempt) (max_retries self - 1)); simpl);
      try (destruct (Qle_bool 0 (retry_delay self)); simpl);
      try lia;
      match goal with
      | |- context [_get_ytdlp_info_from self provider video_id n ?a ?l ?c0] =>
          specialize (IH a l c0);
          destruct (_get_ytdlp_info_from self provider video_id n a l c0) as [[r c'] t]
      end; simpl in *; lia.
Qed.

(** An iteration of the loop calls the provider. *)
Lemma fetch_calls_positive self provider video_id n attempt last_error c :
  (1 <= provider_calls (trace_of (_get_ytdlp_info_from self provider video_id (S n) attempt
                                    last_error c)))%nat.
Proof.
  cbn [_get_ytdlp_info_from].
  generalize (_get_ytdlp_info_from self provider video_id n (S attempt)). intros rest.
  unfold_fetch. unfold provider_calls.
  destruct (provider attempt) as [[info|]|[] msg]; destruct (debug self); simpl;
    try (destruct (Z.of_nat attempt <? max_retries self - 1); simpl);
    try (destruct (Qle_bool 0 (retry_delay self)); simpl);
    try lia;
    match goal with
    | |- context [rest ?l ?c0] => destruct (rest l c0) as [[r c'] t]
    end; simpl; lia.
Qed.

Lemma sleep_then_attempt_of_rec t : sleep_then_attempt_rec t -> sleep_then_attempt t.
Proof.
  intros Hrec t1. revert t Hrec.
  induction t1 as [|e t1 IH]; intros t Hrec d t2 ->; simpl in Hrec.
  - tauto.
  - eapply IH; [|reflexivity]. destruct e; first [exact Hrec | exact (proj2 Hrec)].
Qed.

(** In the loop of [_get_ytdlp_info], a sleep is followed by the next
    attempt: the iteration that sleeps is not the last one. *)
Lemma fetch_sleep_then_attempt_from self provider video_id remaining attempt last_error c :
  (attempt + remaining)%nat = Z.to_nat (max_retries self) ->
  sleep_then_attempt_rec
    (trace_of (_get_ytdlp_info_from self provider video_id remaining attempt last_error c)).
Proof.
  revert attempt last_error c.
  induction remaining as [|n IH]; intros attempt last_error c Hinv.
  - simpl. unfold_fetch. by destruct last_error.
  - assert (Hnext : ∀ l c0,
              sleep_then_attempt_rec
                (trace_of (_get_ytdlp_info_from self provider video_id n (S attempt) l c0))).
    { intros l c0. apply IH. lia. }
    assert (Hcall : (Z.of_nat attempt < max_retries self - 1)%Z -> ∀ l c0,
              (1 <= provider_calls
                      (trace_of (_get_ytdlp_info_from self provider video_id n (S attempt)
                                   l c0)))%nat).
    { intros Hlt l c0. destruct n as [|n]; [lia|]. apply fetch_calls_positive. }
    clear IH. cbn [_get_ytdlp_info_from].
    generalize dependent (_get_ytdlp_info_from self provider video_id n (S attempt)).
    intros rest Hnext Hcall. unfold_fetch.
    destruct (provider attempt) as [[info|]|[] msg]; destruct (debug self); simpl;
      try (destruct (Z.ltb_spec (Z.of_nat attempt) (max_retries self - 1)); simpl);
      try (destruct (Qle_bool 0 (retry_delay self)); simpl);
      try done;
      match goal with
      | |- context [rest ?l ?c0] =>
          specialize (Hnext l c0); try (specialize (Hcall ltac:(assumption) l c0));
          destruct (rest l c0) as [[r c'] t]
      end; simpl in *; tauto.
Qed.

(** X3.  Whatever the provider does, [_get_ytdlp_info] calls it at most
    [max_retries] times, sleeps at most [max_retries - 1] times, never
    after the last attempt (every sleep is followed by another call),
    and every sleep lasts [retry_delay]. *)
Theorem fetch_effort_bounded self provider video_id c :
  let t := trace_of (_get_ytdlp_info self provider video_id c) in
  (provider_calls t <= Z.to_nat (max_retries self))%nat
  ∧ (length (sleeps t) <= Z.to_nat (max_retries self - 1))%nat
  ∧ sleep_then_attempt t
  ∧ Forall (fun d => d = retry_delay self) (sleeps t).
Proof.
  unfold _get_ytdlp_info. split; [apply fetch_calls_bounded|].
  split; [|split; [|apply fetch_sleeps_fixed]].
  - pose proof (fetch_sleeps_counted self provider video_id (Z.to_nat (max_retries self)) 0
                  None c) as H.
    simpl in H. by rewrite Z.sub_0_r in H.
  - apply sleep_then_attempt_of_rec, fetch_sleep_then_attempt_from. lia.
Qed.




(** ** The exceptions that leave a public operation *)

Lemma value_of_raises {A} (m : M A) c e : value_of (m c) = Raise e <-> raises m c e.
Proof.
  unfold value_of, raises. destruct (m c) as [[r c'] t]; simpl. split.
  - intros ->. eauto.
  - by intros (c'' & t' & [= -> _ _]).
Qed.

Lemma raises_try_except {A} (body : M A) handler c e :
  raises (try_except body handler) c e -> ∃ e0 c', raises body c e0 ∧ raises (handler e0) c' e.
Proof.
  unfold raises, try_except. destruct (body c) as [[[a|e0] c1] t1].
  - by intros (c' & t & [=]).
  - destruct (handler e0 c1) as [[r c2] t2] eqn:Hh. intros (c' & t & [= -> _ _]).
    exists e0, c1. split; eauto.
Qed.

Lemma raises_bind {A B} (m : M A) (k : A -> M B) c e :
  raises (bind m k) c e -> raises m c e ∨ ∃ a c', returns m c a ∧ raises (k a) c' e.
Proof.
  unfold raises, returns, bind. destruct (m c) as [[[a|e0] c1] t1].
  - destruct (k a c1) as [[r c2] t2] eqn:Hk. intros (c' & t & [= -> _ _]).
    right. exists a, c1. split; eauto.
  - intros (c' & t & [= -> _ _]). left. eauto.
Qed.

Lemma bind_raises_l {A B} (m : M A) (k : A -> M B) c e :
  raises m c e -> raises (bind m k) c e.
Proof. intros (c' & t & Hm). unfold raises, bind. rewrite Hm. eauto. Qed.

Lemma outer_handler_raises {A} prefix1 prefix2 prefix3 e0 c e :
  raises (match class_of e0 with
          | DownloadError => _log_error (prefix1 :: str_of e0);; raise e0
          | _ => _log_error (prefix2 :: str_of e0);;
                 raise (Exn ValueError (Lit prefix3 :: str_of e0))
          end : M A) c e ->
  e = rethrown prefix3 e0.
Proof.
  unfold rethrown, raises. destruct (class_of e0); by intros (c' & t & [= <- _ _]).
Qed.

Lemma rethrown_class prefix e :
  class_of (rethrown prefix e) = DownloadError ∨ class_of (rethrown prefix e) = ValueError.
Proof. unfold rethrown. destruct (class_of e) eqn:He; simpl; auto. Qed.

Lemma bind_log_debug {A} self msg (k : unit -> M A) c :
  bind (_log_debug self msg) k c
  = ((k tt c).1.1, (k tt c).1.2,
     (if debug self then [Print DEBUG msg] else []) ++ (k tt c).2).
Proof.
  unfold bind, _log_debug, emit, ret. by destruct (debug self), (k tt c) as [[r c'] t].
Qed.

Lemma bind_raise_eq {A B} (m : M A) (k : A -> M B) c e c1 t :
  m c = (Raise e, c1, t) -> bind m k c = (Raise e, c1, t).
Proof. intros Hm. unfold bind. by rewrite Hm. Qed.

Lemma try_handler_value {A} prefix1 prefix2 prefix3 e0 c t :
  value_of (let '(r, c'', t') :=
              (match class_of e0 with
               | DownloadError => _log_error (prefix1 :: str_of e0);; raise e0
               | _ => _log_error (prefix2 :: str_of e0);;
                      raise (Exn ValueError (Lit prefix3 :: str_of e0))
               end : M A) c in (r, c'', t ++ t'))
  = Raise (rethrown prefix3 e0).
Proof. unfold rethrown. by destruct (class_of e0). Qed.

(** X5.  An exception that leaves [get_video_streams],
    [get_audio_streams] or [get_unified_streams] is a download error or
    a [ValueError]; no other class reaches the caller. *)
Theorem public_operations_raise_two_classes :
  (∀ self provider video_id quality c e,
     value_of (get_video_streams self provider video_id quality c) = Raise e ->
     class_of e = DownloadError ∨ class_of e = ValueError) ∧
  (∀ self provider video_id bitrate codec c e,
     value_of (get_audio_streams self provider video_id bitrate codec c) = Raise e ->
     class_of e = DownloadError ∨ class_of e = ValueError) ∧
  (∀ self provider timed_out video_id audio_bitrate video_quality audio_codec video_codec
     include_video include_audio c e,
     value_of (get_unified_streams self provider timed_out video_id audio_bitrate
                 video_quality audio_codec video_codec include_video include_audio c)
     = Raise e ->
     class_of e = DownloadError ∨ class_of e = ValueError).
Proof.
  split; [|split].
  - intros self provider video_id quality c e He. apply value_of_raises in He.
    apply raises_try_except in He as (e0 & c' & _ & Hh).
    apply outer_handler_raises in Hh as ->. apply rethrown_class.
  - intros self provider video_id bitrate codec c e He. apply value_of_raises in He.
    apply raises_try_except in He as (e0 & c' & _ & Hh).
    apply outer_handler_raises in Hh as ->. apply rethrown_class.
  - intros self provider timed_out video_id audio_bitrate video_quality audio_codec
      video_codec include_video include_audio c e He.
    apply value_of_raises in He. unfold get_unified_streams in He.
    destruct (negb include_video && negb include_audio).
    { destruct He as (c' & t & [= <- _ _]). by right. }
    apply raises_try_except in He as (e0 & c' & _ & Hh).
    apply outer_handler_raises in Hh as ->. apply rethrown_class.
Qed.

Lemma public_operations_raise_two_classes_witness :
  ∃ e, value_of (get_video_streams (create_optimized_extractor false)
                   (fun _ => Throws OtherException "boom") "id" "720p" []) = Raise e
       ∧ class_of e = ValueError.
Proof.
  eexists. split; [vm_compute; reflexivity|].
  destruct (proj1 public_operations_raise_two_classes (create_optimized_extractor false)
              (fun _ => Throws OtherException "boom") "id"%string "720p"%string [] _
              eq_refl) as [H|H]; [discriminate H|exact H].
Defined.

Lemma fetch_raise_propagates self provider video_id c e :
  value_of (_get_ytdlp_info self provider video_id c) = Raise e ->
  (∀ quality,
     value_of (get_video_streams self provider video_id quality c)
     = Raise (rethrown "Error getting video streams: " e)) ∧
  (∀ bitrate codec,
     value_of (get_audio_streams self provider video_id bitrate codec c)
     = Raise (rethrown "Error getting audio streams: " e)) ∧
  (∀ timed_out audio_bitrate video_quality audio_codec video_codec include_video
     include_audio,
     include_video || include_audio = true ->
     value_of (get_unified_streams self provider timed_out video_id audio_bitrate
                 video_quality audio_codec video_codec include_video include_audio c)
     = Raise (rethrown "Error getting unified streams: " e)).
Proof.
  intros [c1 [tf Hfetch]]%value_of_raises.
  split; [|split].
  - intros quality. unfold get_video_streams, try_except.
    rewrite bind_log_debug. cbv beta.
    rewrite (bind_raise_eq _ _ _ _ _ _ Hfetch). cbn [fst snd].
    apply try_handler_value.
  - intros bitrate codec. unfold get_audio_streams, try_except.
    rewrite bind_log_debug. cbv beta.
    rewrite (bind_raise_eq _ _ _ _ _ _ Hfetch). cbn [fst snd].
    apply try_handler_value.
  - intros timed_out audio_bitrate video_quality audio_codec video_codec include_video
      include_audio Hflags.
    unfold get_unified_streams, try_except.
    replace (negb include_video && negb include_audio) with false
      by (by destruct include_video, include_audio).
    rewrite bind_log_debug. cbv beta.
    rewrite (bind_raise_eq _ _ _ _ _ _ Hfetch). cbn [fst snd].
    apply try_handler_value.
Qed.

(** X6.  A failed fetch decides the failure of the operation that asked
    for it: when [_get_ytdlp_info] raises, each public stream operation
    raises the same download error, or a [ValueError] whose message is
    the operation's prefix followed by the message of the exception. *)
Theorem fetch_failure_propagates self provider video_id c e :
  value_of (_get_ytdlp_info self provider video_id c) = Raise e ->
  (∀ quality,
     value_of (get_video_streams self provider video_id quality c)
     = Raise (rethrown "Error getting video streams: " e)) ∧
  (∀ bitrate codec,
     value_of (get_audio_streams self provider video_id bitrate codec c)
     = Raise (rethrown "Error getting audio streams: " e)) ∧
  (∀ timed_out audio_bitrate video_quality audio_codec video_codec include_video
     include_audio,
     include_video || include_audio = true ->
     value_of (get_unified_streams self provider timed_out video_id audio_bitrate
                 video_quality audio_codec video_codec include_video include_audio c)
     = Raise (rethrown "Error getting unified streams: " e)).
Proof. apply fetch_raise_propagates. Qed.

Lemma fetch_failure_propagates_witness :
  value_of (get_audio_streams (create_optimized_extractor false)
              (fun _ => Throws DownloadError "Video unavailable") "id" 192 None [])
  = Raise (Exn DownloadError [Str "Video unavailable"]).
Proof.
  refine (proj1 (proj2 (fetch_failure_propagates (create_optimized_extractor false)
                          (fun _ => Throws DownloadError "Video unavailable") "id"%string []
                          (Exn DownloadError [Str "Video unavailable"]) _)) 192 None).
  vm_compute. reflexivity.
Defined.

(** ** What the operations put on the trace *)

Lemma sum_list_append (l1 l2 : list nat) :
  sum_list (l1 ++ l2) = (sum_list l1 + sum_list l2)%nat.
Proof. induction l1 as [|n l1 IH]; simpl; lia. Qed.

Lemma weight_app w t1 t2 : weight w (t1 ++ t2) = (weight w t1 + weight w t2)%nat.
Proof. unfold weight. by rewrite fmap_app, sum_list_append. Qed.

Lemma provider_calls_weight t : provider_calls t = weight is_provider_call t.
Proof.
  unfold provider_calls, weight, fmap. induction t as [|[] t IH]; simpl; lia.
Qed.

Section WeightedTrace.
Context (self : extractor) (w : event -> nat) (wx : nat).
Hypothesis w_warning : ∀ m, w (Print WARNING m) = 0%nat.
Hypothesis w_error : ∀ m, w (Print ERROR m) = 0%nat.
Hypothesis w_debug : ∀ m, debug self = true -> w (Print DEBUG m) = 0%nat.
Hypothesis w_sleep : ∀ d, w (Sleep d) = 0%nat.
Hypothesis w_close : w Close = 0%nat.
Hypothesis w_extract : ∀ video_id flat, (w (ExtractInfo video_id flat) <= wx)%nat.

Lemma bounded_ret {A} (a : A) : bounded w 0 (ret a).
Proof. intros c. simpl. unfold weight. simpl. lia. Qed.

Lemma bounded_raise {A} e : bounded w 0 (raise e : M A).
Proof. intros c. simpl. unfold weight. simpl. lia. Qed.

Lemma bounded_weaken {A} n n' (m : M A) : (n <= n')%nat -> bounded w n m -> bounded w n' m.
Proof. intros Hn Hm c. specialize (Hm c). lia. Qed.

Lemma bounded_bind {A B} n1 n2 (m : M A) (k : A -> M B) :
  bounded w n1 m -> (∀ a, bounded w n2 (k a)) -> bounded w (n1 + n2) (bind m k).
Proof.
  intros Hm Hk c. specialize (Hm c). unfold bind, trace_of in *.
  destruct (m c) as [[[a|e] c1] t1]; simpl in *; [|lia].
  specialize (Hk a c1). destruct (k a c1) as [[r c2] t2]. simpl in *.
  rewrite weight_app. lia.
Qed.

Lemma bounded_try {A} n1 n2 (body : M A) handler :
  bounded w n1 body -> (∀ e, bounded w n2 (handler e)) ->
  bounded w (n1 + n2) (try_except body handler).
Proof.
  intros Hm Hk c. specialize (Hm c). unfold try_except, trace_of in *.
  destruct (body c) as [[[a|e] c1] t1]; simpl in *; [lia|].
  specialize (Hk e c1). destruct (handler e c1) as [[r c2] t2]. simpl in *.
  rewrite weight_app. lia.
Qed.

Lemma bounded_bind_l {A B} n (m : M A) (k : A -> M B) :
  bounded w n m -> (∀ a, bounded w 0 (k a)) -> bounded w n (bind m k).
Proof.
  intros Hm Hk. apply (bounded_weaken (n + 0)); [lia|]. by apply bounded_bind.
Qed.

Lemma bounded_bind_r {A B} n (m : M A) (k : A -> M B) :
  bounded w 0 m -> (∀ a, bounded w n (k a)) -> bounded w n (bind m k).
Proof. intros Hm Hk. by apply (bounded_bind 0 n). Qed.

Lemma bounded_try_l {A} n (body : M A) handler :
  bounded w n body -> (∀ e, bounded w 0 (handler e)) -> bounded w n (try_except body handler).
Proof.
  intros Hm Hk. apply (bounded_weaken (n + 0)); [lia|]. by apply bounded_try.
Qed.

Lemma bounded_log_debug m : bounded w 0 (_log_debug self m).
Proof.
  intros c. unfold _log_debug, emit, ret, weight. destruct (debug self) eqn:Hd; simpl; [|lia].
  rewrite w_debug by done. lia.
Qed.

Lemma bounded_log_warning m : bounded w 0 (_log_warning m).
Proof. intros c. unfold _log_warning, emit, weight. simpl. rewrite w_warning. lia. Qed.

Lemma bounded_log_error m : bounded w 0 (_log_error m).
Proof. intros c. unfold _log_error, emit, weight. simpl. rewrite w_error. lia. Qed.

Lemma bounded_collect {A B} (body : A -> M (option B)) l :
  (∀ x, bounded w 0 (body x)) -> bounded w 0 (collect body l).
Proof.
  intros Hbody. induction l as [|x l IH]; [apply bounded_ret|].
  rewrite collect_cons. apply (bounded_bind 0 0); [done|]. intros r.
  apply (bounded_bind 0 0); [done|]. intros rest. apply bounded_ret.
Qed.

Lemma bounded_lru_cache maxsize body key :
  bounded w 0 (body key) -> bounded w 0 (lru_cache maxsize body key).
Proof.
  intros Hbody c. unfold lru_cache. destruct (cache_lookup key c); [simpl; unfold weight; simpl; lia|].
  specialize (Hbody c). by destruct (body key c) as [[[v|e] c'] t].
Qed.

Ltac quiet :=
  repeat first
    [ apply bounded_ret | apply bounded_raise | apply bounded_log_debug
    | apply bounded_log_warning | apply bounded_log_error
    | apply (bounded_bind 0 0); [|intros ?]
    | apply (bounded_try 0 0); [|intros ?]
    | apply bounded_collect; intros ?
    | match goal with
      | |- bounded _ _ (match ?x with _ => _ end) => destruct x
      | |- bounded _ _ (if ?b then _ else _) => destruct b
      end ].

Lemma bounded_parse_quality quality_str : bounded w 0 (_parse_quality quality_str).
Proof.
  apply bounded_lru_cache. unfold _parse_quality_body, int_. quiet.
Qed.

Lemma bounded_get_video_streams_select quality target l :
  bounded w 0 (get_video_streams_select self quality target l).
Proof. unfold get_video_streams_select, py_min, py_max. quiet. Qed.

Lemma bounded_get_audio_streams_select bitrate codec l :
  bounded w 0 (get_audio_streams_select self bitrate codec l).
Proof.
  unfold get_audio_streams_select, get_audio_streams_filtered, get_audio_streams_closest,
    py_min. quiet.
Qed.

Lemma bounded_prefilter include_video include_audio formats :
  bounded w 0 (prefilter include_video include_audio formats).
Proof.
  induction formats as [|fmt l IH]; simpl; [apply bounded_ret|].
  apply (bounded_bind 0 0).
  { unfold prefilter_entry, gt_zero. quiet. }
  intros picked. apply (bounded_bind 0 0); [done|]. intros rest. apply bounded_ret.
Qed.

Lemma bounded_process_video_streams video_formats video_quality video_codec :
  bounded w 0 (process_video_streams self video_formats video_quality video_codec).
Proof.
  unfold process_video_streams. apply (bounded_try 0 0); [|intros e; quiet].
  apply (bounded_bind 0 0); [quiet|]. intros _.
  destruct video_formats as [|fmt l]; [quiet|].
  apply (bounded_bind 0 0); [apply bounded_parse_quality|]. intros target.
  apply (bounded_bind 0 0).
  { apply bounded_collect. intros x.
    unfold process_video_streams_entry, lower_, subscript_url. quiet. }
  intros video_streams. unfold process_video_streams_select, py_min, py_max. quiet.
Qed.

Lemma bounded_process_audio_streams audio_formats audio_bitrate audio_codec :
  bounded w 0 (process_audio_streams self audio_formats audio_bitrate audio_codec).
Proof.
  unfold process_audio_streams. apply (bounded_try 0 0); [|intros e; quiet].
  apply (bounded_bind 0 0); [quiet|]. intros _.
  destruct audio_formats as [|fmt l]; [quiet|].
  apply (bounded_bind 0 0).
  { apply bounded_collect. intros x.
    unfold process_audio_streams_entry, lower_, subscript_url. quiet. }
  intros audio_streams. unfold process_audio_streams_select, py_min. quiet.
Qed.

Lemma bounded_await_worker include_video include_audio t timed_out worker :
  bounded w 0 worker ->
  bounded w 0 (await_worker self include_video include_audio t timed_out worker).
Proof. intros Hw. unfold await_worker. quiet; done. Qed.

Lemma bounded_results include_video include_audio timed_out duration vw aw :
  bounded w 0 vw -> bounded w 0 aw ->
  bounded w 0 (get_unified_streams_results self include_video include_audio timed_out
                 duration vw aw).
Proof.
  intros Hv Ha. unfold get_unified_streams_results.
  quiet; first [apply bounded_await_worker; assumption | apply Hv | apply Ha].
Qed.

Lemma bounded_emit_extract video_id flat : bounded w wx (emit (ExtractInfo video_id flat)).
Proof.
  intros c. unfold emit, weight. simpl. specialize (w_extract video_id flat). lia.
Qed.

Lemma bounded_emit_close : bounded w 0 (emit Close).
Proof. intros c. unfold emit, weight. simpl. rewrite w_close. lia. Qed.

Lemma bounded_emit_sleep d : bounded w 0 (emit (Sleep d)).
Proof. intros c. unfold emit, weight. simpl. rewrite w_sleep. lia. Qed.

Lemma bounded_sleep d : bounded w 0 (sleep d).
Proof. unfold sleep. destruct (Qle_bool 0 d); [apply bounded_emit_sleep|apply bounded_raise]. Qed.

Lemma bounded_fetch_from provider video_id remaining attempt last_error :
  bounded w (remaining * wx) (_get_ytdlp_info_from self provider video_id remaining attempt
                                last_error).
Proof.
  revert attempt last_error. induction remaining as [|n IH]; intros attempt last_error.
  - simpl. unfold raise_object. quiet.
  - cbn [_get_ytdlp_info_from]. apply bounded_bind_r; [quiet|]. intros _.
    change (S n * wx)%nat with (wx + n * wx)%nat.
    apply bounded_bind; [apply bounded_emit_extract|].
    intros _. destruct (provider attempt) as [[info|]|cls msg].
    + apply (bounded_weaken 0); [lia|]. quiet.
    + apply IH.
    + destruct cls;
        try (apply (bounded_weaken 0); [lia|];
             apply (bounded_bind 0 0); [apply bounded_emit_close|intros _; quiet]).
      apply bounded_bind_r; [quiet|]. intros _.
      apply bounded_bind_r; [apply bounded_emit_close|]. intros _.
      apply bounded_bind_r; [|intros _; apply IH].
      destruct (_ <? _); [|quiet].
      apply (bounded_bind 0 0); [quiet|]. intros _. apply bounded_sleep.
Qed.

Lemma bounded_fetch provider video_id :
  bounded w (Z.to_nat (max_retries self) * wx) (_get_ytdlp_info self provider video_id).
Proof. apply bounded_fetch_from. Qed.

Lemma bounded_handler {A} prefix1 prefix2 prefix3 e :
  bounded w 0 (match class_of e with
               | DownloadError => _log_error (prefix1 :: str_of e);; raise e
               | _ => _log_error (prefix2 :: str_of e);;
                      raise (Exn ValueError (prefix3 :: str_of e))
               end : M A).
Proof. quiet. Qed.

Lemma bounded_get_video_streams provider video_id quality :
  bounded w (Z.to_nat (max_retries self) * wx)
    (get_video_streams self provider video_id quality).
Proof.
  unfold get_video_streams.
  apply bounded_try_l; [|intros e; apply bounded_handler].
  apply bounded_bind_r; [quiet|]. intros _.
  apply bounded_bind_l; [apply bounded_fetch|]. intros info.
  destruct (formats info); unfold iter_formats; quiet;
    first [apply bounded_parse_quality | apply bounded_get_video_streams_select].
Qed.

Lemma bounded_get_audio_streams provider video_id bitrate codec :
  bounded w (Z.to_nat (max_retries self) * wx)
    (get_audio_streams self provider video_id bitrate codec).
Proof.
  unfold get_audio_streams.
  apply bounded_try_l; [|intros e; apply bounded_handler].
  apply bounded_bind_r; [quiet|]. intros _.
  apply bounded_bind_l; [apply bounded_fetch|]. intros info.
  destruct (formats info); unfold iter_formats; quiet;
    apply bounded_get_audio_streams_select.
Qed.

Lemma bounded_get_unified_streams provider timed_out video_id audio_bitrate video_quality
    audio_codec video_codec include_video include_audio :
  bounded w (Z.to_nat (max_retries self) * wx)
    (get_unified_streams self provider timed_out video_id audio_bitrate video_quality
       audio_codec video_codec include_video include_audio).
Proof.
  unfold get_unified_streams.
  destruct (negb include_video && negb include_audio).
  { apply (bounded_weaken 0); [lia|]. quiet. }
  apply bounded_try_l; [|intros e; apply bounded_handler].
  apply bounded_bind_r; [quiet|]. intros _.
  apply bounded_bind_l; [apply bounded_fetch|]. intros info.
  destruct (get_or (formats info) []) as [[|fmt l]|]; [quiet| |quiet].
  apply (bounded_bind 0 0); [apply bounded_prefilter|]. intros candidates.
  apply bounded_results;
    [apply bounded_process_video_streams | apply bounded_process_audio_streams].
Qed.

Lemma bounded_check_status probe video_id :
  bounded w wx (check_status self probe video_id).
Proof.
  unfold check_status. apply bounded_bind_r; [quiet|]. intros _.
  apply bounded_bind_l; [apply bounded_emit_extract|].
  intros _. destruct probe as [[info|]|[] msg]; quiet.
Qed.
End WeightedTrace.

Lemma weight_zero w t e : weight w t = 0%nat -> e ∈ t -> w e = 0%nat.
Proof.
  unfold weight, fmap. induction t as [|e' t IH]; simpl; intros Hw Hin.
  - by apply elem_of_nil in Hin.
  - apply elem_of_cons in Hin as [->|Hin]; [lia|]. apply IH; [lia|done].
Qed.

Lemma debug_off_bound {A} self (m : M A) c msg :
  bounded is_debug_print (Z.to_nat (max_retries self) * 0) m ->
  Print DEBUG msg ∉ trace_of (m c).
Proof.
  intros Hb Hin. specialize (Hb c). rewrite Nat.mul_0_r in Hb.
  assert (Hw : weight is_debug_print (trace_of (m c)) = 0%nat) by lia.
  by pose proof (weight_zero _ _ _ Hw Hin).
Qed.

(** X7.  The debug flag gates every debug diagnostic: an extractor made
    with [debug=False] prints no debug message in any public operation,
    whatever the provider and the workers do. *)
Theorem debug_off_is_silent self :
  debug self = false ->
  (∀ probe video_id c msg,
     Print DEBUG msg ∉ trace_of (check_status self probe video_id c)) ∧
  (∀ provider video_id quality c msg,
     Print DEBUG msg ∉ trace_of (get_video_streams self provider video_id quality c)) ∧
  (∀ provider video_id bitrate codec c msg,
     Print DEBUG msg ∉ trace_of (get_audio_streams self provider video_id bitrate codec c)) ∧
  (∀ provider timed_out video_id audio_bitrate video_quality audio_codec video_codec
     include_video include_audio c msg,
     Print DEBUG msg ∉
       trace_of (get_unified_streams self provider timed_out video_id audio_bitrate
                   video_quality audio_codec video_codec include_video include_audio c)).
Proof.
  intros Hoff.
  assert (Hd : ∀ m, debug self = true -> is_debug_print (Print DEBUG m) = 0%nat).
  { intros m Hon. by rewrite Hoff in Hon. }
  split; [|split; [|split]].
  - intros probe video_id c msg Hin.
    assert (Hb : bounded is_debug_print 0 (check_status self probe video_id))
      by (apply bounded_check_status; try done; intros; simpl; lia).
    specialize (Hb c).
    assert (Hw : weight is_debug_print (trace_of (check_status self probe video_id c)) = 0%nat)
      by lia.
    by pose proof (weight_zero _ _ _ Hw Hin).
  - intros provider video_id quality c msg. apply (debug_off_bound self).
    apply bounded_get_video_streams; try done; intros; simpl; lia.
  - intros provider video_id bitrate codec c msg. apply (debug_off_bound self).
    apply bounded_get_audio_streams; try done; intros; simpl; lia.
  - intros provider timed_out video_id audio_bitrate video_quality audio_codec video_codec
      include_video include_audio c msg. apply (debug_off_bound self).
    apply bounded_get_unified_streams; try done; intros; simpl; lia.
Qed.

Lemma debug_off_is_silent_witness :
  Print DEBUG [Lit "Getting video streams for: "; Str "id"; Lit ", quality: "; Str "1080p"]
  ∉ trace_of (get_video_streams (create_optimized_extractor false) (serving two_formats)
                "id" "1080p" []).
Proof.
  apply (proj1 (proj2 (debug_off_is_silent (create_optimized_extractor false) eq_refl))).
Defined.

(** X8.  One fetch per operation: [get_video_streams],
    [get_audio_streams] and [get_unified_streams] call the provider at
    most [max_retries] times in all (the two workers of the unified call
    share the one fetch and call nothing), and [check_status] calls it
    exactly once, without any retry. *)
Theorem provider_calls_per_operation self :
  (∀ provider video_id quality c,
     (provider_calls (trace_of (get_video_streams self provider video_id quality c))
      <= Z.to_nat (max_retries self))%nat) ∧
  (∀ provider video_id bitrate codec c,
     (provider_calls (trace_of (get_audio_streams self provider video_id bitrate codec c))
      <= Z.to_nat (max_retries self))%nat) ∧
  (∀ provider timed_out video_id audio_bitrate video_quality audio_codec video_codec
     include_video include_audio c,
     (provider_calls
        (trace_of (get_unified_streams self provider timed_out video_id audio_bitrate
                     video_quality audio_codec video_codec include_video include_audio c))
      <= Z.to_nat (max_retries self))%nat) ∧
  (∀ probe video_id c,
     provider_calls (trace_of (check_status self probe video_id c)) = 1%nat).
Proof.
  assert (Hx : ∀ (video_id : string) (flat : bool),
            (is_provider_call (ExtractInfo video_id flat) <= 1)%nat) by (intros; simpl; lia).
  split; [|split; [|split]].
  - intros provider video_id quality c. rewrite provider_calls_weight.
    assert (Hb : bounded is_provider_call (Z.to_nat (max_retries self) * 1)
                   (get_video_streams self provider video_id quality))
      by (apply bounded_get_video_streams; done).
    specialize (Hb c). lia.
  - intros provider video_id bitrate codec c. rewrite provider_calls_weight.
    assert (Hb : bounded is_provider_call (Z.to_nat (max_retries self) * 1)
                   (get_audio_streams self provider video_id bitrate codec))
      by (apply bounded_get_audio_streams; done).
    specialize (Hb c). lia.
  - intros provider timed_out video_id audio_bitrate video_quality audio_codec video_codec
      include_video include_audio c. rewrite provider_calls_weight.
    assert (Hb : bounded is_provider_call (Z.to_nat (max_retries self) * 1)
                   (get_unified_streams self provider timed_out video_id audio_bitrate
                      video_quality audio_codec video_codec include_video include_audio))
      by (apply bounded_get_unified_streams; done).
    specialize (Hb c). lia.
  - intros probe video_id c. unfold check_status, provider_calls. run.
    by destruct probe as [[info|]|[] msg], (debug self).
Qed.

(** ** An extractor without attempts *)

(** X9.  An extractor configured with [max_retries <= 0] retrieves
    nothing.  The retry loop does not run, so [_get_ytdlp_info] ends in
    the [TypeError] of [raise None]; every stream operation turns it
    into a [ValueError] with its own prefix, and none of them calls the
    provider. *)
Theorem no_attempts_no_streams self provider video_id c :
  max_retries self <= 0 ->
  value_of (_get_ytdlp_info self provider video_id c)
  = Raise (Exn TypeError [Lit "exceptions must derive from BaseException"])
  ∧ (∀ quality,
       value_of (get_video_streams self provider video_id quality c)
       = Raise (Exn ValueError [Lit "Error getting video streams: ";
                                Lit "exceptions must derive from BaseException"])
       ∧ provider_calls (trace_of (get_video_streams self provider video_id quality c))
         = 0%nat)
  ∧ (∀ bitrate codec,
       value_of (get_audio_streams self provider video_id bitrate codec c)
       = Raise (Exn ValueError [Lit "Error getting audio streams: ";
                                Lit "exceptions must derive from BaseException"])
       ∧ provider_calls (trace_of (get_audio_streams self provider video_id bitrate codec c))
         = 0%nat)
  ∧ (∀ timed_out audio_bitrate video_quality audio_codec video_codec include_video
       include_audio,
       include_video || include_audio = true ->
       value_of (get_unified_streams self provider timed_out video_id audio_bitrate
                   video_quality audio_codec video_codec include_video include_audio c)
       = Raise (Exn ValueError [Lit "Error getting unified streams: ";
                                Lit "exceptions must derive from BaseException"])
       ∧ provider_calls
           (trace_of (get_unified_streams self provider timed_out video_id audio_bitrate
                        video_quality audio_codec video_codec include_video include_audio
                        c))
         = 0%nat).
Proof.
  intros Hmr.
  assert (Hfetch : value_of (_get_ytdlp_info self provider video_id c)
                   = Raise (Exn TypeError [Lit "exceptions must derive from BaseException"])).
  { unfold _get_ytdlp_info. by replace (Z.to_nat (max_retries self)) with 0%nat by lia. }
  destruct (fetch_raise_propagates self provider video_id c _ Hfetch)
    as (Hvideo & Haudio & Hunified).
  assert (Hx : ∀ (video_id : string) (flat : bool),
            (is_provider_call (ExtractInfo video_id flat) <= 1)%nat) by (intros; simpl; lia).
  split; [done|]. split; [|split].
  - intros quality. split; [by rewrite Hvideo|]. rewrite provider_calls_weight.
    assert (Hb : bounded is_provider_call (Z.to_nat (max_retries self) * 1)
                   (get_video_streams self provider video_id quality))
      by (apply bounded_get_video_streams; done).
    specialize (Hb c). lia.
  - intros bitrate codec. split; [by rewrite Haudio|]. rewrite provider_calls_weight.
    assert (Hb : bounded is_provider_call (Z.to_nat (max_retries self) * 1)
                   (get_audio_streams self provider video_id bitrate codec))
      by (apply bounded_get_audio_streams; done).
    specialize (Hb c). lia.
  - intros timed_out audio_bitrate video_quality audio_codec video_codec include_video
      include_audio Hflags. split; [by rewrite Hunified|]. rewrite provider_calls_weight.
    assert (Hb : bounded is_provider_call (Z.to_nat (max_retries self) * 1)
                   (get_unified_streams self provider timed_out video_id audio_bitrate
                      video_quality audio_codec video_codec include_video include_audio))
      by (apply bounded_get_unified_streams; done).
    specialize (Hb c). lia.
Qed.

Lemma no_attempts_no_streams_witness :
  value_of (get_video_streams {| max_retries := 0; retry_delay := 1 # 2; debug := false |}
              (serving two_formats) "id" "1080p" [])
  = Raise (Exn ValueError [Lit "Error getting video streams: ";
                           Lit "exceptions must derive from BaseException"]).
Proof.
  apply (proj1 (proj2 (no_attempts_no_streams
                         {| max_retries := 0; retry_delay := 1 # 2; debug := false |}
                         (serving two_formats) "id"%string [] ltac:(simpl; lia)))).
Defined.

(** ** Where a returned stream comes from *)

Lemma returns_log_debug {A} self msg (k : M A) c a :
  returns (_log_debug self msg;; k) c a -> returns k c a.
Proof.
  unfold returns. rewrite bind_log_debug. destruct (k c) as [[r c'] t]; simpl.
  intros (c'' & t' & [= -> -> _]). eauto.
Qed.

Lemma get_video_streams_select_one self quality target l c streams :
  returns (get_video_streams_select self quality target l) c streams ->
  ∃ s, streams = [s] ∧ s ∈ l.
Proof.
  unfold get_video_streams_select.
  destruct l as [|s0 l0]; [by intros ?%returns_raise|]. cbv iota.
  destruct (List.filter (height_is target) (s0 :: l0)) as [|e exact] eqn:Hf;
    intros (best & c1 & Hbest & Hr)%returns_bind;
    apply returns_bind in Hr as (u & c2 & Hlog & Hret);
    apply returns_ret in Hret; subst streams; exists best; (split; [done|]).
  - by apply returns_py_min in Hbest.
  - apply returns_py_max in Hbest. rewrite <- Hf in Hbest. by apply in_filter in Hbest.
Qed.

Lemma process_video_streams_select_one self video_codec video_formats target l c streams :
  returns (process_video_streams_select self video_codec video_formats target l) c streams ->
  ∃ s, streams = [s] ∧ s ∈ l.
Proof.
  unfold process_video_streams_select.
  destruct l as [|s0 l0]; [by intros ?%returns_raise|]. cbv iota.
  intros (best & c1 & Hbest & Hret)%returns_bind.
  apply returns_ret in Hret; subst streams. exists best. split; [done|].
  destruct (List.filter (height_is target) (s0 :: l0)) as [|e exact] eqn:Hf;
    apply returns_bind in Hbest as (best' & c2 & Hbest & Hr);
    apply returns_bind in Hr as (u & c3 & Hlog & Hret);
    apply returns_ret in Hret; subst best'.
  - by apply returns_py_min in Hbest.
  - apply returns_py_max in Hbest. rewrite <- Hf in Hbest. by apply in_filter in Hbest.
Qed.

Lemma get_audio_streams_filtered_returns self codec l c kept :
  returns (get_audio_streams_filtered self codec l) c kept ->
  (kept = l
   ∧ (truthy_str codec = true ->
      List.filter (get_audio_streams_filter (default EmptyString codec)) l = []))
  ∨ (truthy_str codec = true
     ∧ kept = List.filter (get_audio_streams_filter (default EmptyString codec)) l).
Proof.
  unfold get_audio_streams_filtered.
  destruct (truthy_str codec); [|intros <-%returns_ret; by left].
  destruct (List.filter _ l) as [|e kept'] eqn:Hf;
    intros (u & c2 & Hlog & Hret)%returns_bind; apply returns_ret in Hret; subst kept;
    [by left|by right].
Qed.

Lemma filter_nil_all {A} (P : A -> bool) l x : List.filter P l = [] -> x ∈ l -> P x = false.
Proof.
  intros Hf Hx. destruct (P x) eqn:HP; [|done].
  assert (Hin : In x (List.filter P l)) by (apply filter_In; by rewrite <- list_elem_of_In).
  by rewrite Hf in Hin.
Qed.

Lemma in_filter_pass {A} (P : A -> bool) x l : x ∈ List.filter P l -> P x = true.
Proof. rewrite list_elem_of_In, filter_In. tauto. Qed.

Lemma get_audio_streams_select_one self bitrate codec l c streams :
  returns (get_audio_streams_select self bitrate codec l) c streams ->
  ∃ s kept c', streams = [s] ∧ s ∈ kept
               ∧ returns (get_audio_streams_filtered self codec l) c' kept.
Proof.
  unfold get_audio_streams_select.
  destruct l as [|s0 l0]; [by intros ?%returns_raise|]. cbv iota.
  intros (kept & c1 & Hkept & Hr)%returns_bind.
  unfold get_audio_streams_closest in Hr.
  apply returns_bind in Hr as (best & c2 & Hbest & Hr). apply returns_py_min in Hbest.
  apply returns_bind in Hr as (u & c3 & Hlog & Hret).
  apply returns_ret in Hret; subst streams. by exists best, kept, c.
Qed.

Lemma process_audio_streams_select_one self audio_codec audio_formats bitrate l c streams :
  returns (process_audio_streams_select self audio_codec audio_formats bitrate l) c streams ->
  ∃ s, streams = [s] ∧ s ∈ l.
Proof.
  unfold process_audio_streams_select.
  destruct l as [|s0 l0]; [by intros ?%returns_raise|]. cbv iota.
  intros (best & c1 & Hbest & Hr)%returns_bind. apply returns_py_min in Hbest.
  apply returns_bind in Hr as (u & c2 & Hlog & Hret).
  apply returns_ret in Hret; subst streams. by exists best.
Qed.

Lemma get_video_streams_provenance self provider video_id quality c streams :
  returns (get_video_streams self provider video_id quality) c streams ->
  ∃ info fmts fmt s,
    returns (_get_ytdlp_info self provider video_id) c info
    ∧ formats info = Has fmts ∧ fmt ∈ fmts
    ∧ get_video_streams_entry fmt = Some s ∧ streams = [s].
Proof.
  unfold get_video_streams.
  intros [Hbody|(e & c' & Hh)]%returns_try_except; [|by apply returns_outer_handler in Hh].
  apply returns_log_debug in Hbody.
  apply returns_bind in Hbody as (info & c2 & Hfetch & Hr).
  destruct (formats info) as [| |fmts] eqn:Hf; [by apply returns_raise in Hr|..];
    apply returns_bind in Hr as (target & c3 & _ & Hr);
    apply returns_bind in Hr as (fmts' & c4 & Hiter & Hsel);
    [by apply returns_raise in Hiter|].
  apply returns_ret in Hiter. subst fmts'.
  apply get_video_streams_select_one in Hsel as (s & -> & Hs).
  apply elem_of_omap_entry in Hs as (fmt & Hin & Hentry).
  by exists info, fmts, fmt, s.
Qed.

Lemma get_audio_streams_provenance self provider video_id bitrate codec c streams :
  returns (get_audio_streams self provider video_id bitrate codec) c streams ->
  ∃ info fmts fmt s,
    returns (_get_ytdlp_info self provider video_id) c info
    ∧ formats info = Has fmts ∧ fmt ∈ fmts
    ∧ get_audio_streams_entry fmt = Some s ∧ streams = [s]
    ∧ (truthy_str codec = true ->
       get_audio_streams_filter (default EmptyString codec) s = true
       ∨ ∀ s', s' ∈ omap get_audio_streams_entry fmts ->
               get_audio_streams_filter (default EmptyString codec) s' = false).
Proof.
  unfold get_audio_streams.
  intros [Hbody|(e & c' & Hh)]%returns_try_except; [|by apply returns_outer_handler in Hh].
  apply returns_log_debug in Hbody.
  apply returns_bind in Hbody as (info & c2 & Hfetch & Hr).
  destruct (formats info) as [| |fmts] eqn:Hf; [by apply returns_raise in Hr|..];
    apply returns_bind in Hr as (fmts' & c4 & Hiter & Hsel);
    [by apply returns_raise in Hiter|].
  apply returns_ret in Hiter. subst fmts'.
  apply get_audio_streams_select_one in Hsel as (s & kept & c5 & -> & Hs & Hkept).
  apply get_audio_streams_filtered_returns in Hkept as [[-> Hnone]|[Hc ->]].
  - pose proof Hs as Hs'. apply elem_of_omap_entry in Hs' as (fmt & Hin & Hentry).
    exists info, fmts, fmt, s. repeat (split; [done|]). intros Hc. right.
    intros s' Hs'. by eapply filter_nil_all; [apply Hnone|].
  - pose proof (in_filter_pass _ _ _ Hs) as Hpass. apply in_filter in Hs.
    apply elem_of_omap_entry in Hs as (fmt & Hin & Hentry).
    exists info, fmts, fmt, s. repeat (split; [done|]). intros _. by left.
Qed.

Lemma Qltb_pos q : Qltb 0 q = true -> (0 < q)%Q.
Proof.
  unfold Qltb. rewrite negb_true_iff. intros H. apply Qnot_le_lt. intros Hle.
  apply Qle_bool_iff in Hle. congruence.
Qed.

Lemma real_codec_of (v : option string) :
  negb (truthy_str v) || bool_decide (v = Some "none"%string) = false ->
  ∃ codec, v = Some codec ∧ codec ≠ EmptyString ∧ codec ≠ "none"%string.
Proof.
  intros [Ht Hn]%orb_false_iff. apply negb_false_iff, truthy_str_nonempty in Ht.
  destruct Ht as (codec & -> & Hne). exists codec. split; [done|]. split; [done|].
  intros ->. by rewrite bool_decide_eq_false in Hn.
Qed.

Lemma get_video_streams_entry_codec fmt s :
  get_video_streams_entry fmt = Some s -> real_codec s.
Proof.
  unfold get_video_streams_entry, real_codec.
  destruct (negb (truthy_str (get (vcodec fmt))) || _) eqn:Hc; [done|].
  destruct (negb (truthy_str (get_or (url fmt) EmptyString)) || _); [done|].
  intros [= <-]. simpl. by apply real_codec_of.
Qed.

Lemma get_audio_streams_entry_codec fmt s :
  get_audio_streams_entry fmt = Some s -> real_codec s ∧ positive_bitrate s.
Proof.
  unfold get_audio_streams_entry, real_codec, positive_bitrate.
  destruct (negb (truthy_str (get (acodec fmt))) || _) eqn:Hc; [done|].
  destruct (negb (truthy_float (get_or (tbr fmt) 0%Q)) || _) eqn:Hb; [done|].
  destruct (negb (truthy_str (get_or (url fmt) EmptyString))); [done|].
  intros [= <-]. simpl. split; [by apply real_codec_of|].
  apply orb_false_iff in Hb as [Ht Hle]. apply negb_false_iff in Ht.
  destruct (get_or (tbr fmt) 0%Q) as [q|]; [|done]. exists q. split; [done|].
  simpl in Hle. apply Qnot_le_lt. intros Hq. apply Qle_bool_iff in Hq. congruence.
Qed.

(** What the pre-filter demands of a video and of an audio candidate. *)
Lemma prefilter_entry_candidate include_video include_audio fmt c v a :
  returns (prefilter_entry include_video include_audio fmt) c (v, a) ->
  (v = true ->
   include_video = true
   ∧ (∃ codec, vcodec fmt = Has codec ∧ codec ≠ EmptyString ∧ codec ≠ "none"%string)
   ∧ ∃ u, url fmt = Has u ∧ Py.contains "videoplayback" u = true)
  ∧ (a = true ->
     include_audio = true
     ∧ (∃ codec, acodec fmt = Has codec ∧ codec ≠ EmptyString ∧ codec ≠ "none"%string)
     ∧ ∃ q, get_or (tbr fmt) 0%Q = Some q ∧ (0 < q)%Q).
Proof.
  unfold prefilter_entry.
  destruct (negb (truthy_str (get_or (url fmt) EmptyString))) eqn:Hu.
  { intros [= <- <-]%returns_ret. by split. }
  apply negb_false_iff, truthy_str_nonempty in Hu as (u & Hu & Hne).
  assert (Hurl : url fmt = Has u).
  { destruct (url fmt); simpl in Hu; congruence. }
  rewrite Hu. simpl default.
  intros (is_audio & c1 & Haudio & [= <- <-]%returns_ret)%returns_bind. split.
  - intros Hv. repeat (apply andb_true_iff in Hv as [Hv ?]). split; [done|]. split; [|eauto].
    destruct (real_codec_of (get (vcodec fmt))) as (codec & Hcodec & ? & ?).
    { apply orb_false_iff. split; [by apply negb_false_iff|by apply negb_true_iff]. }
    exists codec. destruct (vcodec fmt); simpl in Hcodec; [done|done|]. by simplify_eq.
  - intros ->.
    destruct (include_audio && truthy_str (get (acodec fmt))
              && negb (bool_decide (get (acodec fmt) = Some "none"%string))) eqn:Hc;
      [|by apply returns_ret in Haudio].
    repeat (apply andb_true_iff in Hc as [Hc ?]). split; [done|]. split.
    + destruct (real_codec_of (get (acodec fmt))) as (codec & Hcodec & ? & ?).
      { apply orb_false_iff. split; [by apply negb_false_iff|by apply negb_true_iff]. }
      exists codec. destruct (acodec fmt); simpl in Hcodec; [done|done|]. by simplify_eq.
    + unfold gt_zero in Haudio. destruct (get_or (tbr fmt) 0%Q) as [q|];
        [|by apply returns_raise in Haudio].
      apply returns_ret in Haudio. exists q. split; [done|]. by apply Qltb_pos.
Qed.

Lemma prefilter_candidates include_video include_audio fmts c video_formats audio_formats :
  returns (prefilter include_video include_audio fmts) c (video_formats, audio_formats) ->
  Forall (fun fmt =>
            include_video = true
            ∧ (∃ codec, vcodec fmt = Has codec ∧ codec ≠ EmptyString ∧ codec ≠ "none"%string)
            ∧ ∃ u, url fmt = Has u ∧ Py.contains "videoplayback" u = true) video_formats
  ∧ Forall (fun fmt =>
              include_audio = true
              ∧ (∃ codec, acodec fmt = Has codec ∧ codec ≠ EmptyString
                          ∧ codec ≠ "none"%string)
              ∧ ∃ q, get_or (tbr fmt) 0%Q = Some q ∧ (0 < q)%Q) audio_formats.
Proof.
  revert c video_formats audio_formats.
  induction fmts as [|fmt l IH]; intros c vf af; simpl.
  - intros [= <- <-]%returns_ret. by split.
  - intros ([v a] & c1 & Hentry & Hr)%returns_bind.
    apply returns_bind in Hr as ([vf' af'] & c2 & Hrest & Hret).
    apply returns_ret in Hret. simpl in Hret. injection Hret as <- <-.
    destruct (IH _ _ _ Hrest) as [Hvf Haf].
    destruct (prefilter_entry_candidate _ _ _ _ _ _ Hentry) as [Hv Ha].
    split.
    + destruct v; [constructor; auto|done].
    + destruct a; [constructor; auto|done].
Qed.

Lemma process_video_streams_entry_returns video_codec fmt c s :
  returns (process_video_streams_entry video_codec fmt) c (Some s) ->
  s_url s = get (url fmt) ∧ s_codec s = get_or (vcodec fmt) EmptyString
  ∧ (truthy_str video_codec = true ->
     ∃ token codec, video_codec = Some token ∧ s_codec s = Some codec
                    ∧ video_codec_match (Py.lower token) (Py.lower codec) = true).
Proof.
  unfold process_video_streams_entry.
  intros (codec_match & c1 & Hmatch & Hr)%returns_bind.
  destruct codec_match; simpl negb in Hr; cbv iota in Hr; [|by apply returns_ret in Hr].
  apply returns_bind in Hr as (u & c2 & Hu & Hret).
  apply returns_ret in Hret. injection Hret as <-. simpl. split; [|split; [done|]].
  - unfold subscript_url in Hu. destruct (url fmt); [by apply returns_raise in Hu|..];
      by apply returns_ret in Hu.
  - intros Ht. rewrite Ht in Hmatch.
    apply returns_bind in Hmatch as (codec_lower & c3 & Hcl & Hmatch).
    apply returns_bind in Hmatch as (vcodec_lower & c4 & Hvl & Hmatch).
    apply returns_ret in Hmatch.
    destruct video_codec as [token|]; [|done].
    destruct (get_or (vcodec fmt) EmptyString) as [codec|]; [|by apply returns_raise in Hvl].
    apply returns_ret in Hcl, Hvl. subst. by exists token, codec.
Qed.

Lemma process_audio_streams_entry_returns audio_codec fmt c s :
  returns (process_audio_streams_entry audio_codec fmt) c (Some s) ->
  s_url s = get (url fmt) ∧ s_codec s = get_or (acodec fmt) EmptyString
  ∧ s_bitrate s = get_or (tbr fmt) 0%Q
  ∧ (truthy_str audio_codec = true ->
     ∃ token codec, audio_codec = Some token ∧ s_codec s = Some codec
                    ∧ audio_codec_match (Py.lower token) (Py.lower codec) = true).
Proof.
  unfold process_audio_streams_entry.
  intros (codec_match & c1 & Hmatch & Hr)%returns_bind.
  destruct codec_match; simpl negb in Hr; cbv iota in Hr; [|by apply returns_ret in Hr].
  apply returns_bind in Hr as (u & c2 & Hu & Hret).
  apply returns_ret in Hret. injection Hret as <-. simpl.
  split; [|split; [done|split; [done|]]].
  - unfold subscript_url in Hu. destruct (url fmt); [by apply returns_raise in Hu|..];
      by apply returns_ret in Hu.
  - intros Ht. rewrite Ht in Hmatch.
    apply returns_bind in Hmatch as (codec_lower & c3 & Hcl & Hmatch).
    apply returns_bind in Hmatch as (acodec_lower & c4 & Hal & Hmatch).
    apply returns_ret in Hmatch.
    destruct audio_codec as [token|]; [|done].
    destruct (get_or (acodec fmt) EmptyString) as [codec|]; [|by apply returns_raise in Hal].
    apply returns_ret in Hcl, Hal. subst. by exists token, codec.
Qed.

Lemma process_video_streams_provenance self video_formats video_quality video_codec c
    streams :
  returns (process_video_streams self video_formats video_quality video_codec) c streams ->
  ∃ s fmt c', streams = [s] ∧ fmt ∈ video_formats
              ∧ returns (process_video_streams_entry video_codec fmt) c' (Some s).
Proof.
  unfold process_video_streams.
  intros [Hbody|(e & c' & Hh)]%returns_try_except;
    [|by apply returns_log_then_raise in Hh].
  apply returns_log_debug in Hbody.
  destruct video_formats as [|fmt0 l0] eqn:Hvf; [by apply returns_raise in Hbody|].
  rewrite <- Hvf in *. clear Hvf.
  apply returns_bind in Hbody as (target & c2 & _ & Hr).
  apply returns_bind in Hr as (video_streams & c3 & Hcollect & Hsel).
  apply process_video_streams_select_one in Hsel as (s & -> & Hs).
  destruct (returns_collect _ _ _ _ Hcollect s Hs) as (fmt & c4 & Hin & Hentry).
  by exists s, fmt, c4.
Qed.

Lemma process_audio_streams_provenance self audio_formats audio_bitrate audio_codec c
    streams :
  returns (process_audio_streams self audio_formats audio_bitrate audio_codec) c streams ->
  ∃ s fmt c', streams = [s] ∧ fmt ∈ audio_formats
              ∧ returns (process_audio_streams_entry audio_codec fmt) c' (Some s).
Proof.
  unfold process_audio_streams.
  intros [Hbody|(e & c' & Hh)]%returns_try_except;
    [|by apply returns_log_then_raise in Hh].
  apply returns_log_debug in Hbody.
  destruct audio_formats as [|fmt0 l0] eqn:Haf; [by apply returns_raise in Hbody|].
  rewrite <- Haf in *. clear Haf.
  apply returns_bind in Hbody as (audio_streams & c3 & Hcollect & Hsel).
  apply process_audio_streams_select_one in Hsel as (s & -> & Hs).
  destruct (returns_collect _ _ _ _ Hcollect s Hs) as (fmt & c4 & Hin & Hentry).
  by exists s, fmt, c4.
Qed.

(** A branch that returns the empty list was rescued by the other
    branch being requested. *)
Lemma await_worker_returns_or_rescued self include_video include_audio t timed_out worker
    c streams :
  returns (await_worker self include_video include_audio t timed_out worker) c streams ->
  (streams = [] ∧ other_not_requested t include_video include_audio = false)
  ∨ returns worker c streams.
Proof.
  intros (c' & tr & Hrun).
  destruct (await_worker_run self include_video include_audio t timed_out worker c)
    as (tr' & Heq).
  rewrite Heq in Hrun. destruct timed_out.
  - destruct (other_not_requested _ _ _); [done|]. injection Hrun as <- _ _. by left.
  - unfold returns. destruct (worker c) as [[[ws|e] c1] t1].
    + injection Hrun as <- _ _. right. eauto.
    + destruct (other_not_requested _ _ _); [done|]. injection Hrun as <- _ _. by left.
Qed.

(** The parts of a unified call that returns. *)
Lemma get_unified_streams_returns self provider timed_out video_id audio_bitrate
    video_quality audio_codec video_codec include_video include_audio c r :
  returns (get_unified_streams self provider timed_out video_id audio_bitrate video_quality
             audio_codec video_codec include_video include_audio) c r ->
  include_video || include_audio = true
  ∧ ∃ info fmts video_formats audio_formats c1 c2,
      returns (_get_ytdlp_info self provider video_id) c info
      ∧ get_or (formats info) [] = Some fmts
      ∧ returns (prefilter include_video include_audio fmts) c1 (video_formats, audio_formats)
      ∧ returns (get_unified_streams_results self include_video include_audio timed_out
                   (get_or (duration info) 0)
                   (process_video_streams self video_formats video_quality video_codec)
                   (process_audio_streams self audio_formats audio_bitrate audio_codec))
          c2 r.
Proof.
  unfold get_unified_streams.
  destruct (negb include_video && negb include_audio) eqn:Hflags;
    [by intros ?%returns_raise|].
  intros [Hbody|(e & c' & Hh)]%returns_try_except; [|by apply returns_outer_handler in Hh].
  split; [by destruct include_video, include_audio|].
  apply returns_log_debug in Hbody.
  apply returns_bind in Hbody as (info & c2 & Hfetch & Hr).
  destruct (get_or (formats info) []) as [[|fmt0 fmts]|] eqn:Hf;
    [by apply returns_raise in Hr| |by apply returns_raise in Hr].
  apply returns_bind in Hr as ([video_formats audio_formats] & c3 & Hpre & Hres).
  simpl in Hres. by exists info, (fmt0 :: fmts), video_formats, audio_formats, c2, c3.
Qed.

(** The branches of the merged result. *)
Lemma get_unified_streams_results_branches self include_video include_audio timed_out
    duration vw aw c r :
  returns (get_unified_streams_results self include_video include_audio timed_out duration
             vw aw) c r ->
  r_duration r = duration
  ∧ (if include_video
     then ∃ streams, r_video r = Some streams
                     ∧ ((streams = [] ∧ include_audio = true) ∨ ∃ c', returns vw c' streams)
     else r_video r = None)
  ∧ (if include_audio
     then ∃ streams, r_audio r = Some streams
                     ∧ ((streams = [] ∧ include_video = true) ∨ ∃ c', returns aw c' streams)
     else r_audio r = None)
  ∧ (include_video && include_audio = true ->
     branch_empty (r_video r) && branch_empty (r_audio r) = false).
Proof.
  unfold get_unified_streams_results.
  intros (u1 & c1 & _ & Hr)%returns_bind.
  apply returns_bind in Hr as (u2 & c2 & _ & Hr).
  apply returns_bind in Hr as (video & c3 & Hvideo & Hr).
  apply returns_bind in Hr as (audio & c4 & Haudio & Hr).
  apply returns_bind in Hr as (u3 & c5 & Hcheck & Hr).
  apply returns_bind in Hr as (u4 & c6 & _ & Hret).
  apply returns_ret in Hret. subst r. simpl. split; [done|]. split; [|split].
  - destruct include_video; [|by apply returns_ret in Hvideo].
    apply returns_bind in Hvideo as (streams & c7 & Hawait & Hret).
    apply returns_ret in Hret. subst video. exists streams. split; [done|].
    apply await_worker_returns_or_rescued in Hawait as [[-> Hother]|?]; [left|eauto].
    split; [done|]. by destruct include_audio.
  - destruct include_audio; [|by apply returns_ret in Haudio].
    apply returns_bind in Haudio as (streams & c7 & Hawait & Hret).
    apply returns_ret in Hret. subst audio. exists streams. split; [done|].
    apply await_worker_returns_or_rescued in Hawait as [[-> Hother]|?]; [left|eauto].
    split; [done|]. by destruct include_video.
  - intros Hboth. rewrite <- andb_assoc in Hcheck. rewrite Hboth in Hcheck. simpl in Hcheck.
    destruct (branch_empty video && branch_empty audio); [by apply returns_raise in Hcheck|].
    done.
Qed.

(** X10.  A single-stream operation that returns, returns exactly one
    stream, and that stream is what the loop body builds from one of the
    descriptors of the fetched info. *)
Theorem single_stream_result_provenance self provider video_id c :
  (∀ quality streams,
     value_of (get_video_streams self provider video_id quality c) = Return streams ->
     ∃ info fmts fmt s,
       value_of (_get_ytdlp_info self provider video_id c) = Return info
       ∧ formats info = Has fmts ∧ fmt ∈ fmts
       ∧ get_video_streams_entry fmt = Some s ∧ streams = [s]) ∧
  (∀ bitrate codec streams,
     value_of (get_audio_streams self provider video_id bitrate codec c) = Return streams ->
     ∃ info fmts fmt s,
       value_of (_get_ytdlp_info self provider video_id c) = Return info
       ∧ formats info = Has fmts ∧ fmt ∈ fmts
       ∧ get_audio_streams_entry fmt = Some s ∧ streams = [s]).
Proof.
  split.
  - intros quality streams Hv%value_of_returns.
    apply get_video_streams_provenance in Hv as (info & fmts & fmt & s & Hf & ?).
    apply value_of_returns in Hf. by exists info, fmts, fmt, s.
  - intros bitrate codec streams Hv%value_of_returns.
    apply get_audio_streams_provenance
      in Hv as (info & fmts & fmt & s & Hf & ? & ? & ? & ? & _).
    apply value_of_returns in Hf. by exists info, fmts, fmt, s.
Qed.

Lemma single_stream_result_provenance_witness :
  ∃ s, value_of (get_audio_streams (create_optimized_extractor false) (serving two_formats)
                   "id" 128 None []) = Return [s]
       ∧ ∃ fmt, fmt ∈ two_formats ∧ get_audio_streams_entry fmt = Some s.
Proof.
  destruct (proj2 (single_stream_result_provenance (create_optimized_extractor false)
                     (serving two_formats) "id"%string []) 128 None _ eq_refl)
    as (info & fmts & fmt & s & Hinfo & Hfmts & Hin & Hentry & Hs).
  exists s. split; [by rewrite <- Hs|]. exists fmt. split; [|done].
  vm_compute in Hinfo. injection Hinfo as <-. simpl in Hfmts. by injection Hfmts as <-.
Defined.

(** X11.  The shape of a unified result: a branch has its key exactly
    when it was requested, holds at most one stream, the two branches
    hold at least one stream between them, and the duration is the
    fetched info's ([0] when the key is missing). *)
Theorem unified_result_shape self provider timed_out video_id audio_bitrate video_quality
    audio_codec video_codec include_video include_audio c r :
  value_of (get_unified_streams self provider timed_out video_id audio_bitrate video_quality
              audio_codec video_codec include_video include_audio c) = Return r ->
  (is_Some (r_video r) <-> include_video = true)
  ∧ (is_Some (r_audio r) <-> include_audio = true)
  ∧ (branch_length (r_video r) <= 1)%nat
  ∧ (branch_length (r_audio r) <= 1)%nat
  ∧ (1 <= branch_length (r_video r) + branch_length (r_audio r))%nat
  ∧ ∃ info, value_of (_get_ytdlp_info self provider video_id c) = Return info
            ∧ r_duration r = get_or (duration info) 0.
Proof.
  intros Hv%value_of_returns.
  apply get_unified_streams_returns
    in Hv as (Hflags & info & fmts & vf & af & c1 & c2 & Hfetch & _ & _ & Hres).
  apply get_unified_streams_results_branches in Hres as (Hd & Hvideo & Haudio & Hboth).
  assert (Hvlen : ∀ c' streams,
            returns (process_video_streams self vf video_quality video_codec) c' streams ->
            length streams = 1%nat).
  { intros c' streams (s & ? & ? & -> & _)%process_video_streams_provenance. done. }
  assert (Halen : ∀ c' streams,
            returns (process_audio_streams self af audio_bitrate audio_codec) c' streams ->
            length streams = 1%nat).
  { intros c' streams (s & ? & ? & -> & _)%process_audio_streams_provenance. done. }
  unfold branch_length.
  destruct include_video, include_audio; try discriminate Hflags.
  - destruct Hvideo as (vs & Hvs & Hv), Haudio as (as_ & Has & Ha).
    specialize (Hboth eq_refl). rewrite Hvs, Has in Hboth |- *. simpl default.
    assert (length vs <= 1)%nat.
    { destruct Hv as [[-> _]|[c' Hw]]; [simpl; lia|]. rewrite (Hvlen _ _ Hw). lia. }
    assert (length as_ <= 1)%nat.
    { destruct Ha as [[-> _]|[c' Hw]]; [simpl; lia|]. rewrite (Halen _ _ Hw). lia. }
    repeat split; eauto; try lia.
    + destruct vs, as_; simpl in *; try discriminate Hboth; lia.
    + apply value_of_returns in Hfetch. eauto.
  - destruct Hvideo as (vs & Hvs & Hv). rewrite Hvs, Haudio. simpl default.
    destruct Hv as [[_ [=]]|[c' Hw]]. rewrite (Hvlen _ _ Hw).
    repeat split; eauto; try lia; try (by intros [? [=]]).
    apply value_of_returns in Hfetch. eauto.
  - destruct Haudio as (as_ & Has & Ha). rewrite Has, Hvideo. simpl default.
    destruct Ha as [[_ [=]]|[c' Hw]]. rewrite (Halen _ _ Hw).
    repeat split; eauto; try lia; try (by intros [? [=]]).
    apply value_of_returns in Hfetch. eauto.
Qed.

Lemma unified_result_shape_witness :
  ∃ r, value_of (get_unified_streams (create_optimized_extractor false) (serving two_formats)
                   (fun _ => false) "id" 128 "1080p" None None true true []) = Return r
       ∧ branch_length (r_video r) = 1%nat ∧ branch_length (r_audio r) = 1%nat
       ∧ r_duration r = Some 60.
Proof.
  eexists. split; [vm_compute; reflexivity|].
  pose proof (unified_result_shape (create_optimized_extractor false) (serving two_formats)
                (fun _ => false) "id"%string 128 "1080p"%string None None true true [] _
                eq_refl) as (_ & _ & _ & _ & _ & _).
  by vm_compute.
Defined.

(** X12.  Every returned stream names a codec, and every returned audio
    stream has a positive bitrate: the codec of a stream returned by any
    operation is set, not empty and not ["none"]. *)
Theorem returned_streams_name_a_codec :
  (∀ self provider video_id quality c streams,
     value_of (get_video_streams self provider video_id quality c) = Return streams ->
     Forall real_codec streams) ∧
  (∀ self provider video_id bitrate codec c streams,
     value_of (get_audio_streams self provider video_id bitrate codec c) = Return streams ->
     Forall (fun s => real_codec s ∧ positive_bitrate s) streams) ∧
  (∀ self provider timed_out video_id audio_bitrate video_quality audio_codec video_codec
     include_video include_audio c r,
     value_of (get_unified_streams self provider timed_out video_id audio_bitrate
                 video_quality audio_codec video_codec include_video include_audio c)
     = Return r ->
     Forall real_codec (default [] (r_video r))
     ∧ Forall (fun s => real_codec s ∧ positive_bitrate s) (default [] (r_audio r))).
Proof.
  split; [|split].
  - intros self provider video_id quality c streams Hv%value_of_returns.
    apply get_video_streams_provenance
      in Hv as (info & fmts & fmt & s & _ & _ & _ & Hentry & ->).
    apply Forall_singleton. by eapply get_video_streams_entry_codec.
  - intros self provider video_id bitrate codec c streams Hv%value_of_returns.
    apply get_audio_streams_provenance
      in Hv as (info & fmts & fmt & s & _ & _ & _ & Hentry & -> & _).
    apply Forall_singleton. by eapply get_audio_streams_entry_codec.
  - intros self provider timed_out video_id audio_bitrate video_quality audio_codec
      video_codec include_video include_audio c r Hv%value_of_returns.
    apply get_unified_streams_returns
      in Hv as (_ & info & fmts & vf & af & c1 & c2 & _ & _ & Hpre & Hres).
    apply prefilter_candidates in Hpre as [Hvf Haf]. rewrite Forall_forall in Hvf, Haf.
    apply get_unified_streams_results_returns in Hres as [Hvideo Haudio]. split.
    + destruct (r_video r) as [streams|]; [|constructor]. simpl.
      destruct (Hvideo streams eq_refl) as [->|(c4 & Hw)]; [constructor|].
      apply process_video_streams_provenance in Hw as (s & fmt & c5 & -> & Hin & Hentry).
      apply Forall_singleton.
      apply process_video_streams_entry_returns in Hentry as (_ & Hcodec & _).
      destruct (Hvf fmt Hin) as (_ & (codec & Hfmt & ? & ?) & _).
      exists codec. by rewrite Hcodec, Hfmt.
    + destruct (r_audio r) as [streams|]; [|constructor]. simpl.
      destruct (Haudio streams eq_refl) as [->|(c4 & Hw)]; [constructor|].
      apply process_audio_streams_provenance in Hw as (s & fmt & c5 & -> & Hin & Hentry).
      apply Forall_singleton.
      apply process_audio_streams_entry_returns in Hentry as (_ & Hcodec & Hrate & _).
      destruct (Haf fmt Hin) as (_ & (codec & Hfmt & ? & ?) & (q & Hq & Hpos)). split.
      * exists codec. by rewrite Hcodec, Hfmt.
      * exists q. by rewrite Hrate.
Qed.

Lemma returned_streams_name_a_codec_witness :
  ∃ streams,
    value_of (get_audio_streams (create_optimized_extractor false) (serving two_formats)
                "id" 128 None []) = Return streams
    ∧ streams ≠ [] ∧ Forall (fun s => real_codec s ∧ positive_bitrate s) streams.
Proof.
  eexists. split; [vm_compute; reflexivity|]. split; [discriminate|].
  apply (proj1 (proj2 returned_streams_name_a_codec) (create_optimized_extractor false)
           (serving two_formats) "id"%string 128 None []).
  vm_compute. reflexivity.
Defined.

(** X13.  The unified call is stricter about video URLs than the
    single-stream call: the URL of a video stream it returns contains
    ["videoplayback"].  [get_video_streams] has no such test: it returns
    a stream behind a URL without the marker, for which the unified
    video-only call fails. *)
Theorem unified_video_url_is_direct :
  (∀ self provider timed_out video_id audio_bitrate video_quality audio_codec video_codec
     include_video include_audio c r,
     value_of (get_unified_streams self provider timed_out video_id audio_bitrate
                 video_quality audio_codec video_codec include_video include_audio c)
     = Return r ->
     Forall (fun s => ∃ u, s_url s = Some u ∧ Py.contains "videoplayback" u = true)
       (default [] (r_video r))) ∧
  (let fmt := descriptor (Has "avc1.640028"%string) (Has "none"%string)
                (Has "https://example.com/v.mp4"%string) (Has 1080) (Has 4000%Q) in
   (∃ s, value_of (get_video_streams (create_optimized_extractor false) (serving [fmt])
                     "id" "1080p" []) = Return [s]
         ∧ s_url s = Some "https://example.com/v.mp4"%string
         ∧ Py.contains "videoplayback" "https://example.com/v.mp4" = false)
   ∧ value_of (get_unified_streams (create_optimized_extractor false) (serving [fmt])
                 (fun _ => false) "id" 128 "1080p" None None true false [])
     = Raise (Exn ValueError [Lit "Error getting unified streams: ";
                              Lit "No video formats available"])).
Proof.
  split.
  - intros self provider timed_out video_id audio_bitrate video_quality audio_codec
      video_codec include_video include_audio c r Hv%value_of_returns.
    apply get_unified_streams_returns
      in Hv as (_ & info & fmts & vf & af & c1 & c2 & _ & _ & Hpre & Hres).
    apply prefilter_candidates in Hpre as [Hvf _]. rewrite Forall_forall in Hvf.
    apply get_unified_streams_results_returns in Hres as [Hvideo _].
    destruct (r_video r) as [streams|]; [|constructor]. simpl.
    destruct (Hvideo streams eq_refl) as [->|(c4 & Hw)]; [constructor|].
    apply process_video_streams_provenance in Hw as (s & fmt & c5 & -> & Hin & Hentry).
    apply Forall_singleton.
    apply process_video_streams_entry_returns in Hentry as (Hurl & _).
    destruct (Hvf fmt Hin) as (_ & _ & (u & Hfmt & Hu)).
    exists u. by rewrite Hurl, Hfmt.
  - cbv zeta. split; [|vm_compute; reflexivity].
    eexists. split; [vm_compute; reflexivity|]. split; vm_compute; reflexivity.
Qed.

Lemma unified_video_url_is_direct_witness :
  ∃ r, value_of (get_unified_streams (create_optimized_extractor false) (serving two_formats)
                   (fun _ => false) "id" 128 "1080p" None None true false []) = Return r
       ∧ r_video r ≠ Some []
       ∧ Forall (fun s => ∃ u, s_url s = Some u ∧ Py.contains "videoplayback" u = true)
           (default [] (r_video r)).
Proof.
  eexists. split; [vm_compute; reflexivity|]. split; [discriminate|].
  apply (proj1 unified_video_url_is_direct (create_optimized_extractor false)
           (serving two_formats) (fun _ => false) "id"%string 128 "1080p"%string None None
           true false []).
  vm_compute. reflexivity.
Defined.

(** X14.  The workers of the unified call honour a codec filter: with a
    non-empty [video_codec] (resp. [audio_codec]) every returned video
    (resp. audio) stream has a codec that the worker's matching function
    accepts for the token; there is no fallback to an unfiltered
    choice. *)
Theorem unified_codec_filter_honoured self provider timed_out video_id audio_bitrate
    video_quality audio_codec video_codec include_video include_audio c r :
  value_of (get_unified_streams self provider timed_out video_id audio_bitrate video_quality
              audio_codec video_codec include_video include_audio c) = Return r ->
  (∀ token, video_codec = Some token -> token ≠ EmptyString ->
     Forall (fun s => ∃ codec, s_codec s = Some codec
                               ∧ video_codec_match (Py.lower token) (Py.lower codec) = true)
       (default [] (r_video r)))
  ∧ (∀ token, audio_codec = Some token -> token ≠ EmptyString ->
       Forall (fun s => ∃ codec, s_codec s = Some codec
                                 ∧ audio_codec_match (Py.lower token) (Py.lower codec) = true)
         (default [] (r_audio r))).
Proof.
  intros Hv%value_of_returns.
  apply get_unified_streams_returns
    in Hv as (_ & info & fmts & vf & af & c1 & c2 & _ & _ & _ & Hres).
  apply get_unified_streams_results_returns in Hres as [Hvideo Haudio]. split.
  - intros token -> Hne.
    destruct (r_video r) as [streams|]; [|constructor]. simpl.
    destruct (Hvideo streams eq_refl) as [->|(c4 & Hw)]; [constructor|].
    apply process_video_streams_provenance in Hw as (s & fmt & c5 & -> & Hin & Hentry).
    apply Forall_singleton.
    apply process_video_streams_entry_returns in Hentry as (_ & _ & Hmatch).
    destruct Hmatch as (token' & codec & [= <-] & Hcodec & Hm).
    { simpl. by apply negb_true_iff, String.eqb_neq. }
    by exists codec.
  - intros token -> Hne.
    destruct (r_audio r) as [streams|]; [|constructor]. simpl.
    destruct (Haudio streams eq_refl) as [->|(c4 & Hw)]; [constructor|].
    apply process_audio_streams_provenance in Hw as (s & fmt & c5 & -> & Hin & Hentry).
    apply Forall_singleton.
    apply process_audio_streams_entry_returns in Hentry as (_ & _ & _ & Hmatch).
    destruct Hmatch as (token' & codec & [= <-] & Hcodec & Hm).
    { simpl. by apply negb_true_iff, String.eqb_neq. }
    by exists codec.
Qed.

Lemma unified_codec_filter_honoured_witness :
  ∃ r, value_of (get_unified_streams (create_optimized_extractor false) (serving two_formats)
                   (fun _ => false) "id" 128 "1080p" (Some "OPUS"%string)
                   (Some "h264"%string) true true []) = Return r
       ∧ r_video r ≠ Some [] ∧ r_audio r ≠ Some []
       ∧ Forall (fun s => ∃ codec, s_codec s = Some codec
                                   ∧ video_codec_match (Py.lower "h264") (Py.lower codec)
                                     = true)
           (default [] (r_video r)).
Proof.
  eexists. split; [vm_compute; reflexivity|]. split; [discriminate|].
  split; [discriminate|].
  apply (proj1 (unified_codec_filter_honoured (create_optimized_extractor false)
                  (serving two_formats) (fun _ => false) "id"%string 128 "1080p"%string
                  (Some "OPUS"%string) (Some "h264"%string) true true [] _ eq_refl)
           "h264"%string eq_refl).
  discriminate.
Defined.

(** X15.  [get_audio_streams] honours a codec filter whenever it can:
    with a non-empty [codec], the returned stream passes the filter of
    the operation unless no candidate of the fetched info passes it. *)
Theorem audio_filter_honoured_when_possible self provider video_id bitrate token c streams :
  token ≠ EmptyString ->
  value_of (get_audio_streams self provider video_id bitrate (Some token) c)
  = Return streams ->
  ∃ info fmts,
    value_of (_get_ytdlp_info self provider video_id c) = Return info
    ∧ formats info = Has fmts
    ∧ (Forall (fun s => get_audio_streams_filter token s = true) streams
       ∨ Forall (fun s => get_audio_streams_filter token s = false)
           (omap get_audio_streams_entry fmts)).
Proof.
  intros Hne Hv%value_of_returns.
  apply get_audio_streams_provenance
    in Hv as (info & fmts & fmt & s & Hfetch & Hfmts & _ & _ & -> & Hfilter).
  apply value_of_returns in Hfetch. exists info, fmts. split; [done|]. split; [done|].
  destruct Hfilter as [Hpass|Hnone].
  - simpl. by apply negb_true_iff, String.eqb_neq.
  - left. by apply Forall_singleton.
  - right. by apply Forall_forall.
Qed.

Lemma audio_filter_honoured_when_possible_witness :
  ∃ streams,
    value_of (get_audio_streams (create_optimized_extractor false) (serving two_formats)
                "id" 128 (Some "opus"%string) []) = Return streams
    ∧ Forall (fun s => get_audio_streams_filter "opus" s = true) streams.
Proof.
  destruct (audio_filter_honoured_when_possible (create_optimized_extractor false)
              (serving two_formats) "id"%string 128 "opus"%string [] _ ltac:(discriminate)
              eq_refl) as (info & fmts & Hinfo & Hfmts & Hcases).
  eexists. split; [reflexivity|].
  destruct Hcases as [Hpass|Hnone]; [exact Hpass|].
  vm_compute in Hinfo. injection Hinfo as <-. simpl in Hfmts. injection Hfmts as <-.
  apply Forall_inv in Hnone. vm_compute in Hnone. discriminate Hnone.
Defined.

(** ** Failures of the public operations *)

Lemma try_outer_handler_raises {A} (body : M A) prefix1 prefix2 prefix3 c e :
  value_of (try_except body
              (fun e0 =>
                 match class_of e0 with
                 | DownloadError => _log_error (Lit prefix1 :: str_of e0);; raise e0
                 | _ => _log_error (Lit prefix2 :: str_of e0);;
                        raise (Exn ValueError (Lit prefix3 :: str_of e0))
                 end) c) = Raise e ->
  ∃ e0 prefix,
    value_of (body c) = Raise e0
    ∧ e = rethrown prefix3 e0
    ∧ last (trace_of (try_except body
                        (fun e0 =>
                           match class_of e0 with
                           | DownloadError => _log_error (Lit prefix1 :: str_of e0);; raise e0
                           | _ => _log_error (Lit prefix2 :: str_of e0);;
                                  raise (Exn ValueError (Lit prefix3 :: str_of e0))
                           end) c))
      = Some (Print ERROR (Lit prefix :: str_of e0)).
Proof.
  unfold try_except, value_of, trace_of, rethrown. destruct (body c) as [[[a|e0] c1] t1].
  - intros [=].
  - destruct (class_of e0) eqn:Hcls; simpl; intros [= <-];
      eexists e0, _; (split; [done|]); (split; [by rewrite Hcls|]); apply last_snoc.
Qed.

Lemma try_outer_handler_value {A} (body : M A) prefix1 prefix2 prefix3 c e0 :
  value_of (body c) = Raise e0 ->
  value_of (try_except body
              (fun e0 =>
                 match class_of e0 with
                 | DownloadError => _log_error (prefix1 :: str_of e0);; raise e0
                 | _ => _log_error (prefix2 :: str_of e0);;
                        raise (Exn ValueError (Lit prefix3 :: str_of e0))
                 end) c) = Raise (rethrown prefix3 e0).
Proof.
  unfold try_except, value_of, rethrown. destruct (body c) as [[[a|e1] c1] t1]; [done|].
  simpl. intros [= ->]. by destruct (class_of e0).
Qed.

Lemma value_of_bind_log_debug {A} self msg (k : M A) c :
  value_of ((_log_debug self msg;; k) c) = value_of (k c).
Proof. unfold value_of. by rewrite bind_log_debug. Qed.

Lemma value_of_bind_return {A B} (m : M A) (k : A -> M B) c a c1 t :
  m c = (Return a, c1, t) -> value_of (bind m k c) = value_of (k a c1).
Proof. intros Hm. unfold value_of, bind. rewrite Hm. by destruct (k a c1) as [[r c2] t2]. Qed.

(** X16.  No failure goes unreported: when a public stream operation
    raises, the last line it printed is an error line that carries the
    message of the exception that caused the failure.  The only
    exception is the unified call with neither branch requested, which
    is refused before anything is printed or fetched. *)
Theorem failures_are_logged :
  (∀ self provider video_id quality c e,
     value_of (get_video_streams self provider video_id quality c) = Raise e ->
     ∃ e0 prefix,
       e = rethrown "Error getting video streams: " e0
       ∧ last (trace_of (get_video_streams self provider video_id quality c))
         = Some (Print ERROR (Lit prefix :: str_of e0))) ∧
  (∀ self provider video_id bitrate codec c e,
     value_of (get_audio_streams self provider video_id bitrate codec c) = Raise e ->
     ∃ e0 prefix,
       e = rethrown "Error getting audio streams: " e0
       ∧ last (trace_of (get_audio_streams self provider video_id bitrate codec c))
         = Some (Print ERROR (Lit prefix :: str_of e0))) ∧
  (∀ self provider timed_out video_id audio_bitrate video_quality audio_codec video_codec
     include_video include_audio c e,
     include_video || include_audio = true ->
     value_of (get_unified_streams self provider timed_out video_id audio_bitrate
                 video_quality audio_codec video_codec include_video include_audio c)
     = Raise e ->
     ∃ e0 prefix,
       e = rethrown "Error getting unified streams: " e0
       ∧ last (trace_of (get_unified_streams self provider timed_out video_id audio_bitrate
                           video_quality audio_codec video_codec include_video
                           include_audio c))
         = Some (Print ERROR (Lit prefix :: str_of e0))) ∧
  (∀ self provider timed_out video_id audio_bitrate video_quality audio_codec video_codec c,
     get_unified_streams self provider timed_out video_id audio_bitrate video_quality
       audio_codec video_codec false false c
     = (Raise (Exn ValueError
                 [Lit "At least one of include_video or include_audio must be True"]),
        c, [])).
Proof.
  split; [|split; [|split]].
  - intros self provider video_id quality c e He. unfold get_video_streams in *.
    apply try_outer_handler_raises in He as (e0 & prefix & _ & -> & Hlast).
    by exists e0, prefix.
  - intros self provider video_id bitrate codec c e He. unfold get_audio_streams in *.
    apply try_outer_handler_raises in He as (e0 & prefix & _ & -> & Hlast).
    by exists e0, prefix.
  - intros self provider timed_out video_id audio_bitrate video_quality audio_codec
      video_codec include_video include_audio c e Hflags He.
    unfold get_unified_streams in *.
    replace (negb include_video && negb include_audio) with false in *
      by (by destruct include_video, include_audio).
    apply try_outer_handler_raises in He as (e0 & prefix & _ & -> & Hlast).
    by exists e0, prefix.
  - done.
Qed.

Lemma failures_are_logged_witness :
  ∃ e0 prefix,
    last (trace_of (get_audio_streams (create_optimized_extractor false)
                      (fun _ => Throws DownloadError "Video unavailable") "id" 192 None []))
    = Some (Print ERROR (Lit prefix :: str_of e0)).
Proof.
  destruct (proj1 (proj2 failures_are_logged) (create_optimized_extractor false)
              (fun _ => Throws DownloadError "Video unavailable") "id"%string 192 None [] _
              eq_refl) as (e0 & prefix & _ & Hlast).
  by exists e0, prefix.
Defined.

(** X17.  An info without formats yields no stream.  When the fetched
    info has no [formats] key, has it with [None], or has an empty list,
    every stream operation raises a [ValueError].  The single-stream
    operations test for the key only, so a [None] there surfaces as the
    message of the failed iteration; the unified call reads the key with
    a default and reports all three cases alike. *)
Theorem operations_without_formats self provider video_id c info :
  value_of (_get_ytdlp_info self provider video_id c) = Return info ->
  (formats info = Missing ->
   (∀ quality,
      value_of (get_video_streams self provider video_id quality c)
      = Raise (Exn ValueError [Lit "Error getting video streams: ";
                               Lit "No video streams found for the given video ID"]))
   ∧ (∀ bitrate codec,
        value_of (get_audio_streams self provider video_id bitrate codec c)
        = Raise (Exn ValueError [Lit "Error getting audio streams: ";
                                 Lit "No audio streams found for the given video ID"])))
  ∧ (formats info = Null ->
     (∀ quality,
        value_of (get_video_streams self provider video_id quality c)
        = Raise (Exn ValueError [Lit "Error getting video streams: ";
                                 Lit "'NoneType' object is not iterable"]))
     ∧ (∀ bitrate codec,
          value_of (get_audio_streams self provider video_id bitrate codec c)
          = Raise (Exn ValueError [Lit "Error getting audio streams: ";
                                   Lit "'NoneType' object is not iterable"])))
  ∧ (formats info = Has [] ->
     (∀ quality,
        value_of (get_video_streams self provider video_id quality c)
        = Raise (Exn ValueError [Lit "Error getting video streams: ";
                                 Lit "No video streams available for this video"]))
     ∧ (∀ bitrate codec,
          value_of (get_audio_streams self provider video_id bitrate codec c)
          = Raise (Exn ValueError [Lit "Error getting audio streams: ";
                                   Lit "No audio streams available for this video"])))
  ∧ (formats info = Missing ∨ formats info = Null ∨ formats info = Has [] ->
     ∀ timed_out audio_bitrate video_quality audio_codec video_codec include_video
       include_audio,
       include_video || include_audio = true ->
       value_of (get_unified_streams self provider timed_out video_id audio_bitrate
                   video_quality audio_codec video_codec include_video include_audio c)
       = Raise (Exn ValueError [Lit "Error getting unified streams: ";
                                Lit "No formats available for this video"])).
Proof.
  intros Hfetch. unfold value_of in Hfetch.
  destruct (_get_ytdlp_info self provider video_id c) as [[r c1] t] eqn:Hrun.
  simpl in Hfetch. subst r.
  assert (Hvideo : ∀ quality e0,
            class_of e0 ≠ DownloadError ->
            (∀ c', value_of
                     (match formats info with
                      | Missing =>
                          raise (Exn ValueError
                                   [Lit "No video streams found for the given video ID"])
                      | _ =>
                          target_height ← _parse_quality quality;
                          fmts ← iter_formats (formats info);
                          get_video_streams_select self quality target_height
                            (omap get_video_streams_entry fmts)
                      end c') = Raise e0) ->
            value_of (get_video_streams self provider video_id quality c)
            = Raise (Exn ValueError (Lit "Error getting video streams: " :: str_of e0))).
  { intros quality e0 Hcls Hbody. unfold get_video_streams.
    rewrite (try_outer_handler_value _ _ _ _ _ e0).
    - unfold rethrown. by destruct (class_of e0).
    - rewrite value_of_bind_log_debug. erewrite value_of_bind_return by exact Hrun.
      apply Hbody. }
  assert (Haudio : ∀ bitrate codec e0,
            class_of e0 ≠ DownloadError ->
            (∀ c', value_of
                     (match formats info with
                      | Missing =>
                          raise (Exn ValueError
                                   [Lit "No audio streams found for the given video ID"])
                      | _ =>
                          fmts ← iter_formats (formats info);
                          get_audio_streams_select self bitrate codec
                            (omap get_audio_streams_entry fmts)
                      end c') = Raise e0) ->
            value_of (get_audio_streams self provider video_id bitrate codec c)
            = Raise (Exn ValueError (Lit "Error getting audio streams: " :: str_of e0))).
  { intros bitrate codec e0 Hcls Hbody. unfold get_audio_streams.
    rewrite (try_outer_handler_value _ _ _ _ _ e0).
    - unfold rethrown. by destruct (class_of e0).
    - rewrite value_of_bind_log_debug. erewrite value_of_bind_return by exact Hrun.
      apply Hbody. }
  split; [|split; [|split]].
  - intros Hf. split.
    + intros quality. rewrite (Hvideo quality (Exn ValueError
        [Lit "No video streams found for the given video ID"])); [done|done|].
      intros c'. by rewrite Hf.
    + intros bitrate codec. rewrite (Haudio bitrate codec (Exn ValueError
        [Lit "No audio streams found for the given video ID"])); [done|done|].
      intros c'. by rewrite Hf.
  - intros Hf. split.
    + intros quality. rewrite (Hvideo quality (Exn TypeError
        [Lit "'NoneType' object is not iterable"])); [done|done|].
      intros c'. rewrite Hf.
      destruct (_parse_quality_returns quality c') as (n & c2 & t2 & Hq).
      by erewrite value_of_bind_return by exact Hq.
    + intros bitrate codec. rewrite (Haudio bitrate codec (Exn TypeError
        [Lit "'NoneType' object is not iterable"])); [done|done|].
      intros c'. by rewrite Hf.
  - intros Hf. split.
    + intros quality. rewrite (Hvideo quality (Exn ValueError
        [Lit "No video streams available for this video"])); [done|done|].
      intros c'. rewrite Hf.
      destruct (_parse_quality_returns quality c') as (n & c2 & t2 & Hq).
      by erewrite value_of_bind_return by exact Hq.
    + intros bitrate codec. rewrite (Haudio bitrate codec (Exn ValueError
        [Lit "No audio streams available for this video"])); [done|done|].
      intros c'. by rewrite Hf.
  - intros Hf timed_out audio_bitrate video_quality audio_codec video_codec include_video
      include_audio Hflags.
    unfold get_unified_streams.
    replace (negb include_video && negb include_audio) with false
      by (by destruct include_video, include_audio).
    rewrite (try_outer_handler_value _ _ _ _ _
               (Exn ValueError [Lit "No formats available for this video"])); [done|].
    rewrite value_of_bind_log_debug. erewrite value_of_bind_return by exact Hrun.
    by destruct Hf as [->|[->| ->]].
Qed.

Lemma operations_without_formats_witness :
  value_of (get_unified_streams (create_optimized_extractor false) (serving [])
              (fun _ => false) "id" 128 "1080p" None None true true [])
  = Raise (Exn ValueError [Lit "Error getting unified streams: ";
                           Lit "No formats available for this video"]).
Proof.
  refine (proj2 (proj2 (proj2 (operations_without_formats (create_optimized_extractor false)
                                 (serving []) "id"%string []
                                 {| duration := Has 60; formats := Has [] |} eq_refl)))
            _ (fun _ => false) 128 "1080p"%string None None true true eq_refl).
  by right; right.
Defined.

(** ** The memo table across the operations *)

Section Preserves.
Context (self : extractor) (P : cache -> Prop).

Lemma preserves_ret {A} (a : A) : preserves P (ret a).
Proof. by intros c. Qed.

Lemma preserves_raise {A} e : preserves P (raise e : M A).
Proof. by intros c. Qed.

Lemma preserves_emit e : preserves P (emit e).
Proof. by intros c. Qed.

Lemma preserves_log_debug m : preserves P (_log_debug self m).
Proof. intros c. unfold _log_debug. by destruct (debug self). Qed.

Lemma preserves_bind {A B} (m : M A) (k : A -> M B) :
  preserves P m -> (∀ a, preserves P (k a)) -> preserves P (bind m k).
Proof.
  intros Hm Hk c Hc. specialize (Hm c Hc). unfold bind, cache_of in *.
  destruct (m c) as [[[a|e] c1] t1]; simpl in *; [|done].
  specialize (Hk a c1 Hm). by destruct (k a c1) as [[r c2] t2].
Qed.

Lemma preserves_try {A} (body : M A) handler :
  preserves P body -> (∀ e, preserves P (handler e)) -> preserves P (try_except body handler).
Proof.
  intros Hm Hk c Hc. specialize (Hm c Hc). unfold try_except, cache_of in *.
  destruct (body c) as [[[a|e] c1] t1]; simpl in *; [done|].
  specialize (Hk e c1 Hm). by destruct (handler e c1) as [[r c2] t2].
Qed.

Lemma preserves_collect {A B} (body : A -> M (option B)) l :
  (∀ x, preserves P (body x)) -> preserves P (collect body l).
Proof.
  intros Hbody. induction l as [|x l IH]; [apply preserves_ret|].
  rewrite collect_cons. apply preserves_bind; [done|]. intros r.
  apply preserves_bind; [done|]. intros rest. apply preserves_ret.
Qed.

Ltac keep :=
  repeat first
    [ apply preserves_ret | apply preserves_raise | apply preserves_log_debug
    | apply preserves_emit
    | apply preserves_bind; [|intros ?]
    | apply preserves_try; [|intros ?]
    | apply preserves_collect; intros ?
    | match goal with
      | |- preserves _ (match ?x with _ => _ end) => destruct x
      | |- preserves _ (if ?b then _ else _) => destruct b
      end ].

Lemma preserves_get_video_streams_select quality target l :
  preserves P (get_video_streams_select self quality target l).
Proof. unfold get_video_streams_select, py_min, py_max, _log_warning. keep. Qed.

Lemma preserves_get_audio_streams_select bitrate codec l :
  preserves P (get_audio_streams_select self bitrate codec l).
Proof.
  unfold get_audio_streams_select, get_audio_streams_filtered, get_audio_streams_closest,
    py_min, _log_warning. keep.
Qed.

Lemma preserves_prefilter include_video include_audio formats :
  preserves P (prefilter include_video include_audio formats).
Proof.
  induction formats as [|fmt l IH]; simpl; [apply preserves_ret|].
  apply preserves_bind.
  { unfold prefilter_entry, gt_zero. keep. }
  intros picked. apply preserves_bind; [done|]. intros rest. apply preserves_ret.
Qed.

Lemma preserves_process_video_streams video_formats video_quality video_codec :
  preserves P (_parse_quality video_quality) ->
  preserves P (process_video_streams self video_formats video_quality video_codec).
Proof.
  intros HP. unfold process_video_streams, _log_error.
  apply preserves_try; [|intros e; keep].
  apply preserves_bind; [keep|]. intros _.
  destruct video_formats as [|fmt l]; [keep|].
  apply preserves_bind; [done|]. intros target.
  apply preserves_bind.
  { apply preserves_collect. intros x.
    unfold process_video_streams_entry, lower_, subscript_url. keep. }
  intros video_streams. unfold process_video_streams_select, py_min, py_max. keep.
Qed.

Lemma preserves_process_audio_streams audio_formats audio_bitrate audio_codec :
  preserves P (process_audio_streams self audio_formats audio_bitrate audio_codec).
Proof.
  unfold process_audio_streams, _log_error. apply preserves_try; [|intros e; keep].
  apply preserves_bind; [keep|]. intros _.
  destruct audio_formats as [|fmt l]; [keep|].
  apply preserves_bind.
  { apply preserves_collect. intros x.
    unfold process_audio_streams_entry, lower_, subscript_url. keep. }
  intros audio_streams. unfold process_audio_streams_select, py_min. keep.
Qed.

Lemma preserves_await_worker include_video include_audio t timed_out worker :
  preserves P worker ->
  preserves P (await_worker self include_video include_audio t timed_out worker).
Proof. intros Hw. unfold await_worker, _log_error, _log_warning. keep; done. Qed.

(** A worker is run only when its branch is requested. *)
Lemma preserves_results include_video include_audio timed_out duration vw aw :
  (include_video = true -> preserves P vw) ->
  (include_audio = true -> preserves P aw) ->
  preserves P (get_unified_streams_results self include_video include_audio timed_out
                 duration vw aw).
Proof.
  intros Hv Ha. unfold get_unified_streams_results.
  apply preserves_bind; [keep|]. intros _. apply preserves_bind; [keep|]. intros _.
  apply preserves_bind.
  { destruct include_video; [|keep]. apply preserves_bind; [|intros ?; keep].
    apply preserves_await_worker. by apply Hv. }
  intros video. apply preserves_bind.
  { destruct include_audio; [|keep]. apply preserves_bind; [|intros ?; keep].
    apply preserves_await_worker. by apply Ha. }
  intros audio. keep.
Qed.

Lemma preserves_fetch_from provider video_id remaining attempt last_error :
  preserves P (_get_ytdlp_info_from self provider video_id remaining attempt last_error).
Proof.
  revert attempt last_error. induction remaining as [|n IH]; intros attempt last_error.
  - simpl. unfold raise_object, _log_error. keep.
  - cbn [_get_ytdlp_info_from]. unfold _log_warning, sleep.
    apply preserves_bind; [keep|]. intros _. apply preserves_bind; [keep|]. intros _.
    destruct (provider attempt) as [[info|]|cls msg]; [keep|apply IH|].
    destruct cls; try (keep; fail).
    apply preserves_bind; [keep|]. intros _. apply preserves_bind; [keep|]. intros _.
    apply preserves_bind; [keep|]. intros _. apply IH.
Qed.

Lemma preserves_handler {A} prefix1 prefix2 prefix3 e :
  preserves P (match class_of e with
               | DownloadError => _log_error (prefix1 :: str_of e);; raise e
               | _ => _log_error (prefix2 :: str_of e);;
                      raise (Exn ValueError (prefix3 :: str_of e))
               end : M A).
Proof. unfold _log_error. keep. Qed.

Lemma preserves_get_video_streams provider video_id quality :
  preserves P (_parse_quality quality) ->
  preserves P (get_video_streams self provider video_id quality).
Proof.
  intros HP. unfold get_video_streams.
  apply preserves_try; [|intros e; apply preserves_handler].
  apply preserves_bind; [keep|]. intros _.
  apply preserves_bind; [apply preserves_fetch_from|]. intros info.
  destruct (formats info); unfold iter_formats; keep;
    first [exact HP | apply preserves_get_video_streams_select].
Qed.

Lemma preserves_get_audio_streams provider video_id bitrate codec :
  preserves P (get_audio_streams self provider video_id bitrate codec).
Proof.
  unfold get_audio_streams.
  apply preserves_try; [|intros e; apply preserves_handler].
  apply preserves_bind; [keep|]. intros _.
  apply preserves_bind; [apply preserves_fetch_from|]. intros info.
  destruct (formats info); unfold iter_formats; keep;
    apply preserves_get_audio_streams_select.
Qed.

Lemma preserves_get_unified_streams provider timed_out video_id audio_bitrate video_quality
    audio_codec video_codec include_video include_audio :
  (include_video = true -> preserves P (_parse_quality video_quality)) ->
  preserves P (get_unified_streams self provider timed_out video_id audio_bitrate
                 video_quality audio_codec video_codec include_video include_audio).
Proof.
  intros HP. unfold get_unified_streams.
  destruct (negb include_video && negb include_audio); [keep|].
  apply preserves_try; [|intros e; apply preserves_handler].
  apply preserves_bind; [keep|]. intros _.
  apply preserves_bind; [apply preserves_fetch_from|]. intros info.
  destruct (get_or (formats info) []) as [[|fmt l]|]; [keep| |keep].
  apply preserves_bind; [apply preserves_prefilter|]. intros candidates.
  apply preserves_results.
  - intros Hv. apply preserves_process_video_streams. by apply HP.
  - intros _. apply preserves_process_audio_streams.
Qed.

Lemma preserves_check_status probe video_id :
  preserves P (check_status self probe video_id).
Proof.
  unfold check_status, _log_warning, _log_error.
  apply preserves_bind; [keep|]. intros _. apply preserves_bind; [keep|]. intros _.
  destruct probe as [[info|]|[] msg]; keep.
Qed.
End Preserves.

Lemma _parse_quality_keeps_wf quality_str : preserves (cache_wf 128) (_parse_quality quality_str).
Proof.
  intros c Hc. destruct (_parse_quality_memo quality_str c Hc) as (v & c' & t & -> & _ & Hwf & _).
  exact Hwf.
Qed.

(** X18.  Only the video paths touch the memo table of
    [_parse_quality].  [get_audio_streams], [check_status] and a unified
    call without the video branch leave the table as they found it;
    [get_video_streams] and a unified call keep a well-formed table of at
    most 128 entries well formed, whether they return or raise. *)
Theorem memo_table_across_operations :
  (∀ self provider video_id bitrate codec c,
     cache_of (get_audio_streams self provider video_id bitrate codec c) = c) ∧
  (∀ self probe video_id c, cache_of (check_status self probe video_id c) = c) ∧
  (∀ self provider timed_out video_id audio_bitrate video_quality audio_codec video_codec
     include_audio c,
     cache_of (get_unified_streams self provider timed_out video_id audio_bitrate
                 video_quality audio_codec video_codec false include_audio c) = c) ∧
  (∀ self provider video_id quality c,
     cache_wf 128 c ->
     cache_wf 128 (cache_of (get_video_streams self provider video_id quality c))) ∧
  (∀ self provider timed_out video_id audio_bitrate video_quality audio_codec video_codec
     include_video include_audio c,
     cache_wf 128 c ->
     cache_wf 128 (cache_of (get_unified_streams self provider timed_out video_id
                               audio_bitrate video_quality audio_codec video_codec
                               include_video include_audio c))).
Proof.
  split; [|split; [|split; [|split]]].
  - intros self provider video_id bitrate codec c. symmetry.
    by apply (preserves_get_audio_streams self (eq c)).
  - intros self probe video_id c. symmetry. by apply (preserves_check_status self (eq c)).
  - intros self provider timed_out video_id audio_bitrate video_quality audio_codec
      video_codec include_audio c. symmetry.
    by apply (preserves_get_unified_streams self (eq c)).
  - intros self provider video_id quality c.
    apply preserves_get_video_streams, _parse_quality_keeps_wf.
  - intros self provider timed_out video_id audio_bitrate video_quality audio_codec
      video_codec include_video include_audio c.
    apply preserves_get_unified_streams. intros _. apply _parse_quality_keeps_wf.
Qed.

Lemma memo_table_across_operations_witness :
  cache_wf 128 (cache_of (get_video_streams (create_optimized_extractor false)
                            (serving two_formats) "id" "1080p" []))
  ∧ cache_of (get_video_streams (create_optimized_extractor false) (serving two_formats)
                "id" "1080p" []) = [("1080p"%string, 1080)].
Proof.
  split; [|vm_compute; reflexivity].
  apply (proj1 (proj2 (proj2 (proj2 memo_table_across_operations)))).
  split; [constructor|]. split; [simpl; lia|]. intros k v Hk. discriminate Hk.
Defined.

(** ** The result of the status probe *)

Lemma next_status_range error_msg :
  next_status status_map error_msg "error" ≠ "available"%string
  ∧ next_status status_map error_msg "error"
    ∈ ["available"; "private"; "unavailable"; "age_restricted"; "removed"; "error"]%string.
Proof.
  unfold status_map. simpl.
  repeat match goal with
         | |- context [if ?b then _ else _] => destruct b
         end; (split; [discriminate|in_list]).
Qed.

(** X19.  The three fields of a status result agree: the video is
    reported available exactly when the provider returned an info, when
    the status is ["available"] and when there is no error text; and
    the status is always one of six fixed strings, whatever the text of
    the provider's error. *)
Theorem check_status_result_consistent self probe video_id c r :
  value_of (check_status self probe video_id c) = Return r ->
  (available r = true <-> ∃ info, probe = Returns (Some info))
  ∧ (available r = true <-> status r = "available"%string)
  ∧ (available r = true <-> error r = None)
  ∧ status r ∈ ["available"; "private"; "unavailable"; "age_restricted"; "removed";
                "error"]%string.
Proof.
  unfold check_status. run.
  destruct probe as [[info|]|cls msg].
  - destruct (debug self); intros [= <-]; simpl; (repeat split; eauto); in_list.
  - destruct (debug self); intros [= <-]; simpl;
      (repeat split; try done; try (by intros [? [=]])); in_list.
  - destruct (next_status_range msg) as [Hna Hrange].
    destruct cls, (debug self); intros [= <-]; simpl;
      (repeat split; try done; try (by intros [? [=]])); in_list.
Qed.

Lemma check_status_result_consistent_witness :
  ∃ r, value_of (check_status (create_optimized_extractor false)
                   (Throws DownloadError "This video has been removed by the uploader")
                   "id" []) = Return r
       ∧ available r = false ∧ status r = "removed"%string.
Proof.
  eexists. split; [vm_compute; reflexivity|]. split; [|reflexivity].
  pose proof (check_status_result_consistent (create_optimized_extractor false)
                (Throws DownloadError "This video has been removed by the uploader")
                "id"%string [] _ eq_refl) as (_ & _ & _ & _).
  reflexivity.
Defined.

(** ** Quality tokens: case, whitespace and the labels the module prints *)

Lemma lower_char_idem c : Py.lower_char (Py.lower_char c) = Py.lower_char c.
Proof. by destruct c as [[] [] [] [] [] [] [] []]. Qed.

Lemma isspace_lower_char c : Py.isspace (Py.lower_char c) = Py.isspace c.
Proof. by destruct c as [[] [] [] [] [] [] [] []]. Qed.

Lemma lower_idem s : Py.lower (Py.lower s) = Py.lower s.
Proof. induction s as [|c s IH]; simpl; [done|]. by rewrite lower_char_idem, IH. Qed.

Lemma lower_lstrip s :
  Py.lower (Py.lstrip_by Py.isspace s) = Py.lstrip_by Py.isspace (Py.lower s).
Proof.
  induction s as [|c s IH]; simpl; [done|]. rewrite isspace_lower_char.
  by destruct (Py.isspace c).
Qed.

Lemma lower_rstrip s :
  Py.lower (Py.rstrip_by Py.isspace s) = Py.rstrip_by Py.isspace (Py.lower s).
Proof.
  induction s as [|c s IH]; simpl; [done|]. rewrite <- IH, isspace_lower_char.
  destruct (Py.rstrip_by Py.isspace s); simpl; [|done]. by destruct (Py.isspace c).
Qed.

Lemma lower_strip s : Py.lower (Py.strip s) = Py.strip (Py.lower s).
Proof. unfold Py.strip. by rewrite lower_rstrip, lower_lstrip. Qed.

Lemma rstrip_idem sp s : Py.rstrip_by sp (Py.rstrip_by sp s) = Py.rstrip_by sp s.
Proof.
  induction s as [|c s IH]; simpl; [done|].
  destruct (Py.rstrip_by sp s) as [|c' r] eqn:Hr.
  - destruct (sp c) eqn:Hc; simpl; [done|]. by rewrite Hc.
  - change (Py.rstrip_by sp (String c (String c' r))) with
      (match Py.rstrip_by sp (String c' r) with
       | EmptyString => if sp c then EmptyString else String c EmptyString
       | r0 => String c r0
       end).
    by rewrite IH.
Qed.

(** A string that does not begin with whitespace. *)
Lemma lstrip_head sp s :
  match Py.lstrip_by sp s with
  | EmptyString => True
  | String c _ => sp c = false
  end.
Proof.
  induction s as [|c s IH]; simpl; [done|]. by destruct (sp c) eqn:Hc; [|rewrite Hc].
Qed.

Lemma rstrip_keeps_head sp s :
  match s with
  | EmptyString => True
  | String c _ => sp c = false
  end ->
  Py.lstrip_by sp (Py.rstrip_by sp s) = Py.rstrip_by sp s.
Proof.
  destruct s as [|c s]; [done|]. intros Hc. simpl.
  destruct (Py.rstrip_by sp s); rewrite ?Hc; simpl; by rewrite Hc.
Qed.

Lemma strip_idem s : Py.strip (Py.strip s) = Py.strip s.
Proof.
  unfold Py.strip. rewrite rstrip_keeps_head by apply lstrip_head. apply rstrip_idem.
Qed.

Lemma normal_form_idem s : Py.strip (Py.lower (Py.strip (Py.lower s))) = Py.strip (Py.lower s).
Proof. by rewrite lower_strip, lower_idem, strip_idem. Qed.

(** The height of a token depends on its normal form only. *)
Lemma _parse_quality_body_normal_form q1 q2 c1 c2 :
  Py.strip (Py.lower q1) = Py.strip (Py.lower q2) ->
  value_of (_parse_quality_body q1 c1) = value_of (_parse_quality_body q2 c2).
Proof.
  intros Hnf. unfold _parse_quality_body, try_except, int_, value_of.
  destruct (String.eqb_spec q1 EmptyString) as [->|H1],
           (String.eqb_spec q2 EmptyString) as [->|H2]; [done|..].
  - rewrite <- Hnf. reflexivity.
  - rewrite Hnf. reflexivity.
  - rewrite <- Hnf. destruct (Py.endswith _ "p").
    { by destruct (Py.int _). }
    destruct (k_formats !! _); [done|].
    destruct (Py.isdigit _); [|done]. by destruct (Py.int _).
Qed.

(** X20.  The normalised height ignores case and surrounding
    whitespace: with well-formed memo tables, two tokens that agree
    after lower-casing and stripping are given the same height, and so
    are a token and its lower-cased, stripped form. *)
Theorem parse_quality_ignores_case_and_padding q1 q2 c1 c2 :
  cache_wf 128 c1 -> cache_wf 128 c2 ->
  (Py.strip (Py.lower q1) = Py.strip (Py.lower q2) ->
   value_of (_parse_quality q1 c1) = value_of (_parse_quality q2 c2))
  ∧ value_of (_parse_quality (Py.strip (Py.lower q1)) c1) = value_of (_parse_quality q1 c2).
Proof.
  intros Hc1 Hc2.
  assert (Hsame : ∀ qa qb,
            Py.strip (Py.lower qa) = Py.strip (Py.lower qb) ->
            value_of (_parse_quality qa c1) = value_of (_parse_quality qb c2)).
  { intros qa qb Hnf.
    destruct (_parse_quality_memo qa c1 Hc1) as (va & ca & ta & -> & Ha & _).
    destruct (_parse_quality_memo qb c2 Hc2) as (vb & cb & tb & -> & Hb & _).
    rewrite (_parse_quality_body_normal_form qa qb [] []) in Ha by done.
    unfold value_of in *. simpl. congruence. }
  split; [apply Hsame|]. apply Hsame, normal_form_idem.
Qed.

Lemma parse_quality_ignores_case_and_padding_witness :
  value_of (_parse_quality "  1080P " []) = value_of (_parse_quality "1080p" []).
Proof.
  assert (Hwf : cache_wf 128 []).
  { split; [constructor|]. split; [simpl; lia|]. intros k v Hk. discriminate Hk. }
  apply (proj1 (parse_quality_ignores_case_and_padding "  1080P " "1080p" [] [] Hwf Hwf)).
  reflexivity.
Defined.

(** *** Digits read back *)

Lemma digit_lower c : Py.is_digit c = true -> Py.lower_char c = c.
Proof. by destruct c as [[] [] [] [] [] [] [] []]. Qed.

Lemma digit_not_isspace c : Py.is_digit c = true -> Py.isspace c = false.
Proof. by destruct c as [[] [] [] [] [] [] [] []]. Qed.

Lemma digit_not_p c s : Py.is_digit c = true -> String.eqb (String c s) "p" = false.
Proof. by destruct c as [[] [] [] [] [] [] [] []]. Qed.

Lemma lower_digits s t :
  Py.all_digits s = true -> Py.lower (s +:+ t) = (s +:+ Py.lower t)%string.
Proof.
  induction s as [|c s IH]; simpl; [done|]. intros [Hc Hs]%andb_true_iff.
  by rewrite (digit_lower c Hc), IH.
Qed.

Lemma rstrip_last sp s c :
  sp c = false ->
  Py.rstrip_by sp (s +:+ String c EmptyString) = (s +:+ String c EmptyString)%string.
Proof.
  intros Hc. induction s as [|c' s IH]; simpl; [by rewrite Hc|].
  rewrite IH. by destruct s.
Qed.

Lemma endswith_last s c :
  Py.endswith (s +:+ String c EmptyString) (String c EmptyString) = true.
Proof.
  induction s as [|c' s IH]; simpl.
  - by rewrite Ascii.eqb_refl.
  - rewrite IH. apply orb_true_r.
Qed.

Lemma drop_last_last s c : Py.drop_last (s +:+ String c EmptyString) = s.
Proof.
  induction s as [|c' s IH]; simpl; [done|]. rewrite IH. by destruct s.
Qed.

Lemma endswith_digits s : Py.all_digits s = true -> Py.endswith s "p" = false.
Proof.
  induction s as [|c s IH]; [done|]. intros [Hc Hs]%andb_true_iff.
  cbn [Py.endswith]. by rewrite (digit_not_p c s Hc), (IH Hs).
Qed.

Lemma rstrip_isspace_digits s : Py.all_digits s = true -> Py.rstrip_by Py.isspace s = s.
Proof.
  induction s as [|c s IH]; [done|]. simpl.
  intros [Hc Hs]%andb_true_iff. rewrite (IH Hs).
  destruct s; [|done]. by rewrite (digit_not_isspace c Hc).
Qed.

Lemma count_digits_length s : (Py.count_digits s <= String.length s)%nat.
Proof. induction s as [|c s IH]; simpl; [lia|]. destruct (Py.is_digit c); lia. Qed.

Lemma all_digits_uint d : Py.all_digits (NilEmpty.string_of_uint d) = true.
Proof. induction d; simpl; try done; by rewrite IHd. Qed.

Lemma int_digits_uint_acc d acc :
  Py.int_digits (Z.pos acc) false (NilEmpty.string_of_uint d)
  = Some (Z.pos (Pos.of_uint_acc d acc)).
Proof.
  revert acc. induction d; intros acc; cbn [NilEmpty.string_of_uint Pos.of_uint_acc];
    [done|..]; cbn [Py.int_digits];
    match goal with
    | |- context [Py.is_digit ?c] => change (Py.is_digit c) with true; cbv iota
    end;
    match goal with
    | |- Py.int_digits ?a false _ = Some (Z.pos (Pos.of_uint_acc _ ?b)) =>
        replace a with (Z.pos b) by (unfold Py.digit_value; simpl; lia)
    end; apply IHd.
Qed.

Lemma int_digits_uint d :
  Py.int_digits 0 false (NilEmpty.string_of_uint d) = Some (Z.of_N (Pos.of_uint d)).
Proof.
  induction d; cbn [NilEmpty.string_of_uint Pos.of_uint]; [done|..]; cbn [Py.int_digits];
    match goal with
    | |- context [Py.is_digit ?c] => change (Py.is_digit c) with true; cbv iota
    end; [exact IHd|..];
    match goal with
    | |- Py.int_digits ?a false _ = Some (Z.of_N (N.pos (Pos.of_uint_acc _ ?b))) =>
        change a with (Z.pos b)
    end; apply int_digits_uint_acc.
Qed.

(** [int] reads the decimal numeral of a positive number back. *)
Lemma int_string_of_uint p :
  let s := NilEmpty.string_of_uint (Pos.to_uint p) in
  (String.length s <= Py.int_max_str_digits)%nat ->
  ∃ c r, s = String c r ∧ Py.is_digit c = true ∧ Py.all_digits s = true
         ∧ Py.int s = Some (Z.pos p).
Proof.
  intros s Hlen. pose proof (all_digits_uint (Pos.to_uint p)) as Hall. fold s in Hall.
  pose proof (int_digits_uint (Pos.to_uint p)) as Hval. fold s in Hval.
  rewrite DecimalPos.Unsigned.of_to in Hval.
  assert (Hne : s ≠ EmptyString).
  { unfold s. pose proof (Unsigned.to_uint_nonnil p) as Hnil.
    by destruct (Pos.to_uint p). }
  destruct s as [|c r] eqn:Hs; [done|]. exists c, r.
  pose proof Hall as Hall'. simpl in Hall'. apply andb_true_iff in Hall' as [Hc Hr].
  split; [done|]. split; [done|]. split; [done|].
  unfold Py.int. cbn [Py.lstrip_by]. rewrite (digit_not_space c Hc), (rstrip_digits _ Hall).
  assert (Hsign : match String c r with
                  | String "+" r0 => (1, r0)
                  | String "-" r0 => (-1, r0)
                  | _ => (1, String c r)
                  end = (1, String c r)).
  { clear -Hc. by destruct c as [[] [] [] [] [] [] [] []]. }
  rewrite Hsign, Hc.
  pose proof (count_digits_length (String c r)) as Hcount.
  destruct (Nat.ltb_spec Py.int_max_str_digits (Py.count_digits (String c r))); [lia|].
  cbn [Py.int_digits] in Hval. rewrite Hc in Hval.
  change (10 * 0 + Py.digit_value c) with (Py.digit_value c) in Hval.
  rewrite Hval. simpl. done.
Qed.

Lemma string_of_uint_to_uint p :
  NilZero.string_of_uint (Pos.to_uint p) = NilEmpty.string_of_uint (Pos.to_uint p).
Proof.
  pose proof (Unsigned.to_uint_nonnil p) as Hnil. by destruct (Pos.to_uint p).
Qed.

(** [int(str(h)) == h] *)
Lemma int_str_int h :
  (String.length (Py.str_int h) <= Py.int_max_str_digits)%nat ->
  Py.int (Py.str_int h) = Some h.
Proof.
  unfold Py.str_int. destruct h as [|p|p]; cbn [Z.to_int NilZero.string_of_int].
  - intros _. vm_compute. reflexivity.
  - rewrite string_of_uint_to_uint. intros Hlen.
    by destruct (int_string_of_uint p Hlen) as (c & r & _ & _ & _ & Hint).
  - rewrite string_of_uint_to_uint. intros Hlen.
    destruct (int_string_of_uint p) as (c & r & Hs & Hc & Hall & Hint).
    { simpl in Hlen. lia. }
    cbv zeta in Hs. rewrite Hs in *.
    unfold Py.int in *. cbn [Py.lstrip_by] in *.
    rewrite (digit_not_space c Hc), (rstrip_digits _ Hall) in Hint.
    change (Py.isspace_c "-") with false. cbv iota.
    change (Py.rstrip_by Py.isspace_c (String "-" (String c r)))
      with (match Py.rstrip_by Py.isspace_c (String c r) with
            | EmptyString => if Py.isspace_c "-" then EmptyString else String "-" EmptyString
            | r0 => String "-" r0
            end).
    rewrite (rstrip_digits _ Hall). cbv iota.
    assert (Hsign : match String c r with
                    | String "+" r0 => (1, r0)
                    | String "-" r0 => (-1, r0)
                    | _ => (1, String c r)
                    end = (1, String c r)).
    { clear -Hc. by destruct c as [[] [] [] [] [] [] [] []]. }
    rewrite Hsign in Hint. rewrite Hc in *.
    destruct (_ <? _)%nat; [done|].
    destruct (Py.int_digits (Py.digit_value c) false r) as [v|]; [|done].
    simpl in Hint |- *. injection Hint as Hv. f_equal. lia.
Qed.

Lemma str_int_digits h : 0 <= h -> Py.isdigit (Py.str_int h) = true.
Proof.
  unfold Py.str_int. destruct h as [|p|p]; [done| |lia]. intros _.
  cbn [Z.to_int NilZero.string_of_int]. rewrite string_of_uint_to_uint.
  pose proof (all_digits_uint (Pos.to_uint p)) as Hall.
  pose proof (Unsigned.to_uint_nonnil p) as Hnil.
  unfold Py.isdigit. by destruct (Pos.to_uint p).
Qed.

(** The numeral of an integer is in normal form already: it has no
    upper-case letter and no whitespace. *)
Lemma str_int_plain h t :
  Py.lower (Py.str_int h +:+ t) = (Py.str_int h +:+ Py.lower t)%string
  ∧ Py.lstrip_by Py.isspace (Py.str_int h +:+ t) = (Py.str_int h +:+ t)%string
  ∧ Py.str_int h ≠ EmptyString.
Proof.
  assert (Hd : ∀ s, Py.isdigit s = true ->
            Py.lower (s +:+ t) = (s +:+ Py.lower t)%string
            ∧ Py.lstrip_by Py.isspace (s +:+ t) = (s +:+ t)%string ∧ s ≠ EmptyString).
  { intros [|c s] Hs; [done|]. unfold Py.isdigit in Hs. split; [by apply lower_digits|].
    simpl in Hs. apply andb_true_iff in Hs as [Hc _]. simpl.
    by rewrite (digit_not_isspace c Hc). }
  destruct (Z.le_gt_cases 0 h) as [Hpos|Hneg]; [by apply Hd, str_int_digits|].
  destruct h as [|p|p]; [lia|lia|].
  unfold Py.str_int. cbn [Z.to_int NilZero.string_of_int].
  destruct (Hd (NilZero.string_of_uint (Pos.to_uint p))) as (Hl & _ & _).
  { apply (str_int_digits (Z.pos p)). lia. }
  split; [|done]. simpl. by rewrite Hl.
Qed.

Lemma append_empty s : (s +:+ EmptyString)%string = s.
Proof.
  induction s as [|c s IH]; [done|].
  change (String c (s +:+ EmptyString)%string = String c s). by rewrite IH.
Qed.

Lemma k_formats_digits s : Py.isdigit s = true -> k_formats !! s = None.
Proof.
  intros Hs. unfold k_formats.
  rewrite !lookup_insert_ne; [apply lookup_empty|..]; by intros <-.
Qed.

(** X21.  The labels the module prints read back as the height they
    were made from.  The label [f"{h}p"] (the resolution given to a
    stream that has a height but neither a resolution nor a width, and
    the closest quality named in the warning of [get_video_streams]) is
    normalised to [h], and so is the plain numeral of a height that is
    not negative; the numeral has to stay within the interpreter's bound
    on the digits of [int]. *)
Theorem quality_label_round_trip h c :
  (String.length (Py.str_int h) <= Py.int_max_str_digits)%nat ->
  value_of (_parse_quality_body (format_int (Some h) +:+ "p") c) = Return h
  ∧ (0 <= h -> value_of (_parse_quality_body (Py.str_int h) c) = Return h)
  ∧ (∀ fmt width,
       truthy_str (get (resolution fmt)) = false -> truthy_int width = false -> h ≠ 0 ->
       ∃ label, resolution_of fmt (Some h) width = Some label
                ∧ value_of (_parse_quality_body label c) = Return h).
Proof.
  intros Hlen. pose proof (int_str_int h Hlen) as Hint.
  assert (Hlabel : value_of (_parse_quality_body (format_int (Some h) +:+ "p") c) = Return h).
  { unfold _parse_quality_body, try_except, int_, value_of, format_int.
    destruct (str_int_plain h "p") as (Hlower & Hlstrip & Hne).
    assert (Hq : String.eqb (Py.str_int h +:+ "p") EmptyString = false).
    { apply String.eqb_neq. by destruct (Py.str_int h). }
    rewrite Hq. unfold Py.strip. rewrite Hlower. change (Py.lower "p") with "p"%string.
    rewrite Hlstrip, rstrip_last by done.
    by rewrite endswith_last, drop_last_last, Hint. }
  split; [exact Hlabel|]. split.
  - intros Hpos. pose proof (str_int_digits h Hpos) as Hd.
    unfold _parse_quality_body, try_except, int_, value_of.
    destruct (str_int_plain h EmptyString) as (Hlower & Hlstrip & Hne).
    change (Py.lower EmptyString) with EmptyString in Hlower.
    rewrite !append_empty in Hlower, Hlstrip.
    apply String.eqb_neq in Hne. rewrite Hne. unfold Py.strip. rewrite Hlower, Hlstrip.
    assert (Hall : Py.all_digits (Py.str_int h) = true).
    { unfold Py.isdigit in Hd. by destruct (Py.str_int h). }
    rewrite rstrip_isspace_digits by done.
    by rewrite endswith_digits, k_formats_digits, Hd, Hint.
  - intros fmt width Hres Hwidth Hh. exists (format_int (Some h) +:+ "p")%string.
    split; [|exact Hlabel]. unfold resolution_of. rewrite Hres, Hwidth. simpl.
    apply Z.eqb_neq in Hh. by rewrite Hh.
Qed.

Lemma quality_label_round_trip_witness :
  value_of (_parse_quality_body "1080p" []) = Return 1080.
Proof.
  apply (proj1 (quality_label_round_trip 1080 [] ltac:(vm_compute; lia))).
Defined.

(** ** Error lines and failures *)

Lemma quiet_return_bounded {A} (m : M A) : bounded is_error_print 0 m -> quiet_return m.
Proof. intros Hb c a c' t Hrun. specialize (Hb c). rewrite Hrun in Hb. simpl in Hb. lia. Qed.

Lemma quiet_return_bind {A B} (m : M A) (k : A -> M B) :
  quiet_return m -> (∀ a, quiet_return (k a)) -> quiet_return (bind m k).
Proof.
  intros Hm Hk c b c' t. unfold bind.
  destruct (m c) as [[[a|e] c1] t1] eqn:Hrun; [|done].
  destruct (k a c1) as [[r c2] t2] eqn:Hrun2. intros [= -> -> <-].
  rewrite weight_app, (Hm _ _ _ _ Hrun), (Hk _ _ _ _ _ Hrun2). done.
Qed.

Lemma quiet_return_try {A} (body : M A) handler :
  quiet_return body -> (∀ e c a c' t, handler e c ≠ (Return a, c', t)) ->
  quiet_return (try_except body handler).
Proof.
  intros Hm Hk c b c' t. unfold try_except.
  destruct (body c) as [[[a|e] c1] t1] eqn:Hrun.
  - intros [= -> -> <-]. by eapply Hm.
  - destruct (handler e c1) as [[r c2] t2] eqn:Hrun2. intros [= -> -> <-].
    by apply Hk in Hrun2.
Qed.

Lemma quiet_return_log_debug self msg : quiet_return (_log_debug self msg).
Proof. intros c a c' t. unfold _log_debug, emit, ret. by destruct (debug self); intros [= _ _ <-]. Qed.

Lemma quiet_return_fetch_from self provider video_id remaining attempt last_error :
  quiet_return (_get_ytdlp_info_from self provider video_id remaining attempt last_error).
Proof.
  revert attempt last_error. induction remaining as [|n IH]; intros attempt last_error.
  - intros c a c' t. simpl. unfold raise_object, bind, _log_error, emit, raise.
    by destruct last_error.
  - cbn [_get_ytdlp_info_from].
    apply quiet_return_bind; [apply quiet_return_log_debug|]. intros _.
    apply quiet_return_bind; [by intros c a c' t [= _ _ <-]|]. intros _.
    destruct (provider attempt) as [[info|]|cls msg].
    + apply quiet_return_bind; [apply quiet_return_log_debug|]. intros _.
      by intros c a c' t [= _ _ <-].
    + apply IH.
    + destruct cls; try (by intros c a c' t).
      apply quiet_return_bind; [by intros c a c' t [= _ _ <-]|]. intros _.
      apply quiet_return_bind; [by intros c a c' t [= _ _ <-]|]. intros _.
      apply quiet_return_bind; [|intros _; apply IH].
      destruct (_ <? _); [|by intros c a c' t [= _ _ <-]].
      apply quiet_return_bind; [apply quiet_return_log_debug|]. intros _.
      unfold sleep. destruct (Qle_bool 0 (retry_delay self)); [|by intros c a c' t].
      by intros c a c' t [= _ _ <-].
Qed.

Lemma outer_handler_never_returns {A} prefix1 prefix2 prefix3 e c (a : A) c' t :
  (match class_of e with
   | DownloadError => _log_error (prefix1 :: str_of e);; raise e
   | _ => _log_error (prefix2 :: str_of e);;
          raise (Exn ValueError (prefix3 :: str_of e))
   end) c ≠ (Return a, c', t).
Proof. by destruct (class_of e). Qed.

Lemma quiet_return_get_video_streams self provider video_id quality :
  quiet_return (get_video_streams self provider video_id quality).
Proof.
  unfold get_video_streams.
  apply quiet_return_try; [|intros e c a c' t; apply outer_handler_never_returns].
  apply quiet_return_bind; [apply quiet_return_log_debug|]. intros _.
  apply quiet_return_bind; [apply quiet_return_fetch_from|]. intros info.
  destruct (formats info) as [| |fmts]; [by intros c a c' t|..];
    (apply quiet_return_bind;
     [apply quiet_return_bounded, bounded_parse_quality; done|]); intros target;
    (apply quiet_return_bind; [by intros c a c' t; simpl; intros [= _ _ <-]|]); intros l;
    apply quiet_return_bounded, bounded_get_video_streams_select; done.
Qed.

Lemma quiet_return_get_audio_streams self provider video_id bitrate codec :
  quiet_return (get_audio_streams self provider video_id bitrate codec).
Proof.
  unfold get_audio_streams.
  apply quiet_return_try; [|intros e c a c' t; apply outer_handler_never_returns].
  apply quiet_return_bind; [apply quiet_return_log_debug|]. intros _.
  apply quiet_return_bind; [apply quiet_return_fetch_from|]. intros info.
  destruct (formats info) as [| |fmts]; [by intros c a c' t|..];
    (apply quiet_return_bind; [by intros c a c' t; simpl; intros [= _ _ <-]|]); intros l;
    apply quiet_return_bounded, bounded_get_audio_streams_select; done.
Qed.

Lemma error_line_weight t :
  (∃ msg, Print ERROR msg ∈ t) <-> weight is_error_print t ≠ 0%nat.
Proof.
  unfold weight, fmap. induction t as [|e t IH]; simpl.
  - split; [|done]. intros [msg Hin]. by apply elem_of_nil in Hin.
  - split.
    + intros [msg [<-|Hin]%elem_of_cons]; [simpl; lia|].
      assert (sum_list (list_fmap _ _ is_error_print t) ≠ 0%nat) by (apply IH; eauto). lia.
    + intros Hw. destruct e as [[] msg| | |]; simpl in Hw;
        try (destruct (proj2 IH Hw) as [msg' Hin]; exists msg'; by right).
      exists msg. by left.
Qed.

Lemma error_line_iff_raises {A} (m : M A) c :
  quiet_return m ->
  (∀ e, value_of (m c) = Raise e -> ∃ msg, last (trace_of (m c)) = Some (Print ERROR msg)) ->
  (∃ msg, Print ERROR msg ∈ trace_of (m c)) <-> ∃ e, value_of (m c) = Raise e.
Proof.
  intros Hq Hlast. split.
  - intros Hin%error_line_weight. unfold value_of, trace_of in *.
    destruct (m c) as [[[a|e] c'] t] eqn:Hrun; [|by exists e].
    simpl in Hin. by rewrite (Hq _ _ _ _ Hrun) in Hin.
  - intros [e He]. destruct (Hlast e He) as [msg Hmsg]. exists msg.
    by apply last_Some_elem_of.
Qed.

(** X22.  The single-stream operations print an error line exactly when
    they fail: a call that returns has printed none, whatever warnings
    it gave.  The unified call is different: it returns with the error
    line of a branch that the other branch made up for. *)
Theorem error_line_iff_failure :
  (∀ self provider video_id quality c,
     (∃ msg, Print ERROR msg ∈ trace_of (get_video_streams self provider video_id quality c))
     <-> ∃ e, value_of (get_video_streams self provider video_id quality c) = Raise e) ∧
  (∀ self provider video_id bitrate codec c,
     (∃ msg, Print ERROR msg
             ∈ trace_of (get_audio_streams self provider video_id bitrate codec c))
     <-> ∃ e, value_of (get_audio_streams self provider video_id bitrate codec c) = Raise e) ∧
  (let run := get_unified_streams (create_optimized_extractor false) (serving two_formats)
                (fun t => bool_decide (t = Audio)) "id" 128 "1080p" None None true true [] in
   (∃ r, value_of run = Return r)
   ∧ Print ERROR [Str "Audio"; Lit " worker timed out"] ∈ trace_of run).
Proof.
  split; [|split].
  - intros self provider video_id quality c.
    apply error_line_iff_raises; [apply quiet_return_get_video_streams|].
    intros e He. unfold get_video_streams in *.
    apply try_outer_handler_raises in He as (e0 & prefix & _ & _ & Hlast). eauto.
  - intros self provider video_id bitrate codec c.
    apply error_line_iff_raises; [apply quiet_return_get_audio_streams|].
    intros e He. unfold get_audio_streams in *.
    apply try_outer_handler_raises in He as (e0 & prefix & _ & _ & Hlast). eauto.
  - cbv zeta. split; [eexists; vm_compute; reflexivity|]. vm_compute. in_list.
Qed.

Lemma error_line_iff_failure_witness :
  ∃ msg, Print ERROR msg
         ∈ trace_of (get_video_streams (create_optimized_extractor false)
                       (fun _ => Throws OtherException "boom") "id" "720p" []).
Proof.
  apply (proj1 error_line_iff_failure (create_optimized_extractor false)
           (fun _ => Throws OtherException "boom") "id"%string "720p"%string []).
  eexists. vm_compute. reflexivity.
Defined.

(** ** The performance monitor *)

Lemma monitor_run_paired calls :
  ∀ self previous,
    (truthy_float (PerformanceMonitor.start_time self) = true ->
     previous = Some (PerformanceMonitor.Starting (PerformanceMonitor.operation_name self))) ->
    completions_follow_starts previous (monitor_run self calls).2 = true.
Proof.
  induction calls as [|[name now|now] calls IH]; intros self previous Hprev; [done|..];
    cbn [monitor_run].
  - unfold PerformanceMonitor.start.
    destruct (monitor_run _ calls) as [self'' out'] eqn:Hrun. simpl.
    specialize (IH {| PerformanceMonitor.start_time := Some now;
                      PerformanceMonitor.operation_name := name |}
                  (Some (PerformanceMonitor.Starting name)) (fun _ => eq_refl)).
    by rewrite Hrun in IH.
  - unfold PerformanceMonitor.end_.
    destruct (truthy_float (PerformanceMonitor.start_time self)) eqn:Ht.
    + destruct (monitor_run _ calls) as [self'' out'] eqn:Hrun. simpl.
      rewrite (Hprev eq_refl), String.eqb_refl. simpl.
      specialize (IH {| PerformanceMonitor.start_time := None;
                        PerformanceMonitor.operation_name :=
                          PerformanceMonitor.operation_name self |}
                    (Some (PerformanceMonitor.Completed
                             (PerformanceMonitor.operation_name self)
                             (Py.float_sub now
                                (default 0%Q (PerformanceMonitor.start_time self)))))).
      rewrite Hrun in IH. by apply IH.
    + rewrite <- Ht in Hprev. specialize (IH self previous Hprev).
      destruct (monitor_run self calls) as [self'' out']. done.
Qed.

(** X23.  Whatever the sequence of [start] and [end] calls on a fresh
    performance monitor and whatever the clock shows, every completion
    line is printed directly after the start line of the same operation:
    an [end] without a running measurement prints nothing, and none is
    reported twice. *)
Theorem monitor_completions_follow_starts calls :
  completions_follow_starts None (monitor_run PerformanceMonitor.__init__ calls).2 = true.
Proof. by apply monitor_run_paired. Qed.

(** ** The video branch of the unified call and [get_video_streams] *)

Lemma runs_ret {A} (a : A) c : runs (ret a) c a c.
Proof. by exists []. Qed.

Lemma runs_bind {A B} (m : M A) (k : A -> M B) c a c1 b c2 :
  runs m c a c1 -> runs (k a) c1 b c2 -> runs (bind m k) c b c2.
Proof. intros [t1 H1] [t2 H2]. unfold runs, bind. rewrite H1, H2. eauto. Qed.

Lemma runs_log_debug self msg c : runs (_log_debug self msg) c tt c.
Proof. unfold runs, _log_debug, emit, ret. destruct (debug self); eauto. Qed.

Lemma value_of_runs_bind {A B} (m : M A) (k : A -> M B) c a c1 :
  runs m c a c1 -> value_of (bind m k c) = value_of (k a c1).
Proof. intros [t Hm]. by eapply value_of_bind_return. Qed.

Lemma runs_fetch self provider video_id c info :
  value_of (_get_ytdlp_info self provider video_id c) = Return info ->
  runs (_get_ytdlp_info self provider video_id) c info c.
Proof.
  intros Hv. pose proof (preserves_fetch_from self (eq c) provider video_id
                           (Z.to_nat (max_retries self)) 0 None c eq_refl) as Hc.
  fold (_get_ytdlp_info self provider video_id) in Hc. unfold value_of, cache_of, runs in *.
  destruct (_get_ytdlp_info self provider video_id c) as [[r c'] t]. simpl in *.
  subst. eauto.
Qed.

Lemma runs_prefilter_video_only fmts c :
  runs (prefilter true false fmts) c (List.filter video_candidate fmts, []) c.
Proof.
  induction fmts as [|fmt fmts IH]; [apply runs_ret|]. cbn [prefilter List.filter].
  eapply runs_bind.
  { instantiate (1 := c). instantiate (1 := (video_candidate fmt, false)).
    unfold prefilter_entry, video_candidate.
    destruct (truthy_str (get_or (url fmt) EmptyString)); by exists []. }
  eapply runs_bind; [exact IH|]. simpl. destruct (video_candidate fmt); apply runs_ret.
Qed.

(** On a video candidate the loop bodies of the two paths build the
    same stream. *)
Lemma video_candidate_entry fmt c :
  video_candidate fmt = true ->
  ∃ s, get_video_streams_entry fmt = Some s
       ∧ runs (process_video_streams_entry None fmt) c (Some s) c.
Proof.
  unfold video_candidate, get_video_streams_entry, process_video_streams_entry.
  intros [Hu Hrest]%andb_true_iff.
  repeat (apply andb_true_iff in Hrest as [Hrest ?]).
  apply truthy_str_nonempty in Hu as (u & Hu & Hne).
  assert (Hurl : url fmt = Has u).
  { destruct (url fmt); simpl in Hu; congruence. }
  apply truthy_str_nonempty in Hrest as (vc & Hvc & Hvne).
  assert (Hvcodec : vcodec fmt = Has vc).
  { destruct (vcodec fmt); simpl in Hvc; congruence. }
  rewrite Hurl, Hvcodec in *. simpl in *.
  assert (Hn : bool_decide (Some vc = Some "none"%string) = false)
    by (by apply negb_true_iff).
  assert (Hm : Py.contains "manifest" u = false) by (by apply negb_true_iff).
  apply String.eqb_neq in Hne, Hvne. rewrite Hn, Hm, Hne, Hvne. simpl.
  eexists. split; [reflexivity|]. unfold runs, bind, ret, subscript_url. rewrite Hurl.
  by exists [].
Qed.

Lemma runs_collect_video_candidates vf c :
  Forall (fun fmt => video_candidate fmt = true) vf ->
  runs (collect (process_video_streams_entry None) vf) c (omap get_video_streams_entry vf) c.
Proof.
  induction 1 as [|fmt vf Hfmt Hvf IH]; [apply runs_ret|]. rewrite collect_cons.
  destruct (video_candidate_entry fmt c Hfmt) as (s & Hs & Hrun).
  eapply runs_bind; [exact Hrun|]. eapply runs_bind; [exact IH|].
  unfold omap. simpl. rewrite Hs. apply runs_ret.
Qed.

Lemma omap_video_candidates fmts :
  (∀ fmt, fmt ∈ fmts -> get_video_streams_entry fmt ≠ None -> video_candidate fmt = true) ->
  omap get_video_streams_entry (List.filter video_candidate fmts)
  = omap get_video_streams_entry fmts.
Proof.
  induction fmts as [|fmt fmts IH]; [done|]. intros Hall. cbn [List.filter].
  assert (IH' := IH (fun f Hf => Hall f (list_elem_of_further _ _ _ Hf))).
  unfold omap in *. destruct (video_candidate fmt) eqn:Hc.
  - simpl. by rewrite IH'.
  - simpl. destruct (get_video_streams_entry fmt) eqn:He; [|done].
    rewrite Hall in Hc; [done|by left|by rewrite He].
Qed.

Lemma filter_video_candidates fmts :
  Forall (fun fmt => video_candidate fmt = true) (List.filter video_candidate fmts).
Proof.
  apply Forall_forall. intros fmt Hin. by apply in_filter_pass in Hin.
Qed.

(** The two selections return the same stream. *)
Lemma video_selects_agree self quality video_codec video_formats target l c c' :
  l ≠ [] ->
  value_of (process_video_streams_select self video_codec video_formats target l c)
  = value_of (get_video_streams_select self quality target l c').
Proof.
  intros Hne. destruct l as [|s l]; [done|].
  unfold process_video_streams_select, get_video_streams_select.
  destruct (List.filter (height_is target) (s :: l)); run; by destruct (debug self).
Qed.

Lemma value_of_try_reraise {A} (body : M A) msg c :
  value_of (try_except body (fun e => _log_error (msg e);; raise e) c) = value_of (body c).
Proof. unfold try_except, value_of. by destruct (body c) as [[[a|e] c1] t1]. Qed.

Lemma value_of_try_outer {A} (body : M A) prefix1 prefix2 prefix3 c :
  value_of (try_except body
              (fun e0 =>
                 match class_of e0 with
                 | DownloadError => _log_error (prefix1 :: str_of e0);; raise e0
                 | _ => _log_error (prefix2 :: str_of e0);;
                        raise (Exn ValueError (Lit prefix3 :: str_of e0))
                 end) c)
  = match value_of (body c) with
    | Return a => Return a
    | Raise e0 => Raise (rethrown prefix3 e0)
    end.
Proof.
  unfold try_except, value_of, rethrown. destruct (body c) as [[[a|e0] c1] t1]; [done|].
  destruct (class_of e0) eqn:Hcls; simpl; by rewrite Hcls.
Qed.

Lemma results_video_only self timed_out duration vw aw c :
  timed_out Video = false ->
  value_of (get_unified_streams_results self true false timed_out duration vw aw c)
  = match value_of (vw c) with
    | Return streams =>
        Return {| r_duration := duration; r_video := Some streams; r_audio := None |}
    | Raise e => Raise e
    end.
Proof.
  intros Ht. unfold_results; simpl. rewrite Ht.
  destruct (debug self); simpl; by destruct (vw c) as [[[vs|e] c1] tv].
Qed.

Lemma entry_is_candidate fmt s :
  get_video_streams_entry fmt = Some s ->
  Py.contains "videoplayback" (default EmptyString (s_url s)) = true ->
  video_candidate fmt = true.
Proof.
  unfold get_video_streams_entry, video_candidate.
  destruct (negb (truthy_str (get (vcodec fmt))) || _) eqn:Hc; [done|].
  destruct (negb (truthy_str (get_or (url fmt) EmptyString)) || _) eqn:Hu; [done|].
  intros [= <-]. simpl. intros Hv.
  apply orb_false_iff in Hc as [Hc1 Hc2], Hu as [Hu1 Hu2].
  apply negb_false_iff in Hc1, Hu1. by rewrite Hc1, Hc2, Hu1, Hu2, Hv.
Qed.

(** The video worker on the candidates of the pre-filter, against the
    selection of [get_video_streams] on its own candidates. *)
Lemma video_worker_agrees self fmts quality target c c2 :
  (∀ fmt s, fmt ∈ fmts -> get_video_streams_entry fmt = Some s ->
            Py.contains "videoplayback" (default EmptyString (s_url s)) = true) ->
  runs (_parse_quality quality) c target c2 ->
  ∀ streams,
    value_of (process_video_streams self (List.filter video_candidate fmts) quality None c)
    = Return streams
    <-> value_of (get_video_streams_select self quality target
                    (omap get_video_streams_entry fmts) c2) = Return streams.
Proof.
  intros Hall Hpq streams.
  rewrite <- (omap_video_candidates fmts).
  2:{ intros fmt Hin Hsome. destruct (get_video_streams_entry fmt) as [s|] eqn:He; [|done].
      eapply entry_is_candidate; [exact He|]. by eapply Hall. }
  pose proof (filter_video_candidates fmts) as Hvf.
  generalize dependent (List.filter video_candidate fmts). intros vf Hvf.
  unfold process_video_streams. rewrite value_of_try_reraise, value_of_bind_log_debug.
  destruct vf as [|fmt vf'] eqn:Hvfeq; [done|]. rewrite <- Hvfeq in *.
  rewrite (value_of_runs_bind _ _ _ _ _ Hpq).
  rewrite (value_of_runs_bind _ _ _ _ _ (runs_collect_video_candidates _ c2 Hvf)).
  destruct (omap get_video_streams_entry vf) as [|s l] eqn:Hl; [done|].
  by rewrite (video_selects_agree self quality None vf target (s :: l) c2 c2).
Qed.

(** X24.  The unified call for the video branch alone agrees with
    [get_video_streams]: when every video candidate of the fetched info
    has a URL with ["videoplayback"] in it, no codec filter is given and
    the wait for the worker does not run out, the unified call returns
    a stream exactly when [get_video_streams] does, and it is the same
    stream. *)
Theorem unified_video_agrees_with_single self provider timed_out video_id audio_bitrate
    quality audio_codec c info fmts :
  value_of (_get_ytdlp_info self provider video_id c) = Return info ->
  formats info = Has fmts ->
  (∀ fmt s, fmt ∈ fmts -> get_video_streams_entry fmt = Some s ->
            Py.contains "videoplayback" (default EmptyString (s_url s)) = true) ->
  timed_out Video = false ->
  ∀ streams,
    value_of (get_video_streams self provider video_id quality c) = Return streams
    <-> value_of (get_unified_streams self provider timed_out video_id audio_bitrate quality
                    audio_codec None true false c)
        = Return {| r_duration := get_or (duration info) 0; r_video := Some streams;
                    r_audio := None |}.
Proof.
  intros Hfetch%runs_fetch Hformats Hall Ht streams.
  destruct (_parse_quality_returns quality c) as (target & c2 & tq & Hpq).
  assert (Hruns : runs (_parse_quality quality) c target c2) by (by exists tq).
  assert (Hsingle :
            value_of (get_video_streams self provider video_id quality c) = Return streams
            <-> value_of (get_video_streams_select self quality target
                            (omap get_video_streams_entry fmts) c2) = Return streams).
  { unfold get_video_streams. rewrite value_of_try_outer, value_of_bind_log_debug.
    rewrite (value_of_runs_bind _ _ _ _ _ Hfetch), Hformats.
    rewrite (value_of_runs_bind _ _ _ _ _ Hruns).
    rewrite (value_of_runs_bind _ _ _ _ _ (runs_ret fmts c2)).
    destruct (value_of (get_video_streams_select _ _ _ _ _)); [reflexivity|by split]. }
  rewrite Hsingle, <- (video_worker_agrees self fmts quality target c c2 Hall Hruns).
  clear Hsingle.
  unfold get_unified_streams. cbn [negb andb].
  rewrite value_of_try_outer, value_of_bind_log_debug.
  rewrite (value_of_runs_bind _ _ _ _ _ Hfetch), Hformats. cbn [get_or].
  destruct fmts as [|fmt0 fmts'] eqn:Hfmts.
  { simpl List.filter. unfold process_video_streams.
    rewrite value_of_try_reraise, value_of_bind_log_debug. by split. }
  rewrite <- Hfmts in *.
  rewrite (value_of_runs_bind _ _ _ _ _ (runs_prefilter_video_only fmts c)).
  cbn [fst snd]. rewrite results_video_only by done.
  destruct (value_of (process_video_streams _ _ _ _ _)) as [streams'|e]; [|by split].
  split; [by intros [= ->]|by intros [= ->]].
Qed.

Lemma unified_video_agrees_with_single_witness :
  ∃ s,
    value_of (get_unified_streams (create_optimized_extractor false) (serving two_formats)
                (fun _ => false) "id" 128 "1080p" None None true false [])
    = Return {| r_duration := Some 60; r_video := Some [s]; r_audio := None |}.
Proof.
  eexists.
  apply (unified_video_agrees_with_single (create_optimized_extractor false)
           (serving two_formats) (fun _ => false) "id"%string 128 "1080p"%string None []
           {| duration := Has 60; formats := Has two_formats |} two_formats eq_refl eq_refl).
  - intros fmt s Hin. unfold two_formats in Hin. split_in Hin; subst fmt; [|done].
    intros [= <-]. reflexivity.
  - reflexivity.
  - vm_compute. reflexivity.
Defined.

(** ** The audio branch of the unified call and [get_audio_streams] *)

Lemma runs_prefilter_audio_only fmts c :
  Forall (fun fmt => tbr fmt ≠ Null) fmts ->
  runs (prefilter false true fmts) c ([], List.filter audio_candidate fmts) c.
Proof.
  induction 1 as [|fmt fmts Hfmt Hfmts IH]; [apply runs_ret|]. cbn [prefilter List.filter].
  eapply runs_bind.
  { instantiate (1 := c). instantiate (1 := (false, audio_candidate fmt)).
    unfold prefilter_entry, audio_candidate, gt_zero.
    destruct (truthy_str (get_or (url fmt) EmptyString)); [|by exists []].
    simpl. destruct (truthy_str (get (acodec fmt)) && _); [|by exists []].
    destruct (tbr fmt); [by exists []|done|by exists []]. }
  eapply runs_bind; [exact IH|]. simpl. destruct (audio_candidate fmt); apply runs_ret.
Qed.

Lemma Qltb_truthy q : Qltb 0 q = true -> truthy_float (Some q) = true ∧ Qle_bool q 0 = false.
Proof.
  unfold Qltb. rewrite negb_true_iff. intros Hle. split; [|done]. simpl.
  apply negb_true_iff. destruct (Qeq_bool q 0) eqn:Heq; [|done].
  apply Qeq_bool_iff in Heq. assert (Hq : (q <= 0)%Q) by (rewrite Heq; apply Qle_refl).
  apply Qle_bool_iff in Hq. congruence.
Qed.

Lemma audio_candidate_entry fmt c :
  audio_candidate fmt = true ->
  ∃ s, get_audio_streams_entry fmt = Some s
       ∧ runs (process_audio_streams_entry None fmt) c (Some s) c.
Proof.
  unfold audio_candidate, get_audio_streams_entry, process_audio_streams_entry.
  intros [Hu Hrest]%andb_true_iff.
  repeat (apply andb_true_iff in Hrest as [Hrest ?]).
  apply truthy_str_nonempty in Hu as (u & Hu & Hne).
  assert (Hurl : url fmt = Has u).
  { destruct (url fmt); simpl in Hu; congruence. }
  apply truthy_str_nonempty in Hrest as (ac & Hac & Hane).
  assert (Hacodec : acodec fmt = Has ac).
  { destruct (acodec fmt); simpl in Hac; congruence. }
  rewrite Hurl, Hacodec in *. simpl in *.
  assert (Hn : bool_decide (Some ac = Some "none"%string) = false)
    by (by apply negb_true_iff).
  destruct (get_or (tbr fmt) 0%Q) as [q|] eqn:Hq; [|done]. simpl in *.
  match goal with H : Qltb 0 q = true |- _ => apply Qltb_truthy in H as [Htq Hle] end.
  simpl in Htq. apply String.eqb_neq in Hne, Hane. rewrite Hn, Hne, Hane, Htq, Hle. simpl.
  eexists. split; [reflexivity|]. unfold runs, bind, ret, subscript_url. rewrite Hurl.
  by exists [].
Qed.

Lemma entry_is_audio_candidate fmt s :
  get_audio_streams_entry fmt = Some s -> audio_candidate fmt = true.
Proof.
  unfold get_audio_streams_entry, audio_candidate.
  destruct (negb (truthy_str (get (acodec fmt))) || _) eqn:Hc; [done|].
  destruct (negb (truthy_float (get_or (tbr fmt) 0%Q)) || _) eqn:Hb; [done|].
  destruct (negb (truthy_str (get_or (url fmt) EmptyString))) eqn:Hu; [done|].
  intros _. apply orb_false_iff in Hc as [Hc1 Hc2], Hb as [Hb1 Hb2].
  apply negb_false_iff in Hc1, Hu. rewrite Hc1, Hc2, Hu. unfold Qltb. by rewrite Hb2.
Qed.

Lemma runs_collect_audio_candidates af c :
  Forall (fun fmt => audio_candidate fmt = true) af ->
  runs (collect (process_audio_streams_entry None) af) c (omap get_audio_streams_entry af) c.
Proof.
  induction 1 as [|fmt af Hfmt Haf IH]; [apply runs_ret|]. rewrite collect_cons.
  destruct (audio_candidate_entry fmt c Hfmt) as (s & Hs & Hrun).
  eapply runs_bind; [exact Hrun|]. eapply runs_bind; [exact IH|].
  unfold omap. simpl. rewrite Hs. apply runs_ret.
Qed.

Lemma omap_audio_candidates fmts :
  omap get_audio_streams_entry (List.filter audio_candidate fmts)
  = omap get_audio_streams_entry fmts.
Proof.
  induction fmts as [|fmt fmts IH]; [done|]. cbn [List.filter].
  unfold omap in *. destruct (audio_candidate fmt) eqn:Hc.
  - simpl. by rewrite IH.
  - simpl. destruct (get_audio_streams_entry fmt) eqn:He; [|done].
    apply entry_is_audio_candidate in He. congruence.
Qed.

Lemma audio_selects_agree self audio_formats bitrate l c c' :
  l ≠ [] ->
  value_of (process_audio_streams_select self None audio_formats bitrate l c)
  = value_of (get_audio_streams_select self bitrate None l c').
Proof.
  intros Hne. destruct l as [|s l]; [done|].
  unfold process_audio_streams_select, get_audio_streams_select, get_audio_streams_filtered,
    get_audio_streams_closest.
  run. by destruct (debug self), (bitrate_differs _ _).
Qed.

Lemma results_audio_only self timed_out duration vw aw c :
  timed_out Audio = false ->
  value_of (get_unified_streams_results self false true timed_out duration vw aw c)
  = match value_of (aw c) with
    | Return streams =>
        Return {| r_duration := duration; r_video := None; r_audio := Some streams |}
    | Raise e => Raise e
    end.
Proof.
  intros Ht. unfold_results; simpl. rewrite Ht.
  destruct (debug self); simpl; by destruct (aw c) as [[[vs|e] c1] tv].
Qed.

(** X25.  The unified call for the audio branch alone agrees with
    [get_audio_streams]: when no descriptor of the fetched info has a
    null average bitrate, no codec filter is given and the wait for the
    worker does not run out, the unified call returns a stream exactly
    when [get_audio_streams] does, and it is the same stream. *)
Theorem unified_audio_agrees_with_single self provider timed_out video_id bitrate
    video_quality video_codec c info fmts :
  value_of (_get_ytdlp_info self provider video_id c) = Return info ->
  formats info = Has fmts ->
  Forall (fun fmt => tbr fmt ≠ Null) fmts ->
  timed_out Audio = false ->
  ∀ streams,
    value_of (get_audio_streams self provider video_id bitrate None c) = Return streams
    <-> value_of (get_unified_streams self provider timed_out video_id bitrate video_quality
                    None video_codec false true c)
        = Return {| r_duration := get_or (duration info) 0; r_video := None;
                    r_audio := Some streams |}.
Proof.
  intros Hfetch%runs_fetch Hformats Hall Ht streams.
  assert (Hsingle :
            value_of (get_audio_streams self provider video_id bitrate None c)
            = Return streams
            <-> value_of (get_audio_streams_select self bitrate None
                            (omap get_audio_streams_entry fmts) c) = Return streams).
  { unfold get_audio_streams. rewrite value_of_try_outer, value_of_bind_log_debug.
    rewrite (value_of_runs_bind _ _ _ _ _ Hfetch), Hformats.
    rewrite (value_of_runs_bind _ _ _ _ _ (runs_ret fmts c)).
    destruct (value_of (get_audio_streams_select _ _ _ _ _)); [reflexivity|by split]. }
  rewrite Hsingle. clear Hsingle.
  unfold get_unified_streams. cbn [negb andb].
  rewrite value_of_try_outer, value_of_bind_log_debug.
  rewrite (value_of_runs_bind _ _ _ _ _ Hfetch), Hformats. cbn [get_or].
  destruct fmts as [|fmt0 fmts'] eqn:Hfmts; [by split|]. rewrite <- Hfmts in *.
  rewrite (value_of_runs_bind _ _ _ _ _ (runs_prefilter_audio_only fmts c Hall)).
  cbn [fst snd]. rewrite results_audio_only by done.
  rewrite <- (omap_audio_candidates fmts).
  assert (Haf : Forall (fun fmt => audio_candidate fmt = true)
                  (List.filter audio_candidate fmts)).
  { apply Forall_forall. intros fmt Hin. by apply in_filter_pass in Hin. }
  generalize dependent (List.filter audio_candidate fmts). intros af Haf.
  unfold process_audio_streams. rewrite value_of_try_reraise, value_of_bind_log_debug.
  destruct af as [|fmt af'] eqn:Hafeq; [by split|]. rewrite <- Hafeq in *.
  rewrite (value_of_runs_bind _ _ _ _ _ (runs_collect_audio_candidates _ c Haf)).
  destruct (omap get_audio_streams_entry af) as [|s l] eqn:Hl; [by split|].
  rewrite (audio_selects_agree self af bitrate (s :: l) c c) by done.
  destruct (value_of (get_audio_streams_select _ _ _ _ _)) as [streams'|e]; [|by split].
  split; [by intros [= ->]|by intros [= ->]].
Qed.

Lemma unified_audio_agrees_with_single_witness :
  ∃ s,
    value_of (get_unified_streams (create_optimized_extractor false) (serving two_formats)
                (fun _ => false) "id" 128 "1080p" None None false true [])
    = Return {| r_duration := Some 60; r_video := None; r_audio := Some [s] |}.
Proof.
  eexists.
  apply (unified_audio_agrees_with_single (create_optimized_extractor false)
           (serving two_formats) (fun _ => false) "id"%string 128 "1080p"%string None []
           {| duration := Has 60; formats := Has two_formats |} two_formats eq_refl eq_refl).
  - by repeat constructor.
  - reflexivity.
  - vm_compute. reflexivity.
Defined.

(** ** Codec tokens and case *)

Lemma similar_refl {A} (m : M A) : similar m m.
Proof. intros c. by destruct (m c) as [[[a|e] c1] t]. Qed.

Lemma similar_raise {A} e1 e2 : class_of e1 = class_of e2 -> similar (raise e1 : M A) (raise e2).
Proof. by intros He c. Qed.

Lemma similar_bind {A B} (m1 m2 : M A) (k1 k2 : A -> M B) :
  similar m1 m2 -> (∀ a, similar (k1 a) (k2 a)) -> similar (bind m1 k1) (bind m2 k2).
Proof.
  intros Hm Hk c. specialize (Hm c). unfold bind.
  destruct (m1 c) as [[[a1|e1] c1] t1], (m2 c) as [[[a2|e2] c2] t2]; try done.
  destruct Hm as [-> ->]. specialize (Hk a2 c2).
  by destruct (k1 a2 c2) as [[[b1|e1] c1'] t1'], (k2 a2 c2) as [[[b2|e2] c2'] t2'].
Qed.

Lemma similar_try {A} (b1 b2 : M A) (h1 h2 : exn -> M A) :
  similar b1 b2 ->
  (∀ e1 e2, class_of e1 = class_of e2 -> similar (h1 e1) (h2 e2)) ->
  similar (try_except b1 h1) (try_except b2 h2).
Proof.
  intros Hb Hh c. specialize (Hb c). unfold try_except.
  destruct (b1 c) as [[[a1|e1] c1] t1], (b2 c) as [[[a2|e2] c2] t2]; try done.
  destruct Hb as [He ->]. specialize (Hh e1 e2 He c2).
  by destruct (h1 e1 c2) as [[[x1|x1] c1'] t1'], (h2 e2 c2) as [[[x2|x2] c2'] t2'].
Qed.

Lemma similar_log_debug self m1 m2 : similar (_log_debug self m1) (_log_debug self m2).
Proof. intros c. unfold _log_debug. by destruct (debug self). Qed.

Lemma similar_log_warning m1 m2 : similar (_log_warning m1) (_log_warning m2).
Proof. by intros c. Qed.

Lemma similar_log_error m1 m2 : similar (_log_error m1) (_log_error m2).
Proof. by intros c. Qed.

Lemma similar_await_worker self include_video include_audio t timed_out w1 w2 :
  similar w1 w2 ->
  similar (await_worker self include_video include_audio t timed_out w1)
    (await_worker self include_video include_audio t timed_out w2).
Proof.
  intros Hw. unfold await_worker.
  apply similar_bind; [apply similar_log_debug|]. intros _.
  destruct timed_out; [apply similar_refl|].
  apply similar_try.
  - apply similar_bind; [exact Hw|]. intros streams. apply similar_refl.
  - intros e1 e2 He. apply similar_bind; [apply similar_log_error|]. intros _.
    destruct (other_not_requested _ _ _); [by apply similar_raise|].
    apply similar_bind; [apply similar_log_warning|]. intros _. apply similar_refl.
Qed.

Lemma similar_results self include_video include_audio timed_out duration v1 v2 a1 a2 :
  similar v1 v2 -> similar a1 a2 ->
  similar (get_unified_streams_results self include_video include_audio timed_out duration
             v1 a1)
    (get_unified_streams_results self include_video include_audio timed_out duration v2 a2).
Proof.
  intros Hv Ha. unfold get_unified_streams_results.
  apply similar_bind; [apply similar_refl|]. intros _.
  apply similar_bind; [apply similar_refl|]. intros _.
  apply similar_bind.
  { destruct include_video; [|apply similar_refl].
    apply similar_bind; [by apply similar_await_worker|]. intros ?. apply similar_refl. }
  intros video. apply similar_bind.
  { destruct include_audio; [|apply similar_refl].
    apply similar_bind; [by apply similar_await_worker|]. intros ?. apply similar_refl. }
  intros audio. apply similar_refl.
Qed.

Lemma similar_outer_handler {A} p1 p2 p3 q1 q2 q3 e1 e2 :
  class_of e1 = class_of e2 ->
  similar (match class_of e1 with
           | DownloadError => _log_error (p1 :: str_of e1);; raise e1
           | _ => _log_error (p2 :: str_of e1);; raise (Exn ValueError (p3 :: str_of e1))
           end : M A)
    (match class_of e2 with
     | DownloadError => _log_error (q1 :: str_of e2);; raise e2
     | _ => _log_error (q2 :: str_of e2);; raise (Exn ValueError (q3 :: str_of e2))
     end).
Proof.
  intros He. rewrite <- He.
  destruct (class_of e1) eqn:Hcls; (apply similar_bind; [apply similar_log_error|]);
    intros _; apply similar_raise; simpl; congruence.
Qed.

Lemma truthy_str_lower v : truthy_str (Py.lower <$> v) = truthy_str v.
Proof. by destruct v as [[|ch s]|]. Qed.

Lemma entry_lower_video codec fmt :
  process_video_streams_entry (Py.lower <$> codec) fmt
  = process_video_streams_entry codec fmt.
Proof.
  unfold process_video_streams_entry. rewrite truthy_str_lower.
  destruct codec as [token|]; [|done]. simpl. by rewrite lower_idem.
Qed.

Lemma entry_lower_audio codec fmt :
  process_audio_streams_entry (Py.lower <$> codec) fmt
  = process_audio_streams_entry codec fmt.
Proof.
  unfold process_audio_streams_entry. rewrite truthy_str_lower.
  destruct codec as [token|]; [|done]. simpl. by rewrite lower_idem.
Qed.

Lemma collect_ext {A B} (f g : A -> M (option B)) l :
  (∀ x, f x = g x) -> collect f l = collect g l.
Proof.
  intros Hfg. induction l as [|x l IH]; [done|]. by rewrite !collect_cons, Hfg, IH.
Qed.

Lemma similar_process_video_streams self video_formats video_quality codec :
  similar (process_video_streams self video_formats video_quality (Py.lower <$> codec))
    (process_video_streams self video_formats video_quality codec).
Proof.
  unfold process_video_streams.
  apply similar_try; [|intros e1 e2 He; apply similar_bind;
                        [apply similar_log_error|intros _; by apply similar_raise]].
  apply similar_bind; [apply similar_refl|]. intros _.
  destruct video_formats as [|fmt l]; [apply similar_refl|].
  apply similar_bind; [apply similar_refl|]. intros target.
  rewrite (collect_ext _ _ _ (entry_lower_video codec)).
  apply similar_bind; [apply similar_refl|]. intros video_streams.
  unfold process_video_streams_select.
  destruct video_streams; [by apply similar_raise|apply similar_refl].
Qed.

Lemma similar_process_audio_streams self audio_formats audio_bitrate codec :
  similar (process_audio_streams self audio_formats audio_bitrate (Py.lower <$> codec))
    (process_audio_streams self audio_formats audio_bitrate codec).
Proof.
  unfold process_audio_streams.
  apply similar_try; [|intros e1 e2 He; apply similar_bind;
                        [apply similar_log_error|intros _; by apply similar_raise]].
  apply similar_bind; [apply similar_refl|]. intros _.
  destruct audio_formats as [|fmt l]; [apply similar_refl|].
  rewrite (collect_ext _ _ _ (entry_lower_audio codec)).
  apply similar_bind; [apply similar_refl|]. intros audio_streams.
  unfold process_audio_streams_select.
  destruct audio_streams; [by apply similar_raise|apply similar_refl].
Qed.

Lemma similar_get_unified_streams self provider timed_out video_id audio_bitrate
    video_quality audio_codec video_codec include_video include_audio :
  similar (get_unified_streams self provider timed_out video_id audio_bitrate video_quality
             (Py.lower <$> audio_codec) (Py.lower <$> video_codec) include_video
             include_audio)
    (get_unified_streams self provider timed_out video_id audio_bitrate video_quality
       audio_codec video_codec include_video include_audio).
Proof.
  unfold get_unified_streams.
  destruct (negb include_video && negb include_audio); [apply similar_refl|].
  apply similar_try; [|intros e1 e2 He; by apply similar_outer_handler].
  apply similar_bind; [apply similar_log_debug|]. intros _.
  apply similar_bind; [apply similar_refl|]. intros info.
  destruct (get_or (formats info) []) as [[|fmt l]|]; [apply similar_refl| |apply similar_refl].
  apply similar_bind; [apply similar_refl|]. intros candidates.
  apply similar_results;
    [apply similar_process_video_streams|apply similar_process_audio_streams].
Qed.

Lemma filter_lower token :
  get_audio_streams_filter (Py.lower token) = get_audio_streams_filter token.
Proof. unfold get_audio_streams_filter. by rewrite lower_idem. Qed.

Lemma similar_get_audio_streams self provider video_id bitrate codec :
  similar (get_audio_streams self provider video_id bitrate (Py.lower <$> codec))
    (get_audio_streams self provider video_id bitrate codec).
Proof.
  unfold get_audio_streams.
  apply similar_try; [|intros e1 e2 He; by apply similar_outer_handler].
  apply similar_bind; [apply similar_log_debug|]. intros _.
  apply similar_bind; [apply similar_refl|]. intros info.
  assert (Hsel : ∀ l, similar (get_audio_streams_select self bitrate (Py.lower <$> codec) l)
                         (get_audio_streams_select self bitrate codec l)).
  { intros l. unfold get_audio_streams_select. destruct l as [|s l]; [apply similar_refl|].
    generalize (s :: l). intros cands.
    apply similar_bind; [|intros ?; apply similar_refl].
    unfold get_audio_streams_filtered. rewrite truthy_str_lower.
    destruct codec as [token|]; [|apply similar_refl].
    destruct (truthy_str (Some token)); [|apply similar_refl].
    change (default EmptyString (Py.lower <$> Some token)) with (Py.lower token).
    change (default EmptyString (Some token)) with token.
    rewrite filter_lower.
    destruct (List.filter (get_audio_streams_filter token) cands);
      [apply similar_bind; [apply similar_log_warning|intros _; apply similar_refl]
      |apply similar_bind; [apply similar_log_debug|intros _; apply similar_refl]]. }
  destruct (formats info); [apply similar_refl|..];
    (apply similar_bind; [apply similar_refl|]); intros fmts; apply Hsel.
Qed.

Lemma similar_value {A} (m1 m2 : M A) c :
  similar m1 m2 ->
  (∀ a, value_of (m1 c) = Return a <-> value_of (m2 c) = Return a)
  ∧ (∀ cls, (∃ e, value_of (m1 c) = Raise e ∧ class_of e = cls)
            <-> ∃ e, value_of (m2 c) = Raise e ∧ class_of e = cls).
Proof.
  intros Hs. specialize (Hs c). unfold value_of.
  destruct (m1 c) as [[[a1|e1] c1] t1], (m2 c) as [[[a2|e2] c2] t2]; try done; simpl.
  - destruct Hs as [-> _]. split; [done|]. intros cls. split; by intros (e & [=] & _).
  - destruct Hs as [He _]. split; [by split|]. intros cls.
    split; intros (e & [= <-] & <-); eauto.
Qed.

(** X26.  Codec tokens are matched without regard to case.  A codec
    filter and its lower-cased form give the same outcome in
    [get_audio_streams] and in [get_unified_streams]: the same streams,
    or an exception of the same class; only the printed text and the
    text of the exception differ. *)
Theorem codec_tokens_ignore_case :
  (∀ self provider video_id bitrate codec c,
     (∀ streams,
        value_of (get_audio_streams self provider video_id bitrate (Py.lower <$> codec) c)
        = Return streams
        <-> value_of (get_audio_streams self provider video_id bitrate codec c)
            = Return streams)
     ∧ (∀ cls,
          (∃ e, value_of (get_audio_streams self provider video_id bitrate
                            (Py.lower <$> codec) c) = Raise e ∧ class_of e = cls)
          <-> ∃ e, value_of (get_audio_streams self provider video_id bitrate codec c)
                   = Raise e ∧ class_of e = cls)) ∧
  (∀ self provider timed_out video_id audio_bitrate video_quality audio_codec video_codec
     include_video include_audio c,
     (∀ r,
        value_of (get_unified_streams self provider timed_out video_id audio_bitrate
                    video_quality (Py.lower <$> audio_codec) (Py.lower <$> video_codec)
                    include_video include_audio c) = Return r
        <-> value_of (get_unified_streams self provider timed_out video_id audio_bitrate
                        video_quality audio_codec video_codec include_video include_audio c)
            = Return r)
     ∧ (∀ cls,
          (∃ e, value_of (get_unified_streams self provider timed_out video_id audio_bitrate
                            video_quality (Py.lower <$> audio_codec)
                            (Py.lower <$> video_codec) include_video include_audio c)
                = Raise e ∧ class_of e = cls)
          <-> ∃ e, value_of (get_unified_streams self provider timed_out video_id
                               audio_bitrate video_quality audio_codec video_codec
                               include_video include_audio c)
                   = Raise e ∧ class_of e = cls)).
Proof.
  split.
  - intros self provider video_id bitrate codec c.
    apply similar_value, similar_get_audio_streams.
  - intros self provider timed_out video_id audio_bitrate video_quality audio_codec
      video_codec include_video include_audio c.
    apply similar_value, similar_get_unified_streams.
Qed.

Lemma codec_tokens_ignore_case_witness :
  ∃ streams,
    value_of (get_audio_streams (create_optimized_extractor false) (serving two_formats)
                "id" 128 (Some "OPUS"%string) []) = Return streams
    ∧ streams ≠ [].
Proof.
  eexists. split.
  - apply (proj1 (proj1 codec_tokens_ignore_case (create_optimized_extractor false)
                    (serving two_formats) "id"%string 128 (Some "OPUS"%string) []) _).
    vm_compute. reflexivity.
  - discriminate.
Defined.
